(** * Sora2-Grsai: the job runner of [main.py], embedded and verified

    The development follows the layout of [VideoGeneratorApp]:

    - [Url]: [validate_url] (the regular expression, matched by
      derivatives) and [str.strip];
    - the job table ([self.tasks], a list of optional records), the file
      system touched by [download_video], and the trace of observable
      effects (store writes, network calls, sleeps);
    - a state monad in which [rate_limit_api_call], [download_video],
      [poll_for_result] and [generate_video_task] are written statement
      by statement; the remote service, the clock and the [is_running]
      flag are oracles of the environment;
    - [RateLimiter]: the same [rate_limit_api_call], cut at its statements
      and interleaved between worker threads.

    Strings are byte strings; time stamps ([time.time()]) are rationals. *)

From Stdlib Require Import QArith Qround ZArith String Ascii List Lia Lqa DecimalString.
From stdpp Require Import base list gmap strings.

Local Open Scope string_scope.

(* ================================================================== *)
(** ** URLs: [str.strip] and [validate_url]                            *)
(* ================================================================== *)

Module Url.

(** The strings of this module are strings of bytes, and its classes
    and white space are those of Python on ASCII text.  On other text
    Python's [re] and [str.strip] know more: under [re.IGNORECASE]
    U+017F matches "s" and U+212A matches "k", [\d] takes every
    decimal digit, and U+0085, U+00A0 and the other Unicode spaces are
    white space. *)

(** Character classes, on byte codes. *)
Definition code (c : ascii) : nat := nat_of_ascii c.

Definition between (lo hi : nat) (c : ascii) : bool :=
  (lo <=? code c)%nat && (code c <=? hi)%nat.

(** [str.isspace] on the ASCII range: TAB..CR, FS..US and the space. *)
Definition is_space (c : ascii) : bool :=
  between 9 13 c || between 28 32 c.

Definition is_digit (c : ascii) : bool := between 48 57 c.
Definition is_upper (c : ascii) : bool := between 65 90 c.
Definition is_lower (c : ascii) : bool := between 97 122 c.
Definition is_alpha (c : ascii) : bool := is_upper c || is_lower c.

Definition to_lower (c : ascii) : ascii :=
  if is_upper c then ascii_of_nat (code c + 32) else c.

(** [s.strip()]: drop leading and trailing white space. *)
Fixpoint lstrip (s : string) : string :=
  match s with
  | EmptyString => EmptyString
  | String c s' => if is_space c then lstrip s' else s
  end.

Fixpoint rev_onto (s acc : string) : string :=
  match s with
  | EmptyString => acc
  | String c s' => rev_onto s' (String c acc)
  end.

Definition rev (s : string) : string := rev_onto s EmptyString.

Definition rstrip (s : string) : string := rev (lstrip (rev s)).

Definition strip (s : string) : string := rstrip (lstrip s).

(** Regular expressions over character classes. *)
Inductive regex : Type :=
| Void : regex
| Eps : regex
| Class (p : ascii -> bool) : regex
| Cat (r1 r2 : regex) : regex
| Alt (r1 r2 : regex) : regex
| Star (r : regex) : regex.

Fixpoint nullable (r : regex) : bool :=
  match r with
  | Void => false
  | Eps => true
  | Class _ => false
  | Cat r1 r2 => nullable r1 && nullable r2
  | Alt r1 r2 => nullable r1 || nullable r2
  | Star _ => true
  end.

(** Constructors that keep derivatives small. *)
Definition cat (r1 r2 : regex) : regex :=
  match r1, r2 with
  | Void, _ => Void
  | _, Void => Void
  | Eps, _ => r2
  | _, Eps => r1
  | _, _ => Cat r1 r2
  end.

Definition alt (r1 r2 : regex) : regex :=
  match r1, r2 with
  | Void, _ => r2
  | _, Void => r1
  | _, _ => Alt r1 r2
  end.

Fixpoint deriv (c : ascii) (r : regex) : regex :=
  match r with
  | Void => Void
  | Eps => Void
  | Class p => if p c then Eps else Void
  | Cat r1 r2 =>
      if nullable r1
      then alt (cat (deriv c r1) r2) (deriv c r2)
      else cat (deriv c r1) r2
  | Alt r1 r2 => alt (deriv c r1) (deriv c r2)
  | Star r1 => cat (deriv c r1) (Star r1)
  end.

(** [fullmatch r s]: the whole of [s] is a word of [r]. *)
Fixpoint fullmatch (r : regex) (s : string) : bool :=
  match s with
  | EmptyString => nullable r
  | String c s' => fullmatch (deriv c r) s'
  end.

(** Derived forms: [r?], [r+], [r{n}], [r{lo,hi}], literals under
    [re.IGNORECASE]. *)
Definition opt (r : regex) : regex := Alt Eps r.
Definition plus (r : regex) : regex := Cat r (Star r).

Fixpoint times (n : nat) (r : regex) : regex :=
  match n with
  | O => Eps
  | S n' => Cat r (times n' r)
  end.

Fixpoint upto (n : nat) (r : regex) : regex :=
  match n with
  | O => Eps
  | S n' => opt (Cat r (upto n' r))
  end.

Definition range (lo hi : nat) (r : regex) : regex :=
  Cat (times lo r) (upto (hi - lo) r).

Definition chr_ci (c : ascii) : regex :=
  Class (fun x => Ascii.eqb (to_lower x) (to_lower c)).

Definition chr (c : ascii) : regex := Class (Ascii.eqb c).

Fixpoint lit_ci (s : string) : regex :=
  match s with
  | EmptyString => Eps
  | String c s' => Cat (chr_ci c) (lit_ci s')
  end.

(** The classes of the pattern; [re.IGNORECASE] makes [[A-Z]] accept
    both cases. *)
Definition alnum : regex := Class (fun c => is_alpha c || is_digit c).
Definition alnum_dash : regex :=
  Class (fun c => is_alpha c || is_digit c || Ascii.eqb c "-").
Definition alpha : regex := Class is_alpha.
Definition digit : regex := Class is_digit.
Definition nonspace : regex := Class (fun c => negb (is_space c)).
Definition dot : regex := chr ".".

(** [(?:[A-Z0-9](?:[A-Z0-9-]{0,61}[A-Z0-9])?\.)+[A-Z]{2,6}\.?] *)
Definition label : regex :=
  Cat alnum (Cat (opt (Cat (range 0 61 alnum_dash) alnum)) dot).

Definition domain : regex :=
  Cat (plus label) (Cat (range 2 6 alpha) (opt dot)).

(** [\d{1,3}\.\d{1,3}\.\d{1,3}\.\d{1,3}] *)
Definition octet : regex := range 1 3 digit.

Definition ip : regex :=
  Cat octet (Cat dot (Cat octet (Cat dot (Cat octet (Cat dot octet))))).

Definition host : regex := Alt domain (Alt (lit_ci "localhost") ip).

(** [(?::\d+)?] *)
Definition port : regex := opt (Cat (chr ":") (plus digit)).

(** [(?:/?|[/?]\S+)] *)
Definition path : regex :=
  Alt (opt (chr "/"))
      (Cat (Class (fun c => Ascii.eqb c "/" || Ascii.eqb c "?")) (plus nonspace)).

(** [^https?://] host port path [$] *)
Definition url_pattern : regex :=
  Cat (lit_ci "http") (Cat (opt (chr_ci "s")) (Cat (lit_ci "://")
    (Cat host (Cat port path)))).

(** [$] (without [re.MULTILINE]) matches at the end of the string and
    just before a newline that ends the string. *)
Definition chop_newline (s : string) : option string :=
  match rev s with
  | String c s' => if Ascii.eqb c "010" then Some (rev s') else None
  | EmptyString => None
  end.

Definition pattern_match (s : string) : bool :=
  fullmatch url_pattern s
  || match chop_newline s with
     | Some s' => fullmatch url_pattern s'
     | None => false
     end.

(** [validate_url(url)]; [None] is Python's [None]. *)
Definition validate_url (url : option string) : bool :=
  match url with
  | None => true
  | Some EmptyString => true
  | Some s => pattern_match s
  end.

End Url.

(* ================================================================== *)
(** ** Module constants                                                 *)
(* ================================================================== *)

Definition max_retries : nat := 5.
Definition max_workers : nat := 5.
Definition max_video_count : nat := 15.

(** Locals of [poll_for_result]. *)
Definition max_poll_attempts : nat := 120.
Definition poll_interval : Z := 15.

(** [f"{n}"] for an integer. *)
Definition str_of_Z (z : Z) : string := NilZero.string_of_int (Z.to_int z).
Definition str_of_nat (n : nat) : string := str_of_Z (Z.of_nat n).

(* ================================================================== *)
(** ** The job table                                                    *)
(* ================================================================== *)

(** One entry of [self.tasks]: the dictionary built in [run_generation]
    and [generate_video_task].  [download_path] is absent until a
    download succeeds; [end_time] is [None] until it is written. *)
Record task : Type := Task {
  task_id : nat;
  prompt : string;
  status : string;
  progress : Z;
  retry_count : nat;
  error : string;
  video_url : string;
  download_path : option string;
  start_time : Q;
  last_update : Q;
  end_time : option Q
}.

Definition set_status (v : string) (r : task) : task :=
  Task (task_id r) (prompt r) v (progress r) (retry_count r) (error r)
       (video_url r) (download_path r) (start_time r) (last_update r) (end_time r).
Definition set_progress (v : Z) (r : task) : task :=
  Task (task_id r) (prompt r) (status r) v (retry_count r) (error r)
       (video_url r) (download_path r) (start_time r) (last_update r) (end_time r).
Definition set_retry_count (v : nat) (r : task) : task :=
  Task (task_id r) (prompt r) (status r) (progress r) v (error r)
       (video_url r) (download_path r) (start_time r) (last_update r) (end_time r).
Definition set_error (v : string) (r : task) : task :=
  Task (task_id r) (prompt r) (status r) (progress r) (retry_count r) v
       (video_url r) (download_path r) (start_time r) (last_update r) (end_time r).
Definition set_video_url (v : string) (r : task) : task :=
  Task (task_id r) (prompt r) (status r) (progress r) (retry_count r) (error r)
       v (download_path r) (start_time r) (last_update r) (end_time r).
Definition set_download_path (v : option string) (r : task) : task :=
  Task (task_id r) (prompt r) (status r) (progress r) (retry_count r) (error r)
       (video_url r) v (start_time r) (last_update r) (end_time r).
Definition set_start_time (v : Q) (r : task) : task :=
  Task (task_id r) (prompt r) (status r) (progress r) (retry_count r) (error r)
       (video_url r) (download_path r) v (last_update r) (end_time r).
Definition set_last_update (v : Q) (r : task) : task :=
  Task (task_id r) (prompt r) (status r) (progress r) (retry_count r) (error r)
       (video_url r) (download_path r) (start_time r) v (end_time r).
Definition set_end_time (v : option Q) (r : task) : task :=
  Task (task_id r) (prompt r) (status r) (progress r) (retry_count r) (error r)
       (video_url r) (download_path r) (start_time r) (last_update r) v.

(** The request body of the submit call. *)
Record payload : Type := Payload {
  p_model : string;
  p_prompt : string;
  p_aspectRatio : string;
  p_duration : Z;
  p_size : string;
  p_shutProgress : bool;
  p_webHook : string;
  p_url : option string
}.

(* ================================================================== *)
(** ** The environment: remote service, clock, running flag             *)
(* ================================================================== *)

(** What a [requests] call or a file operation can raise, by the
    [except] clause that catches it. *)
Inductive exn : Type :=
| Timeout
| ConnectionError
| IOError (msg : string)
| OtherError (msg : string).

(** The JSON body of a submit reply, as far as the runner reads it:
    [data.get("code")], [data.get("msg")], [data["data"]["id"]] (a missing
    key raises, with the given text). *)
Record submit_json : Type := SubmitJson {
  sj_code : option Z;
  sj_msg : option string;
  sj_id : string + string
}.

(** The reply of [requests.post(.../v1/video/sora-video)]: an exception,
    or a response with its status code, its text and its body parsed as
    JSON ([inr] when [response.json()] raises). *)
Inductive submit_reply : Type :=
| SubmitRaises (e : exn)
| SubmitResponse (status_code : Z) (text : string) (json : submit_json + string).

(** [result_data] of a poll reply. *)
Record poll_data : Type := PollData {
  pd_progress : option Z;
  pd_status : option string;
  pd_results : list (option string);
  pd_failure_reason : option string;
  pd_error : option string
}.

Inductive poll_body : Type :=
| PollCodeZero (d : poll_data)
| PollCodeOther (msg : option string).

Inductive poll_reply : Type :=
| PollRaises (e : exn)
| PollResponse (status_code : Z) (body : poll_body).

(** The reply of [requests.get(video_url, stream=True)]: an exception
    before the body is read, or a response with its status code, its
    [content-length] header, the chunks [iter_content] yields and the way
    the stream ends (normally, or by raising). *)
Inductive download_reply : Type :=
| DownloadRaises (e : exn)
| DownloadResponse (status_code : Z) (content_length : option Z)
    (chunks : list (list Byte.byte)) (ending : option exn).

Record env : Type := Env {
  is_running : nat -> bool;          (* the k-th read of [self.is_running] *)
  clock : nat -> Q;                  (* the k-th call of [time.time()] *)
  submit_response : nat -> submit_reply;
  poll_response : nat -> poll_reply;
  download_response : nat -> download_reply
}.

(* ================================================================== *)
(** ** Observable effects                                               *)
(* ================================================================== *)

(** The statement that wrote the record. *)
Inductive site : Type :=
| WInit
| WInvalidUrl
| WAttemptStart
| WSubmitFailed
| WBackoffReset
| WPollStatus
| WCompleted
| WDownloadFailed
| WRemoteFailed
| WPollError
| WPollTimeout
| WFinal.

(** The [time.sleep] calls, by place. *)
Inductive pause : Type :=
| RateLimit
| PollInterval
| Backoff.

Inductive event : Type :=
| EvWrite (w : site) (task_index : nat) (r : task)   (* the record after the write *)
| EvSubmit (p : payload)
| EvPoll (api_task_id : string)
| EvDownload (url : string)
| EvSleep (why : pause) (seconds : Q).

(** The state of one runner: the job table, the files under the download
    directory, the rate limiter's time stamp, the effects so far (newest
    first) and how far each oracle has been read. *)
Record state : Type := State {
  tasks : list (option task);
  files : gmap string (list Byte.byte);
  last_api_call_time : Q;
  trace : list event;
  n_running : nat;
  n_clock : nat;
  n_submit : nat;
  n_poll : nat;
  n_download : nat
}.

Definition history (st : state) : list event := List.rev (trace st).

Definition initial_state (ts : list (option task)) : state :=
  State ts ∅ 0%Q [] 0 0 0 0 0.

(** The state monad of the runner. *)
Definition M (A : Type) : Type := state -> A * state.

Definition ret {A} (a : A) : M A := fun st => (a, st).

Definition bind {A B} (m : M A) (f : A -> M B) : M B :=
  fun st => let (a, st') := m st in f a st'.

Notation "'let*' x ':=' m 'in' k" := (bind m (fun x => k))
  (at level 10, x name, m at level 100, k at level 200).
Notation "m ';;' k" := (bind m (fun _ => k))
  (at level 100, k at level 200, right associativity).

(* ================================================================== *)
(** ** The dictionary updates of the runner                             *)
(* ================================================================== *)

(** Each [self.tasks[task_index].update({...})] of [poll_for_result] and
    [generate_video_task], as a function of the time stamp it takes and
    of the record it updates. *)

Definition poll_timeout_message : string := "轮询超时，请手动检查任务状态".
Definition invalid_image_message : string := "图片URL格式无效".

Definition upd_attempt_start (attempt : nat) (now : Q) (r : task) : task :=
  set_last_update now (set_retry_count attempt (set_status "generating" r)).

Definition upd_submit_failed (msg : string) (now : Q) (r : task) : task :=
  set_last_update now (set_error msg (set_status "failed" r)).

Definition upd_backoff_reset (now : Q) (r : task) : task :=
  set_last_update now (set_error "" (set_status "pending" r)).

Definition upd_poll_status (progress_ : Z) (status_ : string) (now : Q) (r : task) : task :=
  set_last_update now
    (set_status (if status_ =? "running" then "generating" else status_)
       (set_progress progress_ r)).

Definition upd_completed (video_url_ result : string) (now : Q) (r : task) : task :=
  set_end_time (Some now)
    (set_video_url video_url_
       (set_download_path (Some result) (set_status "completed" r))).

Definition upd_download_failed (result : string) (now : Q) (r : task) : task :=
  set_end_time (Some now) (set_error result (set_status "download_failed" r)).

Definition upd_remote_failed (failure_reason error_msg : string) (now : Q) (r : task)
  : task :=
  set_end_time (Some now)
    (set_error (failure_reason ++ ": " ++ error_msg) (set_status "failed" r)).

Definition upd_poll_error (msg : string) (now : Q) (r : task) : task :=
  set_last_update now (set_error msg r).

Definition upd_poll_timeout (now : Q) (r : task) : task :=
  set_end_time (Some now) (set_error poll_timeout_message (set_status "failed" r)).

Definition upd_invalid_url (now : Q) (r : task) : task :=
  set_end_time (Some now) (set_error invalid_image_message (set_status "failed" r)).

Definition upd_final (now : Q) (r : task) : task := set_end_time (Some now) r.

(** The initialisation at the head of [generate_video_task]: a new
    dictionary for an empty slot, an update of the old one otherwise. *)
Definition upd_init (task_index : nat) (prompt_ : string) (t1 t2 : Q)
    (o : option task) : task :=
  match o with
  | None => Task task_index prompt_ "pending" 0 0 "" "" None t1 t2 None
  | Some r =>
      set_end_time None (set_last_update t2 (set_start_time t1
        (set_video_url "" (set_error "" (set_retry_count 0
           (set_progress 0 (set_status "pending" r)))))))
  end.

(** [not self.tasks[task_index].get('end_time')] *)
Definition end_time_unset (r : task) : bool :=
  match end_time r with
  | None => true
  | Some t => Qeq_bool t 0
  end.

(* ================================================================== *)
(** ** The runner                                                       *)
(* ================================================================== *)

Section Runner.

Variable E : env.

(** *** Primitive effects *)

Definition get : M state := fun st => (st, st).

(** [time.time()] *)
Definition time_time : M Q := fun st =>
  (clock E (n_clock st),
   State (tasks st) (files st) (last_api_call_time st) (trace st)
         (n_running st) (S (n_clock st)) (n_submit st) (n_poll st) (n_download st)).

(** A read of [self.is_running]. *)
Definition read_is_running : M bool := fun st =>
  (is_running E (n_running st),
   State (tasks st) (files st) (last_api_call_time st) (trace st)
         (S (n_running st)) (n_clock st) (n_submit st) (n_poll st) (n_download st)).

Definition emit (e : event) : M unit := fun st =>
  (tt,
   State (tasks st) (files st) (last_api_call_time st) (e :: trace st)
         (n_running st) (n_clock st) (n_submit st) (n_poll st) (n_download st)).

(** [time.sleep(seconds)] *)
Definition time_sleep (why : pause) (seconds : Q) : M unit :=
  emit (EvSleep why seconds).

Definition set_last_api_call_time (t : Q) : M unit := fun st =>
  (tt,
   State (tasks st) (files st) t (trace st)
         (n_running st) (n_clock st) (n_submit st) (n_poll st) (n_download st)).

Definition set_files (fs : gmap string (list Byte.byte)) : M unit := fun st =>
  (tt,
   State (tasks st) fs (last_api_call_time st) (trace st)
         (n_running st) (n_clock st) (n_submit st) (n_poll st) (n_download st)).

(** [requests.post(f"{base_url}/v1/video/sora-video", json=payload)] *)
Definition post_sora_video (p : payload) : M submit_reply := fun st =>
  (submit_response E (n_submit st),
   State (tasks st) (files st) (last_api_call_time st) (EvSubmit p :: trace st)
         (n_running st) (n_clock st) (S (n_submit st)) (n_poll st) (n_download st)).

(** [requests.post(f"{base_url}/v1/draw/result", json={"id": api_task_id})] *)
Definition post_draw_result (api_task_id : string) : M poll_reply := fun st =>
  (poll_response E (n_poll st),
   State (tasks st) (files st) (last_api_call_time st) (EvPoll api_task_id :: trace st)
         (n_running st) (n_clock st) (n_submit st) (S (n_poll st)) (n_download st)).

(** [requests.get(video_url, stream=True)] *)
Definition get_video (url : string) : M download_reply := fun st =>
  (download_response E (n_download st),
   State (tasks st) (files st) (last_api_call_time st) (EvDownload url :: trace st)
         (n_running st) (n_clock st) (n_submit st) (n_poll st) (S (n_download st))).

(** [self.tasks[task_index]] when
    [task_index < len(self.tasks) and self.tasks[task_index]]. *)
Definition task_at (task_index : nat) (st : state) : option task :=
  match tasks st !! task_index with
  | Some (Some r) => Some r
  | _ => None
  end.

Definition lookup_task (task_index : nat) : M (option task) := fun st =>
  (task_at task_index st, st).

(** [self.tasks[task_index] = r], recorded in the trace. *)
Definition store (w : site) (task_index : nat) (r : task) : M unit := fun st =>
  (tt,
   State (<[task_index := Some r]> (tasks st)) (files st) (last_api_call_time st)
         (EvWrite w task_index r :: trace st)
         (n_running st) (n_clock st) (n_submit st) (n_poll st) (n_download st)).

(** [with self.lock: if task_index < len(self.tasks) and
    self.tasks[task_index]: self.tasks[task_index].update({...})], where
    the dictionary holds one [time.time()]. *)
Definition locked_update (w : site) (task_index : nat) (f : Q -> task -> task)
  : M unit :=
  let* o := lookup_task task_index in
  match o with
  | Some r => let* now := time_time in store w task_index (f now r)
  | None => ret tt
  end.

(** [self.tasks[task_index].get('status', 'failed') if ... else 'failed'] *)
Definition current_status (task_index : nat) : M string :=
  let* o := lookup_task task_index in
  ret (match o with Some r => status r | None => "failed" end).

(** *** [rate_limit_api_call] *)

Definition rate_limit_api_call : M unit :=
  let* current_time := time_time in
  let* st := get in
  let time_since_last_call := (current_time - last_api_call_time st)%Q in
  (if Qlt_le_dec time_since_last_call 1
   then time_sleep RateLimit (1 - time_since_last_call)%Q
   else ret tt) ;;
  let* t := time_time in
  set_last_api_call_time t.

(** *** [download_video] *)

(** The loop over [response.iter_content]: empty chunks are skipped. *)
Fixpoint write_chunks (chunks : list (list Byte.byte))
    (content : list Byte.byte) (downloaded_size : Z) : list Byte.byte * Z :=
  match chunks with
  | [] => (content, downloaded_size)
  | chunk :: rest =>
      match chunk with
      | [] => write_chunks rest content downloaded_size
      | _ => write_chunks rest (content ++ chunk)
               (downloaded_size + Z.of_nat (length chunk))
      end
  end.

(** The [except] clauses of [download_video]. *)
Definition download_error (e : exn) : string :=
  match e with
  | Timeout => "下载超时"
  | ConnectionError => "下载连接错误"
  | IOError m => "文件写入错误: " ++ m
  | OtherError m => "下载异常: " ++ m
  end.

Definition incomplete_message (downloaded_size total_size : Z) : string :=
  "文件下载不完整: " ++ str_of_Z downloaded_size ++ "/" ++ str_of_Z total_size ++ " bytes".

Definition download_video (video_url filename download_dir : string)
  : M (bool * string) :=
  if negb (Url.validate_url (Some video_url)) then ret (false, "视频URL格式无效")
  else
    let* response := get_video video_url in
    match response with
    | DownloadRaises e => ret (false, download_error e)
    | DownloadResponse status_code content_length chunks ending =>
        if (status_code =? 200)%Z then
          let filepath := download_dir ++ "/" ++ filename in
          let total_size := default 0%Z content_length in
          let '(content, downloaded_size) := write_chunks chunks [] 0%Z in
          let* st := get in
          set_files (<[filepath := content]> (files st)) ;;
          match ending with
          | Some e => ret (false, download_error e)
          | None =>
              if (0 <? total_size)%Z && (downloaded_size <? total_size)%Z then
                let* st := get in
                set_files (delete filepath (files st)) ;;
                ret (false, incomplete_message downloaded_size total_size)
              else
                let* st := get in
                match files st !! filepath with
                | Some written =>
                    if (length written =? 0)%nat then
                      set_files (delete filepath (files st)) ;;
                      ret (false, "下载的文件为空")
                    else ret (true, filepath)
                | None => ret (false, download_error (IOError filepath))
                end
          end
        else ret (false, "下载失败: HTTP " ++ str_of_Z status_code)
    end.

(** *** [poll_for_result] *)

Definition download_dir : string := "download".

(** The [except] clauses of the poll loop. *)
Definition poll_error (e : exn) : string :=
  match e with
  | Timeout => "轮询请求超时"
  | ConnectionError => "轮询连接错误"
  | IOError m => "轮询异常: " ++ m
  | OtherError m => "轮询异常: " ++ m
  end.

Definition nonempty (s : string) : bool :=
  match s with EmptyString => false | _ => true end.

(** The rounds of [for attempt in range(max_poll_attempts)], then the
    statements after the loop.  A [return] inside the loop ends the
    function: the result is [ret tt] there. *)
Fixpoint poll_rounds (rounds : nat) (task_index : nat) (api_task_id : string)
  : M unit :=
  match rounds with
  | O =>
      locked_update WPollTimeout task_index upd_poll_timeout
  | S rounds' =>
      let* running := read_is_running in
      if negb running then ret tt
      else
        rate_limit_api_call ;;
        let* response := post_draw_result api_task_id in
        match response with
        | PollRaises e =>
            locked_update WPollError task_index (upd_poll_error (poll_error e)) ;;
            time_sleep PollInterval (inject_Z poll_interval) ;;
            poll_rounds rounds' task_index api_task_id
        | PollResponse status_code body =>
            if (status_code =? 200)%Z then
              match body with
              | PollCodeZero result_data =>
                  let progress_ := default 0%Z (pd_progress result_data) in
                  let status_ := default "" (pd_status result_data) in
                  locked_update WPollStatus task_index
                    (upd_poll_status progress_ status_) ;;
                  if status_ =? "succeeded" then
                    let video_url_ :=
                      match pd_results result_data with
                      | first :: _ => default "" first
                      | [] => ""
                      end in
                    if nonempty video_url_ then
                      let* t := time_time in
                      let filename :=
                        "video_" ++ str_of_nat task_index ++ "_"
                          ++ str_of_Z (Qfloor t) ++ ".mp4" in
                      let* res := download_video video_url_ filename download_dir in
                      let '(success, result) := res in
                      (if success then
                         locked_update WCompleted task_index
                           (upd_completed video_url_ result)
                       else
                         locked_update WDownloadFailed task_index
                           (upd_download_failed result))
                    else
                      time_sleep PollInterval (inject_Z poll_interval) ;;
                      poll_rounds rounds' task_index api_task_id
                  else if status_ =? "failed" then
                    let failure_reason := default "" (pd_failure_reason result_data) in
                    let error_msg := default "" (pd_error result_data) in
                    locked_update WRemoteFailed task_index
                      (upd_remote_failed failure_reason error_msg)
                  else
                    time_sleep PollInterval (inject_Z poll_interval) ;;
                    poll_rounds rounds' task_index api_task_id
              | PollCodeOther msg =>
                  locked_update WPollError task_index
                    (upd_poll_error ("API错误: " ++ default "未知错误" msg)) ;;
                  time_sleep PollInterval (inject_Z poll_interval) ;;
                  poll_rounds rounds' task_index api_task_id
              end
            else
              time_sleep PollInterval (inject_Z poll_interval) ;;
              poll_rounds rounds' task_index api_task_id
        end
  end.

Definition poll_for_result (task_index : nat) (api_task_id : string) : M unit :=
  poll_rounds max_poll_attempts task_index api_task_id.

(** *** [generate_video_task] *)

(** How the [try] block of one attempt ends: by [return], by
    [continue], or by reaching the statements after it. *)
Inductive flow : Type :=
| Return (b : bool)
| Continue
| Next.

(** The [except] clauses of the retry loop. *)
Definition submit_error (e : exn) : string :=
  match e with
  | Timeout => "请求超时"
  | ConnectionError => "连接错误"
  | IOError m => "异常: " ++ m
  | OtherError m => "异常: " ++ m
  end.

(** The update every failed submit makes: no [end_time]. *)
Definition submit_failed (task_index : nat) (msg : string) : M unit :=
  locked_update WSubmitFailed task_index (upd_submit_failed msg).

Definition code_is_zero (data : submit_json) : bool :=
  match sj_code data with
  | Some c => (c =? 0)%Z
  | None => false
  end.

Definition http_error_message (status_code : Z) (text : string)
    (json : submit_json + string) : string :=
  let error_msg := "HTTP错误: " ++ str_of_Z status_code in
  if nonempty text then
    match json with
    | inl error_data => default error_msg (sj_msg error_data)
    | inr _ => substring 0 100 text
    end
  else error_msg.

(** The branches on the reply to the submit call. *)
Definition handle_response (task_index : nat) (response : submit_reply) : M flow :=
  match response with
  | SubmitRaises e =>
      submit_failed task_index (submit_error e) ;; ret Next
  | SubmitResponse status_code text json =>
      if (status_code =? 200)%Z then
        match json with
        | inr m => submit_failed task_index ("异常: " ++ m) ;; ret Next
        | inl data =>
            if code_is_zero data then
              match sj_id data with
              | inr m => submit_failed task_index ("异常: " ++ m) ;; ret Next
              | inl api_task_id =>
                  poll_for_result task_index api_task_id ;;
                  let* final_status := current_status task_index in
                  if final_status =? "completed" then ret (Return true)
                  else ret Continue
              end
            else
              let error_msg := default "未知错误" (sj_msg data) in
              submit_failed task_index ("API错误: " ++ error_msg) ;; ret Next
        end
      else
        submit_failed task_index (http_error_message status_code text json) ;;
        ret Next
  end.

(** The [try] block of one attempt. *)
Definition attempt_body (task_index : nat) (p : payload) (attempt : nat) : M flow :=
  locked_update WAttemptStart task_index (upd_attempt_start attempt) ;;
  rate_limit_api_call ;;
  let* response := post_sora_video p in
  handle_response task_index response.

(** The statements after the [try] block: wait and go on ([again]), or
    leave the loop. *)
Definition retry_decision (task_index attempt : nat) (again : M (option bool))
  : M (option bool) :=
  if (attempt <? max_retries - 1)%nat then
    let* status_ := current_status task_index in
    if status_ =? "failed" then
      let* running' := read_is_running in
      if running' then
        let wait_time := (2 ^ Z.of_nat attempt)%Z in
        time_sleep Backoff (inject_Z wait_time) ;;
        locked_update WBackoffReset task_index upd_backoff_reset ;;
        again
      else ret None
    else ret None
  else ret None.

(** [for attempt in range(max_retries)], from [attempt] on with [fuel]
    iterations left.  [Some b] is [return b]; [None] is the end of the
    loop, by exhaustion or by [break]. *)
Fixpoint retry_loop (fuel attempt : nat) (task_index : nat) (p : payload)
  : M (option bool) :=
  match fuel with
  | O => ret None
  | S fuel' =>
      let* running := read_is_running in
      if negb running then ret (Some false)
      else
        let* fl := attempt_body task_index p attempt in
        match fl with
        | Return b => ret (Some b)
        | Continue => retry_loop fuel' (S attempt) task_index p
        | Next =>
            retry_decision task_index attempt
              (retry_loop fuel' (S attempt) task_index p)
        end
  end.

(** The initialisation under the lock at the head of
    [generate_video_task]. *)
Definition init_task (task_index : nat) (prompt_ : string) : M unit :=
  let* o := lookup_task task_index in
  let* t1 := time_time in
  let* t2 := time_time in
  store WInit task_index (upd_init task_index prompt_ t1 t2 o).

(** The statements after the retry loop. *)
Definition finish (task_index : nat) : M bool :=
  let* final_status := current_status task_index in
  let* o := lookup_task task_index in
  match o with
  | Some r =>
      if end_time_unset r then
        let* now := time_time in
        store WFinal task_index (upd_final now r)
      else ret tt
  | None => ret tt
  end ;;
  ret (final_status =? "completed").

Definition base_payload (prompt_ aspect_ratio : string) (duration : Z) : payload :=
  Payload "sora-2" prompt_ aspect_ratio duration "small" false "-1" None.

Definition with_url (p : payload) (u : string) : payload :=
  Payload (p_model p) (p_prompt p) (p_aspectRatio p) (p_duration p)
          (p_size p) (p_shutProgress p) (p_webHook p) (Some u).

(** [image_url and image_url.strip()] *)
Definition image_given (image_url : option string) : bool :=
  match image_url with
  | Some u => nonempty u && nonempty (Url.strip u)
  | None => false
  end.

Definition run_attempts (task_index : nat) (p : payload) : M bool :=
  let* res := retry_loop max_retries 0 task_index p in
  match res with
  | Some b => ret b
  | None => finish task_index
  end.

Definition generate_video_task (task_index : nat) (prompt_ : string)
    (image_url : option string) (aspect_ratio : string) (duration : Z) : M bool :=
  let* running := read_is_running in
  if negb running then ret false
  else
    let* st := get in
    if (length (tasks st) <=? task_index)%nat then ret false
    else
      init_task task_index prompt_ ;;
      let p := base_payload prompt_ aspect_ratio duration in
      if image_given image_url then
        let u := Url.strip (default "" image_url) in
        if Url.validate_url (Some u) then run_attempts task_index (with_url p u)
        else
          locked_update WInvalidUrl task_index upd_invalid_url ;;
          ret false
      else run_attempts task_index p.

(** The task list [run_generation] builds before it starts the
    workers: one record per requested video. *)
Fixpoint fresh_tasks (i count : nat) (prompt_ : string) : M (list (option task)) :=
  match count with
  | O => ret []
  | S count' =>
      let* t1 := time_time in
      let* t2 := time_time in
      let* rest := fresh_tasks (S i) count' prompt_ in
      ret (Some (Task i prompt_ "pending" 0 0 "" "" None t1 t2 None) :: rest)
  end.

End Runner.

(** The record of job [task_index] after each write, oldest first. *)
Definition writes_of (task_index : nat) (tr : list event) : list (site * task) :=
  omap (fun e => match e with
                 | EvWrite w i r => if (i =? task_index)%nat then Some (w, r) else None
                 | _ => None
                 end) tr.


Definition submits_of (tr : list event) : list payload :=
  omap (fun e => match e with EvSubmit p => Some p | _ => None end) tr.

Definition backoffs_of (tr : list event) : list Q :=
  omap (fun e => match e with EvSleep Backoff d => Some d | _ => None end) tr.

(** One job, run alone from a given job table. *)
Definition run_job (E : env) (ts : list (option task)) (task_index : nat)
    (prompt_ : string) (image_url : option string) (aspect_ratio : string)
    (duration : Z) : bool * state :=
  generate_video_task E task_index prompt_ image_url aspect_ratio duration
    (initial_state ts).

(* ================================================================== *)
(** ** [rate_limit_api_call] between threads                            *)
(* ================================================================== *)

(** The worker threads call [rate_limit_api_call] on the one
    [VideoGeneratorApp]; the method takes no lock.  Here it is cut at its
    statements, and a schedule says which thread runs its next statement
    and when the wall clock advances. *)
Module RateLimiter.

(** Where a thread is inside one call. *)
Inductive pc : Type :=
| AtReadClock                         (* current_time = time.time() *)
| AtReadLast (current_time : Q)       (* time_since_last_call = current_time - self.last_api_call_time *)
| AtCheck (time_since_last_call : Q)  (* if time_since_last_call < 1.0: *)
| Sleeping (wake : Q)                 (* inside time.sleep(1.0 - time_since_last_call) *)
| AtWrite                             (* self.last_api_call_time = time.time() *)
| Done.

(** The wall clock, the shared attribute, and the grant times written
    so far (newest first). *)
Record shared : Type := Shared {
  now : Q;
  last_api_call_time : Q;
  grants : list Q
}.

(** One statement of a thread; [None] when the thread cannot run (it is
    asleep, or has returned). *)
Definition thread_step (p : pc) (s : shared) : option (pc * shared) :=
  match p with
  | AtReadClock => Some (AtReadLast (now s), s)
  | AtReadLast current_time =>
      Some (AtCheck (current_time - last_api_call_time s)%Q, s)
  | AtCheck time_since_last_call =>
      if Qlt_le_dec time_since_last_call 1
      then Some (Sleeping (now s + (1 - time_since_last_call))%Q, s)
      else Some (AtWrite, s)
  | Sleeping wake =>
      if Qle_bool wake (now s) then Some (AtWrite, s) else None
  | AtWrite => Some (Done, Shared (now s) (now s) (now s :: grants s))
  | Done => None
  end.

Inductive action : Type :=
| Tick (d : Q)      (* the clock advances by [d >= 0] *)
| Run (i : nat).    (* thread [i] runs its next statement *)

Definition config : Type := shared * list pc.

Definition step (a : action) (c : config) : option config :=
  let '(s, threads) := c in
  match a with
  | Tick d =>
      if Qle_bool 0 d
      then Some (Shared (now s + d)%Q (last_api_call_time s) (grants s), threads)
      else None
  | Run i =>
      match threads !! i with
      | Some p =>
          match thread_step p s with
          | Some (p', s') => Some (s', <[i := p']> threads)
          | None => None
          end
      | None => None
      end
  end.

Fixpoint exec (sched : list action) (c : config) : option config :=
  match sched with
  | [] => Some c
  | a :: rest =>
      match step a c with
      | Some c' => exec rest c'
      | None => None
      end
  end.

(** Consecutive grant times (newest first) at least one second apart. *)
Fixpoint spaced (gs : list Q) : Prop :=
  match gs with
  | g2 :: ((g1 :: _) as rest) => (g1 + 1 <= g2)%Q /\ spaced rest
  | _ => True
  end.

End RateLimiter.

(* ================================================================== *)
(** ** The shape of a job's write log                                   *)
(* ================================================================== *)

(** The writes made while a request is being polled. *)
Definition polling (w : site) : Prop :=
  w = WAttemptStart \/ w = WPollStatus \/ w = WPollError.

(** The record as the initialisation leaves it. *)
Definition fresh (r : task) : Prop :=
  status r = "pending" /\ progress r = 0%Z /\ retry_count r = 0%nat /\
  error r = "" /\ video_url r = "" /\ end_time r = None.

(** [step_ok E image_url w1 r1 w2 r2]: in a job started with
    [image_url], the write [w2] may follow the write [w1] that left the
    record [r1], and leaves the record [r2]. *)
Inductive step_ok (E : env) (image_url : option string)
  : site -> task -> site -> task -> Prop :=
| step_invalid_url r now :
    image_given image_url = true ->
    Url.validate_url (Some (Url.strip (default "" image_url))) = false ->
    status r = "pending" ->
    step_ok E image_url WInit r WInvalidUrl (upd_invalid_url now r)
| step_attempt_start w r a now :
    (a < max_retries)%nat ->
    status r <> "completed" ->
    step_ok E image_url w r WAttemptStart (upd_attempt_start a now r)
| step_submit_failed r msg now :
    status r = "generating" ->
    step_ok E image_url WAttemptStart r WSubmitFailed (upd_submit_failed msg now r)
| step_backoff_reset r now :
    status r = "failed" ->
    (retry_count r + 1 < max_retries)%nat ->
    step_ok E image_url WSubmitFailed r WBackoffReset (upd_backoff_reset now r)
| step_poll_status w r n d now :
    polling w ->
    status r <> "failed" ->
    poll_response E n = PollResponse 200 (PollCodeZero d) ->
    step_ok E image_url w r WPollStatus
      (upd_poll_status (default 0%Z (pd_progress d)) (default "" (pd_status d)) now r)
| step_poll_error w r msg now :
    polling w ->
    status r <> "failed" ->
    step_ok E image_url w r WPollError (upd_poll_error msg now r)
| step_poll_timeout w r now :
    polling w ->
    status r <> "failed" ->
    step_ok E image_url w r WPollTimeout (upd_poll_timeout now r)
| step_completed r url path now :
    status r = "succeeded" ->
    step_ok E image_url WPollStatus r WCompleted (upd_completed url path now r)
| step_download_failed r msg now :
    status r = "succeeded" ->
    step_ok E image_url WPollStatus r WDownloadFailed (upd_download_failed msg now r)
| step_remote_failed r reason msg now :
    status r = "failed" ->
    step_ok E image_url WPollStatus r WRemoteFailed (upd_remote_failed reason msg now r)
| step_final w r now :
    end_time_unset r = true ->
    step_ok E image_url w r WFinal (upd_final now r).

(** A write log, newest first: it starts with the initialisation and
    every later write follows its predecessor by [step_ok]. *)
Fixpoint chain (E : env) (image_url : option string) (ws : list (site * task))
  : Prop :=
  match ws with
  | [] => True
  | (w2, r2) :: rest =>
      match rest with
      | [] => w2 = WInit /\ fresh r2
      | (w1, r1) :: _ => step_ok E image_url w1 r1 w2 r2 /\ chain E image_url rest
      end
  end.

(** Neighbours of a list, oldest first. *)
Definition adjacent {A} (R : A -> A -> Prop) (l : list A) : Prop :=
  forall i a b, l !! i = Some a -> l !! S i = Some b -> R a b.

(* ================================================================== *)
(** ** Assertions about a running job                                   *)
(* ================================================================== *)

Section Assertions.

Variable E : env.
Variable image_url : option string.
Variable idx : nat.

(** The write log of job [idx], newest first. *)
Definition job_log (st : state) : list (site * task) := writes_of idx (trace st).

(** [At phi st]: the record of the job is present, it is the one the
    last write left, the log so far is a [chain], and [phi] holds of
    the last write. *)
Definition At (phi : site -> task -> Prop) (st : state) : Prop :=
  exists w r l, task_at idx st = Some r /\ job_log st = (w, r) :: l /\
                chain E image_url ((w, r) :: l) /\ phi w r.

(** A computation that leaves the job table and the write log alone. *)
Definition keeps {A} (m : M A) : Prop :=
  forall st, tasks (m st).2 = tasks st /\ job_log (m st).2 = job_log st.

Definition any : site -> task -> Prop := fun _ _ => True.

Definition in_poll : site -> task -> Prop :=
  fun w r => polling w /\ status r <> "failed".

Definition not_completed : site -> task -> Prop :=
  fun _ r => status r <> "completed".

Definition started (a : nat) : site -> task -> Prop :=
  fun w r => w = WAttemptStart /\ status r = "generating" /\ retry_count r = a.

Definition after_attempt (a : nat) (fl : flow) : site -> task -> Prop :=
  match fl with
  | Return _ => any
  | Continue => not_completed
  | Next => fun w r => w = WSubmitFailed /\ retry_count r = a /\ status r = "failed"
  end.

End Assertions.

(** [wp m Q st]: [Q] holds of the result and the final state of [m] run
    from [st]. *)
Definition wp {A} (m : M A) (Q : A -> state -> Prop) (st : state) : Prop :=
  Q (m st).1 (m st).2.

(* ================================================================== *)
(** ** Statuses and their edges                                         *)
(* ================================================================== *)

Definition known_status (s : string) : bool :=
  existsb (String.eqb s)
    ["pending"; "generating"; "succeeded"; "completed"; "failed"; "download_failed"].

Definition allowed_edge (a b : string) : bool :=
  (a =? b) ||
  existsb (fun xy => (a =? xy.1) && (b =? xy.2))
    [("pending", "generating"); ("pending", "failed");
     ("generating", "succeeded"); ("generating", "failed");
     ("succeeded", "generating"); ("succeeded", "failed");
     ("succeeded", "completed"); ("succeeded", "download_failed");
     ("failed", "pending"); ("failed", "generating");
     ("download_failed", "generating")].

Definition remote_statuses_known (E : env) : Prop :=
  forall n d, poll_response E n = PollResponse 200 (PollCodeZero d) ->
    pd_status d = Some "running" \/ pd_status d = Some "succeeded" \/
    pd_status d = Some "failed".


Definition status_step (a b : site * task) : Prop :=
  allowed_edge (status a.2) (status b.2) = true /\
  (status a.2 = "failed" -> status b.2 = "pending" ->
   (retry_count b.2 + 1 < max_retries)%nat).

(* ================================================================== *)
(** ** Digests of a trace                                               *)
(* ================================================================== *)

(** What [rate_limit_api_call] adds to the trace from [st]. *)
Definition rate_events (E : env) (st : state) : list event :=
  if Qlt_le_dec (clock E (n_clock st) - last_api_call_time st) 1
  then [EvSleep RateLimit (1 - (clock E (n_clock st) - last_api_call_time st))]
  else [].

Inductive digest : Type :=
| DWrite (w : site) (status_ : string) (retries : nat) (error_ : string) (ended : bool)
| DSubmit (p : payload)
| DPoll
| DDownload
| DWait (why : pause) (seconds : Q).

Definition digest_of (e : event) : option digest :=
  match e with
  | EvWrite w _ r =>
      Some (DWrite w (status r) (retry_count r) (error r)
              (match end_time r with Some _ => true | None => false end))
  | EvSubmit p => Some (DSubmit p)
  | EvPoll _ => Some DPoll
  | EvDownload _ => Some DDownload
  | EvSleep RateLimit _ => None
  | EvSleep why d => Some (DWait why d)
  end.

Definition digests (tr : list event) : list digest := omap digest_of tr.

Definition api_error_reply (reply : submit_reply) : bool :=
  match reply with
  | SubmitResponse status_code _ (inl data) =>
      (status_code =? 200)%Z && negb (code_is_zero data)
  | _ => false
  end.

Definition api_error_text (reply : submit_reply) : string :=
  match reply with
  | SubmitResponse _ _ (inl data) => "API错误: " ++ default "未知错误" (sj_msg data)
  | _ => ""
  end.

Definition ended (r : task) : bool :=
  match end_time r with Some _ => true | None => false end.

Definition image_rejected (image_url : option string) : bool :=
  image_given image_url &&
  negb (Url.validate_url (Some (Url.strip (default "" image_url)))).

Definition job_payload (prompt_ : string) (image_url : option string)
    (aspect_ratio : string) (duration : Z) : payload :=
  if image_given image_url
  then with_url (base_payload prompt_ aspect_ratio duration)
         (Url.strip (default "" image_url))
  else base_payload prompt_ aspect_ratio duration.

(** The record and the state the initialisation of job [idx] leaves. *)
Definition init_record (E : env) (ts : list (option task)) (idx : nat)
    (prompt_ : string) : task :=
  upd_init idx prompt_ (clock E 0) (clock E 1) (task_at idx (initial_state ts)).

Definition init_state (E : env) (ts : list (option task)) (idx : nat)
    (prompt_ : string) : state :=
  State (<[idx := Some (init_record E ts idx prompt_)]> ts) ∅ 0%Q
        [EvWrite WInit idx (init_record E ts idx prompt_)] 1 2 0 0 0.

(* ================================================================== *)
(** ** Relations between the states of a run                            *)
(* ================================================================== *)

(** [mono R m]: every run of [m] ends in a state related by [R] to the
    state it started from. *)
Definition mono {A} (R : state -> state -> Prop) (m : M A) : Prop :=
  forall st, R st (m st).2.

(** The trace is only ever extended. *)
Definition extends (st st' : state) : Prop :=
  exists l, trace st' = (l ++ trace st)%list.

(** The records of the other jobs and the length of the table stay. *)
Definition same_others (idx : nat) (st st' : state) : Prop :=
  length (tasks st') = length (tasks st) /\
  forall j, j <> idx -> tasks st' !! j = tasks st !! j.

(* ================================================================== *)
(** ** Replies, and the calls made so far                               *)
(* ================================================================== *)



(** The task identifier of an accepted submit. *)
Definition accepted_id (reply : submit_reply) : option string :=
  match reply with
  | SubmitResponse status_code _ (inl data) =>
      if (status_code =? 200)%Z && code_is_zero data
      then match sj_id data with inl i => Some i | inr _ => None end
      else None
  | _ => None
  end.



(* ================================================================== *)
(** ** Downloads                                                        *)
(* ================================================================== *)

(** The number of bytes [download_video] counts for a stream. *)
Definition received (chunks : list (list Byte.byte)) : Z :=
  (write_chunks chunks [] 0%Z).2.

(** Where [poll_for_result] saves the video it fetches at time [t]. *)
Definition video_path (task_index : nat) (t : Q) : string :=
  download_dir ++ "/" ++
  ("video_" ++ str_of_nat task_index ++ "_" ++ str_of_Z (Qfloor t) ++ ".mp4").

(* ================================================================== *)
(** ** Scenarios                                                        *)
(* ================================================================== *)

(** Concrete services, to run the model on. *)
Module Scenario.

Definition clock (n : nat) : Q := inject_Z (1000 + 20 * Z.of_nat n).

Definition accepted : submit_reply :=
  SubmitResponse 200 "{}" (inl (SubmitJson (Some 0%Z) (Some "success") (inl "task-1"))).

Definition refused : submit_reply :=
  SubmitResponse 200 "{}" (inl (SubmitJson (Some (-1)%Z) (Some "quota") (inr "'data'"))).

Definition running (p : Z) : poll_reply :=
  PollResponse 200 (PollCodeZero (PollData (Some p) (Some "running") [] None None)).

Definition succeeded (url : string) : poll_reply :=
  PollResponse 200
    (PollCodeZero (PollData (Some 100%Z) (Some "succeeded") [Some url] None None)).

Definition failed (p : Z) : poll_reply :=
  PollResponse 200
    (PollCodeZero (PollData (Some p) (Some "failed") [] (Some "moderation")
                     (Some "rejected"))).

Definition video : string := "https://cdn.example.com/v.mp4".

Definition body (declared : Z) (sent : nat) : download_reply :=
  DownloadResponse 200 (Some declared) [repeat Byte.x00 sent] None.

(** One job, as [run_generation] creates it. *)
Definition table : list (option task) :=
  [Some (Task 0 "a cat" "pending" 0 0 "" "" None (clock 0) (clock 0) None)].

Definition run (E : env) (image_url : option string) : bool * state :=
  run_job E table 0 "a cat" image_url "16:9" 15.

(** Every submit is refused. *)
Definition all_refused : env :=
  Env (fun _ => true) clock (fun _ => refused) (fun _ => running 10)
      (fun _ => body 10 10).


(** The first poll answers "failed", the later ones "succeeded". *)
Definition fails_once : env :=
  Env (fun _ => true) clock (fun _ => accepted)
      (fun n => match n with O => failed 30 | _ => succeeded video end)
      (fun _ => body 10 10).


(** The download declares 1000 bytes and delivers 500. *)
Definition truncated : env :=
  Env (fun _ => true) clock (fun _ => accepted) (fun _ => succeeded video)
      (fun _ => body 1000 500).

(** The download declares 1000 bytes and delivers 1500. *)
Definition oversized : env :=
  Env (fun _ => true) clock (fun _ => accepted) (fun _ => succeeded video)
      (fun _ => body 1000 1500).

(** Everything succeeds at once. *)
Definition smooth : env :=
  Env (fun _ => true) clock (fun _ => accepted) (fun _ => succeeded video)
      (fun _ => body 10 10).

End Scenario.


(** The statuses and the edges of section 4.2 of the specification. *)
Definition spec_status (s : string) : bool :=
  existsb (String.eqb s) ["pending"; "generating"; "completed"; "failed"; "download_failed"].

Definition spec_edge (a b : string) : bool :=
  (a =? b) ||
  existsb (fun xy => (a =? xy.1) && (b =? xy.2))
    [("pending", "generating");
     ("generating", "completed"); ("generating", "failed");
     ("generating", "download_failed");
     ("failed", "pending"); ("download_failed", "pending")].

Definition statuses_of (idx : nat) (h : list event) : list string :=
  map (fun x => status x.2) (writes_of idx h).


(** RateLimiter: two threads that both enter before either records a grant. *)
Definition racing_schedule : list RateLimiter.action :=
  [RateLimiter.Run 0; RateLimiter.Run 0; RateLimiter.Run 1; RateLimiter.Run 1;
   RateLimiter.Run 0; RateLimiter.Run 1; RateLimiter.Run 0; RateLimiter.Run 1].

Definition two_threads : RateLimiter.config :=
  (RateLimiter.Shared 10 0 [], [RateLimiter.AtReadClock; RateLimiter.AtReadClock]).


(* ================================================================== *)
(** ** Budgets of calls                                                 *)
(* ================================================================== *)

(** [within c k m]: a run of [m] raises the counter [c] by at most [k]. *)
Definition within {A} (c : state -> nat) (k : nat) (m : M A) : Prop :=
  forall st, (c (m st).2 <= c st + k)%nat.

(** The calls one attempt may make, and the calls a whole job may make,
    weighted. *)
Definition attempt_budget (w_submit w_poll w_download : nat) : nat :=
  w_submit + max_poll_attempts * w_poll + w_download.

Definition loop_budget (w_submit w_poll w_download w_backoff fuel : nat) : nat :=
  fuel * attempt_budget w_submit w_poll w_download + (fuel - 1) * w_backoff.

Definition is_submit (e : event) : bool :=
  match e with EvSubmit _ => true | _ => false end.

Definition is_poll (e : event) : bool :=
  match e with EvPoll _ => true | _ => false end.

Definition is_download (e : event) : bool :=
  match e with EvDownload _ => true | _ => false end.

Definition is_backoff (e : event) : bool :=
  match e with EvSleep Backoff _ => true | _ => false end.

(** How many events of a kind a list holds. *)
Definition count_events (kind : event -> bool) (tr : list event) : nat :=
  length (List.filter kind tr).

(* ================================================================== *)
(** ** Waits, and what a run leaves alone                               *)
(* ================================================================== *)

(** The waits of [wait_time = 2 ** attempt] for the attempts [a], [a + 1],
    ..., [a + n - 1]. *)
Definition waits (a n : nat) : list Q :=
  List.map (fun k => inject_Z (2 ^ Z.of_nat k)) (seq a n).

(** The waits between the attempts of one job. *)
Definition backoff_schedule : list Q := waits 0 (max_retries - 1).

(** The backoff waits of a run do not change. *)
Definition same_backoffs (st st' : state) : Prop :=
  backoffs_of (trace st') = backoffs_of (trace st).

(** The run adds backoff waits that, in the order they are made, are
    picked from [ws] in order. *)
Definition adds_backoffs (ws : list Q) (st st' : state) : Prop :=
  exists l, backoffs_of (trace st') = (l ++ backoffs_of (trace st))%list /\
            sublist (List.rev l) ws.

(** Nothing a job can be seen by has changed. *)
Definition untouched (st st' : state) : Prop :=
  tasks st' = tasks st /\ files st' = files st /\ trace st' = trace st /\
  last_api_call_time st' = last_api_call_time st.

(** More services to run the model on. *)
Module Cases.

(** The stream of the download breaks after 4 of 10 bytes. *)
Definition broken_stream : env :=
  Env (fun _ => true) Scenario.clock (fun _ => Scenario.accepted)
      (fun _ => Scenario.succeeded Scenario.video)
      (fun _ => DownloadResponse 200 (Some 10%Z) [repeat Byte.x00 4] (Some ConnectionError)).

(** The process has been stopped. *)
Definition stopped : env :=
  Env (fun _ => false) Scenario.clock (fun _ => Scenario.accepted)
      (fun _ => Scenario.succeeded Scenario.video) (fun _ => Scenario.body 10 10).

(** The process is stopped after the second read of [is_running]. *)
Definition stops_early : env :=
  Env (fun n => (n <? 2)%nat) Scenario.clock (fun _ => Scenario.accepted)
      (fun _ => Scenario.succeeded Scenario.video) (fun _ => Scenario.body 10 10).

End Cases.

(* ================================================================== *)
(** ** Replies to a download                                            *)
(* ================================================================== *)

(** The bytes [download_video] writes: the chunks of the stream, in the
    order received. *)
Definition stream_body (chunks : list (list Byte.byte)) : list Byte.byte :=
  concat chunks.

(** The reply is a 200 whose stream ends normally with a body that is
    not empty and not shorter than a declared positive length. *)
Definition complete_reply (reply : download_reply) : bool :=
  match reply with
  | DownloadResponse status_code content_length chunks None =>
      (status_code =? 200)%Z &&
      (0 <? Z.of_nat (length (stream_body chunks)))%Z &&
      negb ((0 <? default 0%Z content_length)%Z &&
            (Z.of_nat (length (stream_body chunks)) <? default 0%Z content_length)%Z)
  | _ => false
  end.

(* ================================================================== *)
(** ** How a job ends                                                   *)
(* ================================================================== *)

(** The video of a record is on disk: the record names a path, and the
    file there is not empty. *)
Definition on_disk (st : state) (r : task) : Prop :=
  exists path body,
    download_path r = Some path /\ files st !! path = Some body /\ body <> [].

(** The record of a job that failed. *)
Definition failed_record (r : task) : Prop :=
  status r = "failed" \/ status r = "download_failed".

(** The job has come to an end: its record is completed with the video
    on disk, or failed, and [end_time] is set. *)
Definition settled (task_index : nat) (st : state) : Prop :=
  exists r, task_at task_index st = Some r /\ end_time r <> None /\
            (status r = "completed" /\ on_disk st r \/ failed_record r).

(** The record of the job is failed, with or without [end_time]. *)
Definition failed_at (task_index : nat) (st : state) : Prop :=
  exists r, task_at task_index st = Some r /\ failed_record r.

(** How an attempt can end while the process runs. *)
Definition attempt_outcome (task_index : nat) (fl : flow) (st : state) : Prop :=
  match fl with
  | Return b => b = true /\ settled task_index st /\
                exists r, task_at task_index st = Some r /\ status r = "completed"
  | Continue => failed_at task_index st /\ settled task_index st
  | Next => exists r, task_at task_index st = Some r /\ status r = "failed"
  end.

(** How the retry loop can end while the process runs. *)
Definition loop_outcome (task_index : nat) (res : option bool) (st : state) : Prop :=
  match res with
  | Some b => b = true /\ settled task_index st /\
              exists r, task_at task_index st = Some r /\ status r = "completed"
  | None => failed_at task_index st
  end.

(** The verdict of a job: what it answers, and the record it leaves. *)
Definition verdict (task_index : nat) (out : bool * state) : Prop :=
  exists r, task_at task_index out.2 = Some r /\ end_time r <> None /\
    (out.1 = true /\ status r = "completed" /\ on_disk out.2 r \/
     out.1 = false /\ failed_record r).

(* ================================================================== *)
(** ** One thread in [rate_limit_api_call]                              *)
(* ================================================================== *)

(** What holds of one thread that runs [rate_limit_api_call] with no
    other thread in between, started when the shared attribute was [L]
    and the grants were [G]. *)
Definition solo_inv (L : Q) (G : list Q) (c : RateLimiter.config) : Prop :=
  match c with
  | (s, [p]) =>
      match p with
      | RateLimiter.Done =>
          exists g, RateLimiter.grants s = g :: G /\
                    RateLimiter.last_api_call_time s = g /\
                    (L + 1 <= g)%Q /\ (g <= RateLimiter.now s)%Q
      | _ =>
          RateLimiter.last_api_call_time s = L /\ RateLimiter.grants s = G /\
          match p with
          | RateLimiter.AtReadClock => True
          | RateLimiter.AtReadLast current_time => (current_time <= RateLimiter.now s)%Q
          | RateLimiter.AtCheck t => (t + L <= RateLimiter.now s)%Q
          | RateLimiter.Sleeping wake => (L + 1 <= wake)%Q
          | RateLimiter.AtWrite => (L + 1 <= RateLimiter.now s)%Q
          | RateLimiter.Done => False
          end
      end
  | _ => False
  end.

(** The newest grant is not later than the shared attribute. *)
Definition recorded (s : RateLimiter.shared) : Prop :=
  match RateLimiter.grants s with
  | g :: _ => (g <= RateLimiter.last_api_call_time s)%Q
  | [] => True
  end.

(** One call that has to sleep: the clock is at 10, the last grant was
    at 10, and the clock advances by one second while the thread
    sleeps. *)
Definition solo_schedule : list RateLimiter.action :=
  [RateLimiter.Run 0; RateLimiter.Run 0; RateLimiter.Run 0; RateLimiter.Tick 1;
   RateLimiter.Run 0; RateLimiter.Run 0].

Definition one_thread : RateLimiter.config :=
  (RateLimiter.Shared 10 10 [10%Q], [RateLimiter.AtReadClock]).

(* ================================================================== *)
(** ** [display_progress] and [run_generation]: the counters            *)
(* ================================================================== *)

(** [task and task.get('status') in statuses] *)
Definition has_status (statuses : list string) (o : option task) : bool :=
  match o with
  | Some r => existsb (String.eqb (status r)) statuses
  | None => false
  end.

(** [sum(1 for task in tasks if task and task.get('status') in statuses)] *)
Definition count_status (statuses : list string) (ts : list (option task)) : nat :=
  length (List.filter (has_status statuses) ts).

(** The counters of the panel of [display_progress]. *)
Definition panel_completed (ts : list (option task)) : nat :=
  count_status ["completed"] ts.

Definition panel_failed (ts : list (option task)) : nat :=
  count_status ["failed"; "download_failed"] ts.

Definition panel_running (ts : list (option task)) : nat :=
  count_status ["generating"; "pending"] ts.

Definition panel_total (ts : list (option task)) : nat := length ts.

(** The test that ends the wait loop of [run_generation]. *)
Definition completed_count (ts : list (option task)) : nat :=
  count_status ["completed"; "failed"; "download_failed"] ts.

Definition all_done (ts : list (option task)) : bool :=
  (completed_count ts =? length ts)%nat.

(** The summary [run_generation] prints after the loop. *)
Definition success_count (ts : list (option task)) : nat :=
  count_status ["completed"] ts.

Definition failed_count (ts : list (option task)) : nat :=
  (length ts - success_count ts)%nat.

(** [min(max_workers, params['video_count'])] *)
Definition worker_count (video_count : nat) : nat := Nat.min max_workers video_count.

(** A slot of the table the panel puts in one of its three columns. *)
Definition in_a_column (o : option task) : bool :=
  has_status ["completed"; "failed"; "download_failed"; "generating"; "pending"] o.

(** The jobs of [order], one after the other, as one worker runs them. *)
Fixpoint run_jobs (E : env) (order : list nat) (prompt_ : string)
    (image_url : option string) (aspect_ratio : string) (duration : Z) : M unit :=
  match order with
  | [] => ret tt
  | i :: rest =>
      generate_video_task E i prompt_ image_url aspect_ratio duration ;;
      run_jobs E rest prompt_ image_url aspect_ratio duration
  end.

(** The state [run_generation] starts its workers in. *)
Definition generation_start (E : env) (video_count : nat) (prompt_ : string)
    (st : state) : state :=
  let out := fresh_tasks E 0 video_count prompt_ st in
  State out.1 (files out.2) (last_api_call_time out.2) (trace out.2)
        (n_running out.2) (n_clock out.2) (n_submit out.2) (n_poll out.2)
        (n_download out.2).

(** A table after its two jobs have ended. *)
Definition finished_table : list (option task) :=
  [Some (Task 0 "a cat" "completed" 100 0 "" "u" (Some "p") 0 0 (Some 1%Q));
   Some (Task 1 "a cat" "failed" 0 4 "e" "" None 0 0 (Some 1%Q))].

(* ================================================================== *)
(** ** Before the run: the key, the credits and the questions           *)
(* ================================================================== *)

(** [load_config], [validate_api_key], [get_credits],
    [check_model_status] and [get_user_input], on ASCII strings.  What
    they print is left out; what they read is given: the configuration
    file, the replies of the two status requests, and the lines typed
    at the prompts. *)
Module Startup.

(** [config.get('api_key')] for a configuration that is a JSON object. *)
Inductive key_field : Type :=
| KeyAbsent                 (* no such key, or null *)
| KeyText (s : string)
| KeyOther.                 (* a number, a list, ... *)

(** What [load_config] finds at [config.json]. *)
Inductive config_file : Type :=
| NoFile
| Unreadable                (* [open] or [read] raises *)
| NotJson                   (* [json.load] raises *)
| NotAnObject               (* [config.get] raises *)
| Config (k : key_field).

(** The body of a reply of [getCredits] or [getModelStatus]: the
    ["code"] and the field read under ["data"], when they are there. *)
Record status_body (A : Type) : Type := StatusBody {
  sb_code : option Z;
  sb_field : option A
}.
Arguments StatusBody {A} _ _.
Arguments sb_code {A} _.
Arguments sb_field {A} _.

Inductive status_reply (A : Type) : Type :=
| StatusRaises                                   (* timeout, connection error, ... *)
| StatusResponse (status_code : Z) (body : option (status_body A)).
                                                 (* [None]: the body is not JSON *)
Arguments StatusRaises {A}.
Arguments StatusResponse {A} _ _.

(** One call of [input()]. *)
Inductive input_event : Type :=
| Line (s : string)
| EOF                       (* [EOFError] *)
| Interrupt.                (* [KeyboardInterrupt] *)

(** The attributes of the application these functions use. *)
Record app : Type := App {
  api_key : option string;
  credits : Z;
  model_status : bool;
  config_written : bool     (* [create_sample_config] wrote [config.json] *)
}.

(** [VideoGeneratorApp.__init__] *)
Definition new_app : app := App None 0 false false.

(** [api_key.startswith("sk-")] *)
Definition starts_with_sk (s : string) : bool := String.prefix "sk-" s.

Definition validate_api_key (key : option string) (a : app) : (bool * string) * app :=
  match key with
  | None | Some EmptyString => ((false, "API密钥不能为空"), a)
  | Some s =>
      if negb (starts_with_sk s) then ((false, "API密钥格式错误，应以'sk-'开头"), a)
      else if (String.length s <? 10)%nat then
        ((false, "API密钥长度过短，请检查是否正确"), a)
      else
        ((true, "API密钥格式正确"),
         App (Some (Url.strip s)) (credits a) (model_status a) (config_written a))
  end.

Definition load_config (cfg : config_file) (a : app) : bool * app :=
  match cfg with
  | NoFile => (false, App (api_key a) (credits a) (model_status a) true)
  | Unreadable | NotJson | NotAnObject => (false, a)
  | Config KeyAbsent => (false, a)
  | Config KeyOther => (false, a)     (* falsy, or [startswith] raises *)
  | Config (KeyText s) =>
      match s with
      | EmptyString => (false, a)
      | _ =>
          let '((valid, _), a1) := validate_api_key (Some s) a in
          if negb valid then (false, a1)
          else (true, App (Some s) (credits a1) (model_status a1) (config_written a1))
      end
  end.

(** [not self.api_key] *)
Definition no_key (a : app) : bool :=
  match api_key a with
  | None | Some EmptyString => true
  | Some _ => false
  end.

(** The result, the application, and whether a request was sent. *)
Definition get_credits (reply : status_reply Z) (a : app) : bool * app * bool :=
  if no_key a then (false, a, false)
  else
    match reply with
    | StatusResponse status_code (Some (StatusBody (Some code) (Some c))) =>
        if (status_code =? 200)%Z && (code =? 0)%Z
        then (true, App (api_key a) c (model_status a) (config_written a), true)
        else (false, a, true)
    | _ => (false, a, true)           (* also when [data["data"]["credits"]] raises *)
    end.

Definition check_model_status (reply : status_reply bool) (a : app) : bool * app :=
  match reply with
  | StatusResponse status_code (Some (StatusBody (Some code) (Some s))) =>
      if (status_code =? 200)%Z && (code =? 0)%Z
      then (true, App (api_key a) (credits a) s (config_written a))
      else (false, a)
  | _ => (false, a)
  end.

(** The dictionary [get_user_input] returns. *)
Record params : Type := Params {
  video_count : Z;
  prompt : string;
  image_url : string;
  aspect_ratio : string;
  duration : Z
}.

(** How a question ends: with an answer and the lines not yet read, or
    with [return False]. *)
Inductive asked (A : Type) : Type :=
| Got (a : A) (rest : list input_event)
| Gave_up.
Arguments Got {A} _ _.
Arguments Gave_up {A}.

(** [s.lower()] *)
Fixpoint lower (s : string) : string :=
  match s with
  | EmptyString => EmptyString
  | String c s' => String (Url.to_lower c) (lower s')
  end.

Section Questions.

(** [int(count_input)]: [None] is [ValueError]. *)
Variable int : string -> option Z.

(** The [while True] loops of [get_user_input].  Each round reads one
    line; a list of lines that runs out ends the input. *)
Fixpoint ask_count (inputs : list input_event) : asked Z :=
  match inputs with
  | Line l :: rest =>
      let count_input := Url.strip l in
      match count_input with
      | EmptyString => Got 1%Z rest
      | _ =>
          match int count_input with
          | Some n =>
              if (1 <=? n)%Z && (n <=? Z.of_nat max_video_count)%Z then Got n rest
              else ask_count rest
          | None => ask_count rest
          end
      end
  | _ => Gave_up
  end.

Fixpoint ask_prompt (inputs : list input_event) : asked string :=
  match inputs with
  | Line l :: rest =>
      match Url.strip l with
      | EmptyString => ask_prompt rest
      | p => Got p rest
      end
  | _ => Gave_up
  end.

Fixpoint ask_image (inputs : list input_event) : asked string :=
  match inputs with
  | Line l :: rest =>
      let u := Url.strip l in
      if nonempty u && negb (Url.validate_url (Some u)) then ask_image rest
      else Got u rest
  | _ => Gave_up
  end.

Fixpoint ask_aspect (inputs : list input_event) : asked string :=
  match inputs with
  | Line l :: rest =>
      let aspect_input := Url.strip l in
      if negb (nonempty aspect_input) then Got "16:9" rest
      else if aspect_input =? "0" then Got "16:9" rest
      else if aspect_input =? "1" then Got "9:16" rest
      else ask_aspect rest
  | _ => Gave_up
  end.

Fixpoint ask_duration (inputs : list input_event) : asked Z :=
  match inputs with
  | Line l :: rest =>
      let duration_input := Url.strip l in
      if negb (nonempty duration_input) then Got 15%Z rest
      else if duration_input =? "0" then Got 10%Z rest
      else if duration_input =? "1" then Got 15%Z rest
      else ask_duration rest
  | _ => Gave_up
  end.

(** [confirm in ['y', 'yes']] *)
Definition confirmed (inputs : list input_event) : bool :=
  match inputs with
  | Line l :: _ =>
      let confirm := lower (Url.strip l) in
      (confirm =? "y") || (confirm =? "yes")
  | _ => false
  end.

(** The questions of [get_user_input], once the credits are known. *)
Definition ask_params (a : app) (inputs : list input_event) : option params :=
  match ask_count inputs with
  | Gave_up => None
  | Got video_count_ rest =>
      let required_credits := (video_count_ * 1600)%Z in
      if (credits a <? required_credits)%Z then None
      else
        match ask_prompt rest with
        | Gave_up => None
        | Got prompt_ rest =>
            match ask_image rest with
            | Gave_up => None
            | Got image_url_ rest =>
                match ask_aspect rest with
                | Gave_up => None
                | Got aspect_ratio_ rest =>
                    match ask_duration rest with
                    | Gave_up => None
                    | Got duration_ rest =>
                        if confirmed rest
                        then Some (Params video_count_ prompt_ image_url_
                                     aspect_ratio_ duration_)
                        else None
                    end
                end
            end
        end
  end.

Definition get_user_input (cfg : config_file) (credits_reply : status_reply Z)
    (model_reply : status_reply bool) (inputs : list input_event) (a : app)
  : option params * app :=
  let '(loaded, a1) := load_config cfg a in
  if negb loaded then (None, a1)
  else
    let '(ok, a2, _) := get_credits credits_reply a1 in
    if negb ok then (None, a2)
    else
      let '(_, a3) := check_model_status model_reply a2 in
      (ask_params a3 inputs, a3).

End Questions.

Definition is_line (e : input_event) : bool :=
  match e with Line _ => true | _ => false end.

(** A question read the lines [used], all of them lines and at least
    one, and left [rest]. *)
Definition reads (inputs used rest : list input_event) : Prop :=
  inputs = (used ++ rest)%list /\ used <> [] /\ Forall (fun e => is_line e = true) used.

(** A parser of plain decimal numbers, to run the questions with. *)
Definition decimal (s : string) : option Z :=
  match s with
  | EmptyString => None
  | _ => option_map Z.of_int (DecimalString.NilZero.int_of_string s)
  end.

(** A session: a key, 5000 credits, two videos of a cat. *)
Definition session : list input_event :=
  [Line "2"; Line "  a cat "; Line ""; Line "x"; Line "1"; Line "0"; Line " Y "].

Definition session_config : config_file := Config (KeyText "sk-0123456789").

Definition session_credits : status_reply Z :=
  StatusResponse 200 (Some (StatusBody (Some 0%Z) (Some 5000%Z))).

Definition session_model : status_reply bool := StatusRaises.

End Startup.
(** What [lstrip] returns is empty or starts with a character that is
    not white space. *)
Definition trimmed_left (s : string) : Prop :=
  match s with
  | EmptyString => True
  | String c _ => Url.is_space c = false
  end.

(* ================================================================== *)
(** ** The shape of the URLs [validate_url] accepts                     *)
(* ================================================================== *)

(** Every character class of the expression accepts only characters
    that satisfy [P]. *)
Fixpoint classes (P : ascii -> bool) (r : Url.regex) : Prop :=
  match r with
  | Url.Void | Url.Eps => True
  | Url.Class p => forall c, p c = true -> P c = true
  | Url.Cat r1 r2 | Url.Alt r1 r2 => classes P r1 /\ classes P r2
  | Url.Star r1 => classes P r1
  end.

Fixpoint all_chars (P : ascii -> bool) (s : string) : bool :=
  match s with
  | EmptyString => true
  | String c s' => P c && all_chars P s'
  end.

Definition not_space (c : ascii) : bool := negb (Url.is_space c).

(** The string is an ASCII string.  On such strings the classes of
    [Url.url_pattern] and the white space of [Url.strip] are those of
    Python's [re] and [str.strip]; beyond ASCII Python's also fold
    U+017F to "s" and U+212A to "k" under [re.IGNORECASE], count other
    decimal digits for [\d] and take U+0085 and U+00A0 for white
    space. *)
Definition is_ascii (s : string) : bool :=
  all_chars (fun c => (Url.code c <? 128)%nat) s.

(** No white space anywhere in the string. *)
Definition no_space (s : string) : bool := all_chars not_space s.

Definition newline : string := String "010" "".

(** The string is "http://" or "https://", in any case, followed by
    something. *)
Definition has_scheme (s : string) : Prop :=
  exists scheme rest,
    s = scheme ++ rest /\ rest <> "" /\
    (Startup.lower scheme = "http://" \/ Startup.lower scheme = "https://").

(* ================================================================== *)
(** ** The requests of a job                                            *)
(* ================================================================== *)

(** The submit calls of a run do not change. *)
Definition same_submits (st st' : state) : Prop :=
  submits_of (trace st') = submits_of (trace st).

(** The run adds at most [n] submit calls, each with the payload [p]. *)
Definition resends (p : payload) (n : nat) (st st' : state) : Prop :=
  exists k, (k <= n)%nat /\
            submits_of (trace st') = (repeat p k ++ submits_of (trace st))%list.

(** The slot of the job holds a record the wait loop of
    [run_generation] counts as done. *)
Definition counts_as_done (task_index : nat) (st : state) : bool :=
  has_status ["completed"; "failed"; "download_failed"]
    (default None (tasks st !! task_index)).

(* ================================================================== *)
(** * Proofs                                                            *)
(* ================================================================== *)

(** ** The write log of a job is a chain                                *)

Create HintDb keeps.
Section JobLog.

Variable E : env.
Variable image_url : option string.
Variable idx : nat.

Local Abbreviation wlog := (job_log idx).
Local Abbreviation At := (At E image_url idx).
Local Abbreviation keeps := (keeps idx).
Local Abbreviation chain := (chain E image_url).
Local Abbreviation step_ok := (step_ok E image_url).

Lemma wp_ret {A} (a : A) Q st : Q a st -> wp (ret a) Q st.
Proof. exact (fun H => H). Qed.

Lemma wp_bind {A B} (m : M A) (f : A -> M B) Q st :
  wp m (fun a st' => wp (f a) Q st') st -> wp (bind m f) Q st.
Proof. unfold wp, bind. destruct (m st) as [a st']. exact (fun H => H). Qed.

Lemma keeps_ret {A} (a : A) : keeps (ret a).
Proof. intros st. split; reflexivity. Qed.

Lemma keeps_bind {A B} (m : M A) (f : A -> M B) :
  keeps m -> (forall a, keeps (f a)) -> keeps (bind m f).
Proof.
  intros Hm Hf st. unfold bind. specialize (Hm st).
  destruct (m st) as [a st']. specialize (Hf a st'). simpl in *.
  destruct Hf as [H1 H2]. rewrite H1, H2. exact Hm.
Qed.

Lemma keeps_time : keeps (time_time E).
Proof. intros st. split; reflexivity. Qed.
Lemma keeps_running : keeps (read_is_running E).
Proof. intros st. split; reflexivity. Qed.
Lemma keeps_get : keeps get.
Proof. intros st. split; reflexivity. Qed.
Lemma keeps_sleep why d : keeps (time_sleep why d).
Proof. intros st. split; reflexivity. Qed.
Lemma keeps_set_last t : keeps (set_last_api_call_time t).
Proof. intros st. split; reflexivity. Qed.
Lemma keeps_set_files fs : keeps (set_files fs).
Proof. intros st. split; reflexivity. Qed.
Lemma keeps_submit p : keeps (post_sora_video E p).
Proof. intros st. split; reflexivity. Qed.
Lemma keeps_poll i : keeps (post_draw_result E i).
Proof. intros st. split; reflexivity. Qed.
Lemma keeps_get_video u : keeps (get_video E u).
Proof. intros st. split; reflexivity. Qed.
Lemma keeps_lookup i : keeps (lookup_task i).
Proof. intros st. split; reflexivity. Qed.

Hint Resolve keeps_ret keeps_time keeps_running keeps_get keeps_sleep keeps_set_last
  keeps_set_files keeps_submit keeps_poll keeps_get_video keeps_lookup : keeps.

Ltac keeps_tac :=
  repeat first
    [ apply keeps_bind; [ | intros ? ]
    | progress auto with keeps
    | match goal with
      | |- keeps (if ?b then _ else _) => destruct b
      | |- keeps (match ?x with _ => _ end) => destruct x
      | |- keeps (let '(_, _) := ?x in _) => destruct x
      end ].

Lemma keeps_rate_limit : keeps (rate_limit_api_call E).
Proof. unfold rate_limit_api_call. keeps_tac. Qed.

Lemma keeps_download u f d : keeps (download_video E u f d).
Proof. unfold download_video. keeps_tac. Qed.

Lemma At_keeps {A} (m : M A) phi st : keeps m -> At phi st -> At phi (m st).2.
Proof.
  intros Hk (w & r & l & Ht & Hl & Hc & Hp). destruct (Hk st) as [Hts Hw].
  exists w, r, l. unfold task_at in *. rewrite Hts, Hw. auto.
Qed.

Lemma wp_keeps {A} (m : M A) phi (Q : A -> state -> Prop) st :
  keeps m -> At phi st -> (forall a st', At phi st' -> Q a st') -> wp m Q st.
Proof. intros Hk Ha HQ. apply HQ. apply At_keeps; assumption. Qed.

Lemma task_at_lookup st r : task_at idx st = Some r -> tasks st !! idx = Some (Some r).
Proof.
  unfold task_at. destruct (tasks st !! idx) as [[r'|]|]; intros H; inversion H; reflexivity.
Qed.

Lemma store_At w' r' phi psi st :
  At phi st ->
  (forall w r, phi w r -> task_at idx st = Some r -> step_ok w r w' r' /\ psi w' r') ->
  At psi (store w' idx r' st).2.
Proof.
  intros (w & r & l & Ht & Hl & Hc & Hp) H.
  destruct (H w r Hp Ht) as [Hs Hpsi].
  exists w', r', ((w, r) :: l). repeat split.
  - unfold task_at. simpl. apply task_at_lookup in Ht.
    rewrite list_lookup_insert_eq; [reflexivity|]. eapply lookup_lt_Some; eassumption.
  - unfold job_log in *. simpl. rewrite Nat.eqb_refl. simpl. rewrite Hl. reflexivity.
  - exact Hs.
  - exact Hc.
  - exact Hpsi.
Qed.

Lemma wp_update w' f phi psi (Q : unit -> state -> Prop) st :
  At phi st ->
  (forall w r now, phi w r -> step_ok w r w' (f now r) /\ psi w' (f now r)) ->
  (forall st', At psi st' -> Q tt st') ->
  wp (locked_update E w' idx f) Q st.
Proof.
  intros Ha Hstep HQ. unfold wp, locked_update, bind, lookup_task.
  destruct Ha as (w & r & l & Ht & Hl & Hc & Hp). rewrite Ht.
  destruct (time_time E st) as [now st1] eqn:Ht1.
  assert (Ha1 : At phi st1).
  { replace st1 with (time_time E st).2 by (rewrite Ht1; reflexivity).
    apply At_keeps; [apply keeps_time|]. exists w, r, l; auto. }
  assert (Ht' : task_at idx st1 = Some r).
  { replace st1 with (time_time E st).2 by (rewrite Ht1; reflexivity). exact Ht. }
  destruct (store w' idx (f now r) st1) as [[] st2] eqn:Hs.
  simpl. apply HQ.
  replace st2 with (store w' idx (f now r) st1).2 by (rewrite Hs; reflexivity).
  eapply store_At; [exact Ha1|]. intros w0 r0 Hp0 Ht0.
  rewrite Ht' in Ht0. inversion Ht0; subst r0. apply Hstep. exact Hp0.
Qed.

Lemma wp_lookup phi (Q : option task -> state -> Prop) st :
  At phi st ->
  (forall r, At (fun w' r' => phi w' r' /\ r' = r) st -> Q (Some r) st) ->
  wp (lookup_task idx) Q st.
Proof.
  intros (w & r & l & Ht & Hl & Hc & Hp) HQ. unfold wp, lookup_task. simpl.
  rewrite Ht. apply HQ. exists w, r, l. auto.
Qed.

Lemma wp_status phi (Q : string -> state -> Prop) st :
  At phi st ->
  (forall s, At (fun w' r' => phi w' r' /\ status r' = s) st -> Q s st) ->
  wp (current_status idx) Q st.
Proof.
  intros (w & r & l & Ht & Hl & Hc & Hp) HQ. unfold wp, current_status, bind, lookup_task, ret.
  simpl. rewrite Ht. apply HQ. exists w, r, l. auto.
Qed.

Lemma wp_poll_reply phi i (Q : poll_reply -> state -> Prop) st :
  At phi st ->
  (forall n st', At phi st' -> Q (poll_response E n) st') ->
  wp (post_draw_result E i) Q st.
Proof.
  intros Ha HQ. unfold wp. apply HQ. apply At_keeps; [apply keeps_poll|exact Ha].
Qed.

Lemma At_weaken (phi psi : site -> task -> Prop) st :
  At phi st -> (forall w r, phi w r -> psi w r) -> At psi st.
Proof. intros (w & r & l & Ht & Hl & Hc & Hp) H. exists w, r, l. auto. Qed.


Ltac wp_keep_as H a :=
  eapply wp_keeps; [ solve [ auto using keeps_rate_limit, keeps_download with keeps ]
                   | exact H | clear H; intros a ? H ].
Ltac wp_keep H := let a := fresh "a" in wp_keep_as H a.

Lemma eqb_running_status s :
  s <> "failed" -> (if s =? "running" then "generating" else s) <> "failed".
Proof. intros H. destruct (String.eqb_spec s "running"); [discriminate|exact H]. Qed.

Lemma poll_rounds_At i n : forall st,
  At in_poll st -> wp (poll_rounds E n idx i) (fun _ st' => At any st') st.
Proof.
  induction n as [|n IH]; intros st H; simpl.
  - eapply wp_update; [exact H | | intros st' H'; exact H'].
    intros w r now [Hw Hs]. split; [constructor; assumption | exact I].
  - apply wp_bind. wp_keep_as H running. destruct running; simpl; [|apply wp_ret; eapply At_weaken; [exact H|]; intros; exact I].
    apply wp_bind. wp_keep H.
    apply wp_bind. eapply wp_poll_reply; [exact H|]. clear H. intros k st2 H.
    destruct (poll_response E k) as [e|code body] eqn:Hresp.
    + apply wp_bind. eapply wp_update; [exact H| |clear H; intros ? H].
      { intros w r now [Hw Hs]. split; [constructor; assumption|].
        instantiate (1 := in_poll). split; [right; right; reflexivity | exact Hs]. }
      apply wp_bind. wp_keep H. apply IH. exact H.
    + destruct (Z.eqb_spec code 200) as [->|Hne].
      2:{ apply wp_bind. wp_keep H. apply IH. exact H. }
      destruct body as [d|msg].
      2:{ apply wp_bind. eapply wp_update; [exact H| |clear H; intros ? H].
          { intros w r now [Hw Hs]. split; [constructor; assumption|].
            instantiate (1 := in_poll). split; [right; right; reflexivity | exact Hs]. }
          apply wp_bind. wp_keep H. apply IH. exact H. }
      apply wp_bind. eapply wp_update; [exact H| |clear H; intros ? H].
      { intros w r now [Hw Hs]. split; [econstructor; eassumption|].
        instantiate (1 := fun w' r' => w' = WPollStatus /\
          status r' = (if default "" (pd_status d) =? "running" then "generating"
                       else default "" (pd_status d))).
        split; reflexivity. }
      destruct (String.eqb_spec (default "" (pd_status d)) "succeeded") as [Hsucc|Hnsucc].
      * rewrite Hsucc in H. simpl in H.
        match goal with |- wp (if ?b then _ else _) _ _ => destruct b end.
        -- apply wp_bind. wp_keep H. apply wp_bind. wp_keep_as H res.
           destruct res as [success result]. destruct success.
           ++ eapply wp_update; [exact H| |clear H; intros ? H; exact H].
              intros w r now [-> Hs]. split; [constructor; assumption|exact I].
           ++ eapply wp_update; [exact H| |clear H; intros ? H; exact H].
              intros w r now [-> Hs]. split; [constructor; assumption|exact I].
        -- apply wp_bind. wp_keep H. apply IH. eapply At_weaken; [exact H|].
           intros w r [-> Hs]. split; [right; left; reflexivity|]. rewrite Hs. discriminate.
      * destruct (String.eqb_spec (default "" (pd_status d)) "failed") as [Hf|Hnf].
        -- rewrite Hf in H. simpl in H.
           eapply wp_update; [exact H| |clear H; intros ? H; exact H].
           intros w r now [-> Hs]. split; [constructor; assumption|exact I].
        -- apply wp_bind. wp_keep H. apply IH. eapply At_weaken; [exact H|].
           intros w r [-> Hs]. split; [right; left; reflexivity|]. rewrite Hs.
           apply eqb_running_status. exact Hnf.
Qed.

Lemma wp_conseq {A} (m : M A) (Q Q' : A -> state -> Prop) st :
  wp m Q' st -> (forall a st', Q' a st' -> Q a st') -> wp m Q st.
Proof. unfold wp. intros H HQ. apply HQ. exact H. Qed.

Lemma poll_for_result_At i st :
  At in_poll st -> wp (poll_for_result E idx i) (fun _ st' => At any st') st.
Proof. apply poll_rounds_At. Qed.




Lemma submit_failed_At a msg st :
  At (started a) st ->
  wp (submit_failed E idx msg) (fun _ st' => At (after_attempt a Next) st') st.
Proof.
  intros H. unfold submit_failed.
  eapply wp_update; [exact H | | intros st' H'; exact H'].
  intros w r now (-> & Hs & Hr). split; [constructor; assumption|].
  simpl. auto.
Qed.

Ltac fail_branch H :=
  apply wp_bind; eapply wp_conseq; [ apply submit_failed_At; exact H | ];
  clear H; intros ? ? H; apply wp_ret; exact H.

Lemma attempt_body_At p a st :
  (a < max_retries)%nat ->
  At not_completed st ->
  wp (attempt_body E idx p a) (fun fl st' => At (after_attempt a fl) st') st.
Proof.
  intros Ha H. unfold attempt_body.
  apply wp_bind. eapply wp_update; [exact H| |clear H; intros ? H].
  { intros w r now Hs. split; [constructor; assumption|].
    instantiate (1 := started a). repeat split. }
  apply wp_bind. wp_keep H.
  apply wp_bind. wp_keep_as H response. unfold handle_response.
  destruct response as [e|code text json].
  { fail_branch H. }
  destruct (code =? 200)%Z; [|fail_branch H].
  destruct json as [data|m]; [|fail_branch H].
  destruct (code_is_zero data); [|fail_branch H].
  destruct (sj_id data) as [api_task_id|m]; [|fail_branch H].
  apply wp_bind. eapply wp_conseq.
  { apply poll_for_result_At. eapply At_weaken; [exact H|].
    intros w r (-> & Hs & _). split; [left; reflexivity|]. rewrite Hs. discriminate. }
  clear H. intros ? st2 H.
  apply wp_bind. eapply wp_status; [exact H|]. clear H. intros s H.
  destruct (String.eqb_spec s "completed") as [->|Hne]; apply wp_ret; simpl.
  - eapply At_weaken; [exact H|]. intros; exact I.
  - eapply At_weaken; [exact H|]. intros w r [_ Hs]. unfold not_completed. congruence.
Qed.

Ltac done_any H :=
  cbv beta iota; apply wp_ret; cbv beta; eapply At_weaken; [exact H | intros; exact I].

Lemma max_retries_eq : max_retries = 5%nat.
Proof. reflexivity. Qed.

Lemma retry_loop_At p fuel : forall a st,
  (fuel + a <= max_retries)%nat ->
  At not_completed st ->
  wp (retry_loop E fuel a idx p) (fun _ st' => At any st') st.
Proof.
  induction fuel as [|fuel IH]; intros a st Hle H; simpl.
  - done_any H.
  - apply wp_bind. wp_keep_as H running.
    destruct running; simpl;
      [|done_any H].
    apply wp_bind. eapply wp_conseq; [apply attempt_body_At; [lia|exact H]|].
    clear H. intros fl st1 H. destruct fl as [b| |]; simpl in H.
    + apply wp_ret. exact H.
    + apply IH; [lia|exact H].
    + unfold retry_decision. cbn [max_retries Nat.sub].
      destruct (Nat.ltb_spec a 4) as [Hlt|Hge]; [|done_any H].
      cbv beta iota.
      apply wp_bind. eapply wp_status; [exact H|]. clear H. intros s H.
      destruct (String.eqb_spec s "failed") as [->|Hne];
        [|done_any H].
      cbv beta iota. apply wp_bind. wp_keep_as H running'.
      destruct running';
        [|done_any H].
      apply wp_bind. wp_keep H.
      apply wp_bind. eapply wp_update; [exact H| |clear H; intros ? H].
      { intros w r now [(-> & Hr & Hs) _]. split.
        - constructor; [exact Hs|]. rewrite Hr. unfold max_retries. lia.
        - instantiate (1 := not_completed). unfold not_completed. simpl. discriminate. }
      apply IH; [lia|exact H].
Qed.

Lemma finish_At st :
  At any st -> wp (finish E idx) (fun _ st' => At any st') st.
Proof.
  intros H. unfold finish.
  apply wp_bind. eapply wp_status; [exact H|]. clear H. intros s H.
  apply wp_bind. eapply wp_lookup; [exact H|]. clear H. intros r H.
  apply wp_bind.
  assert (Hgoal : wp (if end_time_unset r
                      then bind (time_time E) (fun now => store WFinal idx (upd_final now r))
                      else ret tt) (fun _ st' => At any st') st).
  { destruct (end_time_unset r) eqn:Hu.
    - apply wp_bind. wp_keep_as H now. unfold wp.
      eapply store_At; [exact H|]. intros w r0 [_ ->] _. split; [constructor; exact Hu|exact I].
    - done_any H. }
  eapply wp_conseq; [exact Hgoal|]. intros [] st' H'. apply wp_ret. exact H'.
Qed.

Lemma run_attempts_At p st :
  At not_completed st -> wp (run_attempts E idx p) (fun _ st' => At any st') st.
Proof.
  intros H. unfold run_attempts. apply wp_bind.
  eapply wp_conseq; [apply retry_loop_At; [lia|exact H]|].
  clear H. intros res st' H. destruct res as [b|].
  - apply wp_ret. exact H.
  - apply finish_At. exact H.
Qed.

Lemma init_task_At prompt_ st :
  (idx < length (tasks st))%nat ->
  wlog st = [] ->
  At (fun w r => w = WInit /\ status r = "pending") (init_task E idx prompt_ st).2.
Proof.
  intros Hlt Hw. unfold init_task, bind, lookup_task, time_time, store. simpl.
  exists WInit, (upd_init idx prompt_ (clock E (n_clock st)) (clock E (S (n_clock st)))
                 (task_at idx st)), [].
  assert (Hf : fresh (upd_init idx prompt_ (clock E (n_clock st))
                        (clock E (S (n_clock st))) (task_at idx st))).
  { destruct (task_at idx st); repeat split. }
  split; [|split; [|split]].
  - unfold task_at. simpl. rewrite list_lookup_insert_eq; [reflexivity|exact Hlt].
  - unfold job_log in *. simpl. rewrite Nat.eqb_refl, Hw. reflexivity.
  - split; [reflexivity|exact Hf].
  - split; [reflexivity|apply Hf].
Qed.

Lemma At_chain phi st : At phi st -> chain (wlog st).
Proof. intros (w & r & l & _ & -> & Hc & _). exact Hc. Qed.

Lemma generate_video_task_chain prompt_ aspect_ratio duration st :
  wlog st = [] ->
  chain (wlog (generate_video_task E idx prompt_ image_url aspect_ratio duration st).2).
Proof.
  intros Hw. unfold generate_video_task.
  change (wp (A := bool)
    (bind (read_is_running E) (fun running =>
       if negb running then ret false
       else bind get (fun st0 =>
         if (length (tasks st0) <=? idx)%nat then ret false
         else bind (init_task E idx prompt_) (fun _ =>
           if image_given image_url then
             if Url.validate_url (Some (Url.strip (default "" image_url)))
             then run_attempts E idx
                    (with_url (base_payload prompt_ aspect_ratio duration)
                       (Url.strip (default "" image_url)))
             else bind (locked_update E WInvalidUrl idx upd_invalid_url)
                       (fun _ => ret false)
           else run_attempts E idx (base_payload prompt_ aspect_ratio duration)))))
    (fun _ st' => chain (wlog st')) st).
  pose proof (eq_refl (image_given image_url)) as Hgiven.
  pose proof (eq_refl (Url.validate_url (Some (Url.strip (default "" image_url)))))
    as Hvalid.
  revert Hgiven Hvalid.
  generalize (Url.validate_url (Some (Url.strip (default "" image_url)))) at 2 3.
  generalize (image_given image_url) at 2 3. intros given valid Hgiven Hvalid.
  apply wp_bind. unfold wp at 1. simpl.
  destruct (is_running E (n_running st)); simpl;
    [|unfold wp, job_log in *; simpl; rewrite Hw; exact I].
  apply wp_bind. unfold wp at 1. simpl.
  destruct (Nat.leb_spec (length (tasks st)) idx) as [Hge|Hlt];
    [unfold wp, job_log in *; simpl; rewrite Hw; exact I|].
  apply wp_bind.
  match goal with |- wp _ _ ?s => set (st1 := s) end.
  assert (H : At (fun w r => w = WInit /\ status r = "pending")
                 (init_task E idx prompt_ st1).2).
  { apply init_task_At; [exact Hlt | exact Hw]. }
  unfold wp at 1. revert H. generalize (init_task E idx prompt_ st1).2.
  generalize (init_task E idx prompt_ st1).1. intros _ st2 H. cbv zeta.
  assert (Hnc : At not_completed st2).
  { eapply At_weaken; [exact H|]. intros w r [_ Hs]. unfold not_completed.
    rewrite Hs. discriminate. }
  destruct given.
  - destruct valid.
    + eapply wp_conseq; [apply run_attempts_At; exact Hnc|].
      intros b st' H'. eapply At_chain; exact H'.
    + apply wp_bind. eapply wp_update; [exact H| |intros st' H'].
      { intros w r now [-> Hs]. split; [constructor; auto|].
        instantiate (1 := any). exact I. }
      apply wp_ret. eapply At_chain; exact H'.
  - eapply wp_conseq; [apply run_attempts_At; exact Hnc|].
    intros b st' H'. eapply At_chain; exact H'.
Qed.
End JobLog.

(** ** Consequences of the chain                                        *)

Lemma writes_of_rev idx tr : writes_of idx (List.rev tr) = List.rev (writes_of idx tr).
Proof.
  unfold writes_of. induction tr as [|e tr IH]; [reflexivity|].
  simpl List.rev. rewrite omap_app, IH. simpl.
  destruct e as [w i r| | | |]; simpl; try (rewrite app_nil_r; reflexivity).
  destruct (i =? idx)%nat; simpl; [reflexivity|rewrite app_nil_r; reflexivity].
Qed.

Lemma run_job_chain E ts idx prompt_ image_url aspect_ratio duration :
  chain E image_url
    (writes_of idx (trace (run_job E ts idx prompt_ image_url aspect_ratio duration).2)).
Proof. apply generate_video_task_chain. reflexivity. Qed.

Section ChainFacts.
Variable E : env.
Variable image_url : option string.

Lemma chain_Forall (P : site -> task -> Prop) :
  (forall r, fresh r -> P WInit r) ->
  (forall w1 r1 w2 r2, step_ok E image_url w1 r1 w2 r2 -> P w1 r1 -> P w2 r2) ->
  forall ws, chain E image_url ws -> Forall (fun x => P x.1 x.2) ws.
Proof.
  intros H0 HS. induction ws as [|[w2 r2] ws IH]; intros Hc; [constructor|].
  destruct ws as [|[w1 r1] ws].
  - destruct Hc as [-> Hf]. constructor; [apply H0; exact Hf|constructor].
  - destruct Hc as [Hs Hc]. specialize (IH Hc). constructor; [|exact IH].
    inversion IH; subst. eapply HS; eassumption.
Qed.

Lemma chain_tail x ws : chain E image_url (x :: ws) -> chain E image_url ws.
Proof.
  destruct x as [w r]. destruct ws as [|[w1 r1] ws]; simpl; [intros; exact I|].
  intros [_ H]. exact H.
Qed.

Lemma chain_adjacent ws :
  chain E image_url ws ->
  adjacent (fun a b => step_ok E image_url a.1 a.2 b.1 b.2) (List.rev ws).
Proof.
  induction ws as [|[w2 r2] ws IH]; intros Hc i a b Ha Hb.
  - destruct i; discriminate.
  - simpl in Ha, Hb. pose proof (chain_tail _ _ Hc) as Hc'.
    destruct (decide (S i < length (List.rev ws))%nat) as [Hlt|Hge].
    + rewrite lookup_app_l in Ha by lia. rewrite lookup_app_l in Hb by lia.
      eapply IH; eassumption.
    + assert (Hi : S i = length (List.rev ws)).
      { apply lookup_lt_Some in Hb. rewrite length_app in Hb. simpl in Hb. lia. }
      rewrite lookup_app_r in Hb by lia. rewrite Hi, Nat.sub_diag in Hb.
      inversion Hb; subst b. clear Hb.
      rewrite lookup_app_l in Ha by lia.
      destruct ws as [|[w1 r1] ws]; [simpl in Hi; discriminate|].
      simpl in Ha, Hi. rewrite length_app in Hi. simpl in Hi.
      rewrite lookup_app_r in Ha by lia.
      replace (i - length (List.rev ws))%nat with 0%nat in Ha by lia.
      inversion Ha; subst a. simpl. apply Hc.
Qed.

End ChainFacts.

(** Claim C9.  Whatever the service answers, every state the record of
    a job takes from its initialisation on has
    [0 <= retry_count < max_retries]: the field is 0 after the
    initialisation and only the start of attempt [a < max_retries]
    changes it, to [a]. *)
Theorem retry_count_below_max E ts idx prompt_ image_url aspect_ratio duration :
  Forall (fun x => (retry_count x.2 < max_retries)%nat)
    (writes_of idx (history (run_job E ts idx prompt_ image_url aspect_ratio duration).2)).
Proof.
  unfold history. rewrite writes_of_rev. apply Forall_rev.
  apply (chain_Forall E image_url (fun _ r => (retry_count r < max_retries)%nat)).
  - intros r (_ & _ & -> & _). unfold max_retries. lia.
  - intros w1 r1 w2 r2 Hs H1. inversion Hs; subst; simpl; assumption.
  - apply run_job_chain.
Qed.


Ltac upd_simpl :=
  cbn [status progress retry_count error end_time fst snd
       upd_invalid_url upd_attempt_start upd_submit_failed upd_backoff_reset
       upd_poll_status upd_completed upd_download_failed upd_remote_failed
       upd_poll_error upd_poll_timeout upd_final
       set_status set_progress set_retry_count set_error set_video_url
       set_download_path set_start_time set_last_update set_end_time] in *.

Lemma polled_status s :
  s = Some "running" \/ s = Some "succeeded" \/ s = Some "failed" ->
  let s' := if default "" s =? "running" then "generating" else default "" s in
  s' = "generating" \/ s' = "succeeded" \/ s' = "failed".
Proof. intros [-> | [-> | ->]]; simpl; auto. Qed.

Lemma known_status_cases s :
  known_status s = true ->
  s = "pending" \/ s = "generating" \/ s = "succeeded" \/ s = "completed" \/
  s = "failed" \/ s = "download_failed".
Proof.
  unfold known_status. simpl. rewrite !orb_true_iff, !String.eqb_eq.
  intuition (try discriminate).
Qed.

Lemma allowed_edge_refl s : allowed_edge s s = true.
Proof. unfold allowed_edge. rewrite String.eqb_refl. reflexivity. Qed.

Ltac use_status := match goal with H : status _ = _ |- _ => rewrite H end.

Ltac edge_done := split; [ reflexivity | intros; try discriminate; try congruence ].

(** The statuses the code writes.  When the poll replies carry only
    the statuses "running", "succeeded" and "failed", every status of
    the record is one of the five of the enumeration or the remote
    "succeeded", consecutive statuses follow [allowed_edge], and
    "failed" is followed by "pending" only while
    [retry_count + 1 < max_retries]. *)
Theorem status_edges E ts idx prompt_ image_url aspect_ratio duration :
  remote_statuses_known E ->
  let ws := writes_of idx
              (history (run_job E ts idx prompt_ image_url aspect_ratio duration).2) in
  Forall (fun x => known_status (status x.2) = true) ws /\
  adjacent status_step ws.
Proof.
  intros Hremote. cbv zeta. unfold history. rewrite writes_of_rev.
  pose proof (run_job_chain E ts idx prompt_ image_url aspect_ratio duration) as Hc.
  set (P := fun (w : site) (r : task) =>
              known_status (status r) = true /\
              (polling w -> status r = "generating" \/ status r = "succeeded" \/
                            status r = "failed")).
  assert (HP : Forall (fun x => P x.1 x.2)
                 (writes_of idx (trace (run_job E ts idx prompt_ image_url
                                          aspect_ratio duration).2))).
  { apply (chain_Forall E image_url P); [| |exact Hc].
    - intros r (Hs & _). split; [rewrite Hs; reflexivity|].
      intros [H|[H|H]]; discriminate.
    - intros w1 r1 w2 r2 Hs [Hk Hp].
      inversion Hs; subst; split; upd_simpl;
        try reflexivity; try exact Hk;
        try (intros [Hx|[Hx|Hx]]; discriminate Hx); auto.
      + pose proof (polled_status _ (Hremote _ _ H1)) as Hst. cbv zeta in Hst.
        destruct Hst as [Hst | [Hst | Hst]]; rewrite Hst; reflexivity.
      + intros _. exact (polled_status _ (Hremote _ _ H1)). }
  split.
  - apply Forall_rev. eapply Forall_impl; [exact HP|]. intros [w r] [Hk _]. exact Hk.
  - intros i a b Ha Hb. pose proof (chain_adjacent _ _ _ Hc i a b Ha Hb) as Hs.
    assert (HPa : P a.1 a.2).
    { apply Forall_rev in HP. rewrite Forall_forall in HP. apply HP.
      eapply list_elem_of_lookup_2. exact Ha. }
    destruct a as [w1 r1], b as [w2 r2]. simpl in Hs, HPa. destruct HPa as [Hk Hp].
    unfold status_step.
    inversion Hs; subst; upd_simpl.
    + use_status. edge_done.
    + destruct (known_status_cases _ Hk) as [Hx|[Hx|[Hx|[Hx|[Hx|Hx]]]]];
        try contradiction; rewrite Hx; edge_done.
    + use_status. edge_done.
    + use_status. split; [reflexivity|intros; assumption].
    + match goal with H : poll_response _ _ = _ |- _ =>
        pose proof (polled_status _ (Hremote _ _ H)) as Hst end.
      cbv zeta in Hst.
      match goal with H : polling _ |- _ => destruct (Hp H) as [Hx|[Hx|Hx]] end;
        try contradiction;
        destruct Hst as [Hst | [Hst | Hst]]; rewrite Hx, Hst; edge_done.
    + split; [apply allowed_edge_refl|intros; congruence].
    + match goal with H : polling _ |- _ => destruct (Hp H) as [Hx|[Hx|Hx]] end;
        try contradiction; rewrite Hx; edge_done.
    + use_status. edge_done.
    + use_status. edge_done.
    + use_status. edge_done.
    + split; [apply allowed_edge_refl|intros; congruence].
Qed.

(** ** A job whose every submit is refused                              *)

Section Scenario.
Variable E : env.
Variable idx : nat.

Lemma rate_limit_eq st :
  rate_limit_api_call E st =
  (tt, State (tasks st) (files st) (clock E (S (n_clock st)))
             (rate_events E st ++ trace st)
             (n_running st) (S (S (n_clock st))) (n_submit st) (n_poll st)
             (n_download st)).
Proof.
  unfold rate_limit_api_call, rate_events, bind, time_time, get, time_sleep, emit, ret,
    set_last_api_call_time. simpl.
  destruct (Qlt_le_dec _ 1); reflexivity.
Qed.

Lemma digests_cons e tr :
  digests (e :: tr) =
  match digest_of e with Some d => d :: digests tr | None => digests tr end.
Proof. reflexivity. Qed.

Lemma digests_rate st tr : digests (rate_events E st ++ tr) = digests tr.
Proof. unfold rate_events. destruct (Qlt_le_dec _ 1); reflexivity. Qed.

Lemma locked_update_eq w f st r :
  task_at idx st = Some r ->
  locked_update E w idx f st =
  (tt, State (<[idx := Some (f (clock E (n_clock st)) r)]> (tasks st)) (files st)
             (last_api_call_time st)
             (EvWrite w idx (f (clock E (n_clock st)) r) :: trace st)
             (n_running st) (S (n_clock st)) (n_submit st) (n_poll st) (n_download st)).
Proof.
  intros H. unfold locked_update, bind, lookup_task. rewrite H. reflexivity.
Qed.

Lemma task_at_insert ts fs l tr a b c d e r :
  (idx < length ts)%nat ->
  task_at idx (State (<[idx := Some r]> ts) fs l tr a b c d e) = Some r.
Proof.
  intros H. unfold task_at. simpl. rewrite list_lookup_insert_eq by exact H. reflexivity.
Qed.

Lemma task_at_length st r : task_at idx st = Some r -> (idx < length (tasks st))%nat.
Proof.
  unfold task_at. destruct (tasks st !! idx) as [[r'|]|] eqn:Hl; try discriminate.
  intros _. eapply lookup_lt_Some. exact Hl.
Qed.

Variable p : payload.
Hypothesis Hrun : forall n, is_running E n = true.
Hypothesis Hsub : forall n, api_error_reply (submit_response E n) = true.

Lemma attempt_body_api_error a st r :
  task_at idx st = Some r ->
  exists st',
    attempt_body E idx p a st = (Next, st') /\
    task_at idx st' =
      Some (upd_submit_failed (api_error_text (submit_response E (n_submit st)))
              (clock E (n_clock st + 3))
              (upd_attempt_start a (clock E (n_clock st)) r)) /\
    digests (trace st') =
      DWrite WSubmitFailed "failed" a
        (api_error_text (submit_response E (n_submit st)))
        (match end_time r with Some _ => true | None => false end)
      :: DSubmit p
      :: DWrite WAttemptStart "generating" a (error r)
           (match end_time r with Some _ => true | None => false end)
      :: digests (trace st) /\
    n_submit st' = S (n_submit st) /\
    n_running st' = n_running st.
Proof.
  intros Hr. pose proof (task_at_length _ _ Hr) as Hlen.
  unfold attempt_body.
  unfold bind at 1. rewrite (locked_update_eq _ _ _ _ Hr).
  unfold bind at 1. rewrite rate_limit_eq. cbn [tasks files trace n_clock n_running n_submit n_poll n_download last_api_call_time].
  unfold bind at 1. unfold post_sora_video at 1.
  cbn [tasks files trace n_clock n_running n_submit n_poll n_download last_api_call_time].
  unfold handle_response.
  specialize (Hsub (n_submit st)).
  destruct (submit_response E (n_submit st)) as [e|code text [data|m]]; try discriminate.
  simpl in Hsub. apply andb_true_iff in Hsub. destruct Hsub as [Hc Hz].
  rewrite Hc. apply negb_true_iff in Hz. rewrite Hz.
  unfold bind, submit_failed. erewrite locked_update_eq by (apply task_at_insert; exact Hlen).
  cbn [tasks files trace n_clock n_running n_submit n_poll n_download last_api_call_time].
  eexists. split; [reflexivity|]. split; [|split; [|split; reflexivity]].
  - rewrite list_insert_insert_eq. rewrite task_at_insert by exact Hlen.
    replace (n_clock st + 3)%nat with (S (S (S (n_clock st)))) by lia. reflexivity.
  - cbn [trace]. rewrite !digests_cons. cbn [digest_of]. rewrite digests_rate, digests_cons.
    cbn [digest_of]. reflexivity.
Qed.

Lemma retry_step_api_error a fuel st r :
  (a < 4)%nat ->
  task_at idx st = Some r ->
  exists st' r',
    retry_loop E (S fuel) a idx p st = retry_loop E fuel (S a) idx p st' /\
    task_at idx st' = Some r' /\
    status r' = "pending" /\ error r' = "" /\ retry_count r' = a /\
    end_time r' = end_time r /\
    digests (trace st') =
      DWrite WBackoffReset "pending" a "" (ended r)
      :: DWait Backoff (inject_Z (2 ^ Z.of_nat a))
      :: DWrite WSubmitFailed "failed" a
           (api_error_text (submit_response E (n_submit st))) (ended r)
      :: DSubmit p
      :: DWrite WAttemptStart "generating" a (error r) (ended r)
      :: digests (trace st) /\
    n_submit st' = S (n_submit st).
Proof.
  intros Ha Hr. cbn [retry_loop].
  unfold bind at 1. unfold read_is_running at 1. rewrite Hrun. cbn [negb].
  set (st0 := State _ _ _ _ _ _ _ _ _).
  assert (Hr0 : task_at idx st0 = Some r) by exact Hr.
  destruct (attempt_body_api_error a st0 r Hr0) as (st1 & Hb & Hr1 & Hd1 & Hs1 & Hn1).
  unfold bind at 1. rewrite Hb. unfold retry_decision.
  replace (a <? max_retries - 1)%nat with true
    by (symmetry; apply Nat.ltb_lt; unfold max_retries; lia).
  unfold bind at 1. unfold current_status, bind, lookup_task, ret. rewrite Hr1.
  cbn [status upd_submit_failed set_last_update set_error set_status].
  cbn [String.eqb Ascii.eqb Bool.eqb].
  unfold read_is_running. rewrite Hrun.
  unfold time_sleep, emit.
  erewrite locked_update_eq by exact Hr1.
  cbn [tasks files trace n_clock n_running n_submit n_poll n_download last_api_call_time].
  eexists. eexists. split; [reflexivity|].
  pose proof (task_at_length _ _ Hr1) as Hlen.
  rewrite task_at_insert by exact Hlen.
  split; [reflexivity|]. repeat (split; [reflexivity|]).
  split; [|exact Hs1].
  cbn [trace]. rewrite !digests_cons. cbn [digest_of]. rewrite Hd1. reflexivity.
Qed.

Lemma last_attempt_api_error fuel st r :
  task_at idx st = Some r ->
  exists st' r',
    retry_loop E (S fuel) 4 idx p st = (None, st') /\
    task_at idx st' = Some r' /\
    status r' = "failed" /\
    error r' = api_error_text (submit_response E (n_submit st)) /\
    retry_count r' = 4%nat /\
    end_time r' = end_time r /\
    digests (trace st') =
      DWrite WSubmitFailed "failed" 4
           (api_error_text (submit_response E (n_submit st))) (ended r)
      :: DSubmit p
      :: DWrite WAttemptStart "generating" 4 (error r) (ended r)
      :: digests (trace st) /\
    n_submit st' = S (n_submit st).
Proof.
  intros Hr. cbn [retry_loop].
  unfold bind at 1. unfold read_is_running at 1. rewrite Hrun. cbn [negb].
  set (st0 := State _ _ _ _ _ _ _ _ _).
  assert (Hr0 : task_at idx st0 = Some r) by exact Hr.
  destruct (attempt_body_api_error 4 st0 r Hr0) as (st1 & Hb & Hr1 & Hd1 & Hs1 & Hn1).
  unfold bind at 1. rewrite Hb. unfold retry_decision.
  change (4 <? max_retries - 1)%nat with false. cbv iota. unfold ret.
  eexists. eexists. split; [reflexivity|]. split; [exact Hr1|].
  repeat (split; [reflexivity|]). split; [exact Hd1|exact Hs1].
Qed.

Lemma finish_sets_end_time st r :
  task_at idx st = Some r ->
  end_time r = None ->
  exists st',
    finish E idx st = (status r =? "completed", st') /\
    task_at idx st' = Some (upd_final (clock E (n_clock st)) r) /\
    digests (trace st') =
      DWrite WFinal (status r) (retry_count r) (error r) true :: digests (trace st) /\
    n_submit st' = n_submit st.
Proof.
  intros Hr He. pose proof (task_at_length _ _ Hr) as Hlen.
  unfold finish, current_status, bind, lookup_task, ret. rewrite Hr.
  unfold end_time_unset. rewrite He. unfold time_time, store.
  cbn [tasks files trace n_clock n_running n_submit n_poll n_download last_api_call_time].
  eexists. split; [reflexivity|]. split; [|split; reflexivity].
  apply task_at_insert. exact Hlen.
Qed.

Lemma run_attempts_api_errors st r :
  task_at idx st = Some r ->
  error r = "" ->
  end_time r = None ->
  n_submit st = 0%nat ->
  let err k := api_error_text (submit_response E k) in
  exists st' r',
    run_attempts E idx p st = (false, st') /\
    task_at idx st' = Some r' /\
    status r' = "failed" /\ error r' = err 4%nat /\ end_time r' <> None /\
    digests (trace st') =
      (List.rev
        [DWrite WAttemptStart "generating" 0 "" false; DSubmit p;
         DWrite WSubmitFailed "failed" 0 (err 0%nat) false;
         DWait Backoff (inject_Z 1); DWrite WBackoffReset "pending" 0 "" false;
         DWrite WAttemptStart "generating" 1 "" false; DSubmit p;
         DWrite WSubmitFailed "failed" 1 (err 1%nat) false;
         DWait Backoff (inject_Z 2); DWrite WBackoffReset "pending" 1 "" false;
         DWrite WAttemptStart "generating" 2 "" false; DSubmit p;
         DWrite WSubmitFailed "failed" 2 (err 2%nat) false;
         DWait Backoff (inject_Z 4); DWrite WBackoffReset "pending" 2 "" false;
         DWrite WAttemptStart "generating" 3 "" false; DSubmit p;
         DWrite WSubmitFailed "failed" 3 (err 3%nat) false;
         DWait Backoff (inject_Z 8); DWrite WBackoffReset "pending" 3 "" false;
         DWrite WAttemptStart "generating" 4 "" false; DSubmit p;
         DWrite WSubmitFailed "failed" 4 (err 4%nat) false;
         DWrite WFinal "failed" 4 (err 4%nat) true]
       ++ digests (trace st))%list.
Proof.
  intros Hr Herr Hend Hn err. unfold run_attempts, bind.
  change max_retries with 5%nat.
  destruct (retry_step_api_error 0 4 st r ltac:(lia) Hr)
    as (st1 & r1 & -> & Hr1 & _ & He1 & _ & Ht1 & Hd1 & Hn1).
  destruct (retry_step_api_error 1 3 st1 r1 ltac:(lia) Hr1)
    as (st2 & r2 & -> & Hr2 & _ & He2 & _ & Ht2 & Hd2 & Hn2).
  destruct (retry_step_api_error 2 2 st2 r2 ltac:(lia) Hr2)
    as (st3 & r3 & -> & Hr3 & _ & He3 & _ & Ht3 & Hd3 & Hn3).
  destruct (retry_step_api_error 3 1 st3 r3 ltac:(lia) Hr3)
    as (st4 & r4 & -> & Hr4 & _ & He4 & _ & Ht4 & Hd4 & Hn4).
  destruct (last_attempt_api_error 0 st4 r4 Hr4)
    as (st5 & r5 & -> & Hr5 & Hs5 & He5 & Hc5 & Ht5 & Hd5 & Hn5).
  assert (Hend5 : end_time r5 = None) by congruence.
  destruct (finish_sets_end_time st5 r5 Hr5 Hend5) as (st6 & -> & Hr6 & Hd6 & Hn6).
  rewrite Hn in *. rewrite Hn1 in *. rewrite Hn2 in *. rewrite Hn3 in *.
  rewrite Hn4 in *.
  exists st6, (upd_final (clock E (n_clock st5)) r5).
  rewrite Hs5. split; [reflexivity|]. split; [exact Hr6|].
  split; [exact Hs5|]. split; [exact He5|]. split; [discriminate|].
  rewrite Hd6, Hd5, Hd4, Hd3, Hd2, Hd1.
  unfold ended. rewrite Ht4, Ht3, Ht2, Ht1, Hend, Hs5, He5, Hc5, He4, He3, He2, He1, Herr.
  reflexivity.
Qed.
End Scenario.

Lemma run_job_accepted E ts idx prompt_ image_url aspect_ratio duration :
  is_running E 0 = true ->
  (idx < length ts)%nat ->
  image_rejected image_url = false ->
  run_job E ts idx prompt_ image_url aspect_ratio duration =
  run_attempts E idx (job_payload prompt_ image_url aspect_ratio duration)
    (init_state E ts idx prompt_).
Proof.
  intros Hrun Hlt Himg. unfold run_job, generate_video_task, job_payload.
  unfold image_rejected in Himg.
  unfold bind at 1. unfold read_is_running at 1. cbn [n_running initial_state].
  rewrite Hrun. cbn [negb].
  unfold bind at 1. unfold get at 1.
  cbn [initial_state tasks files trace n_clock n_running n_submit n_poll n_download
       last_api_call_time].
  replace (length ts <=? idx)%nat with false by (symmetry; apply Nat.leb_gt; exact Hlt).
  unfold bind at 1. cbv beta iota.
  change (init_task E idx prompt_ _) with (tt, init_state E ts idx prompt_).
  destruct (image_given image_url); [|reflexivity].
  cbv zeta. cbn [andb] in Himg. apply negb_false_iff in Himg. rewrite Himg. reflexivity.
Qed.

Lemma digests_rev tr : digests (List.rev tr) = List.rev (digests tr).
Proof.
  unfold digests. induction tr as [|e tr IH]; [reflexivity|].
  simpl List.rev. rewrite omap_app, IH. simpl.
  destruct (digest_of e); simpl; [reflexivity|rewrite app_nil_r; reflexivity].
Qed.

Lemma init_record_fresh E ts idx prompt_ : fresh (init_record E ts idx prompt_).
Proof. unfold init_record. destruct (task_at idx (initial_state ts)); repeat split. Qed.

Lemma task_at_init_state E ts idx prompt_ :
  (idx < length ts)%nat ->
  task_at idx (init_state E ts idx prompt_) = Some (init_record E ts idx prompt_).
Proof. intros H. apply task_at_insert. exact H. Qed.

(** Claim C4, amended.  When every submit is answered with a non-zero
    application code and the process keeps running, the job makes five
    attempts separated by four waits of 1, 2, 4 and 8 seconds; each wait
    is followed by the reset to "pending" with the error cleared and the
    retry count kept; the job returns [False] and ends "failed" with the
    message of the last reply and [end_time] set. *)
Theorem api_errors_exhaust_retries E ts idx prompt_ image_url aspect_ratio duration :
  (forall n, is_running E n = true) ->
  (forall n, api_error_reply (submit_response E n) = true) ->
  (idx < length ts)%nat ->
  image_rejected image_url = false ->
  let out := run_job E ts idx prompt_ image_url aspect_ratio duration in
  let p := job_payload prompt_ image_url aspect_ratio duration in
  let err k := api_error_text (submit_response E k) in
  out.1 = false /\
  digests (history out.2) =
    [DWrite WInit "pending" 0 "" false;
     DWrite WAttemptStart "generating" 0 "" false; DSubmit p;
     DWrite WSubmitFailed "failed" 0 (err 0%nat) false;
     DWait Backoff (inject_Z 1); DWrite WBackoffReset "pending" 0 "" false;
     DWrite WAttemptStart "generating" 1 "" false; DSubmit p;
     DWrite WSubmitFailed "failed" 1 (err 1%nat) false;
     DWait Backoff (inject_Z 2); DWrite WBackoffReset "pending" 1 "" false;
     DWrite WAttemptStart "generating" 2 "" false; DSubmit p;
     DWrite WSubmitFailed "failed" 2 (err 2%nat) false;
     DWait Backoff (inject_Z 4); DWrite WBackoffReset "pending" 2 "" false;
     DWrite WAttemptStart "generating" 3 "" false; DSubmit p;
     DWrite WSubmitFailed "failed" 3 (err 3%nat) false;
     DWait Backoff (inject_Z 8); DWrite WBackoffReset "pending" 3 "" false;
     DWrite WAttemptStart "generating" 4 "" false; DSubmit p;
     DWrite WSubmitFailed "failed" 4 (err 4%nat) false;
     DWrite WFinal "failed" 4 (err 4%nat) true] /\
  exists r, task_at idx out.2 = Some r /\ status r = "failed" /\
            error r = err 4%nat /\ end_time r <> None.
Proof.
  intros Hrun Hsub Hlt Himg. cbv zeta.
  rewrite (run_job_accepted _ _ _ _ _ _ _ (Hrun 0%nat) Hlt Himg).
  pose proof (init_record_fresh E ts idx prompt_) as (Hs & _ & Hc & He & _ & Ht).
  destruct (run_attempts_api_errors E idx
              (job_payload prompt_ image_url aspect_ratio duration) Hrun Hsub (init_state E ts idx prompt_)
              (init_record E ts idx prompt_) (task_at_init_state _ _ _ _ Hlt) He Ht
              eq_refl) as (st' & r' & -> & Hr' & Hs' & He' & Ht' & Hd').
  split; [reflexivity|]. split; [|exists r'; auto].
  cbn [snd]. unfold history. rewrite digests_rev, Hd'.
  rewrite rev_app_distr, rev_involutive.
  cbn [init_state trace]. rewrite digests_cons. cbn [digest_of digests omap List.rev app].
  rewrite Hs, Hc, He, Ht. reflexivity.
Qed.

(** ** What every run preserves                                         *)

Section Monotone.
Variable E : env.
Variable idx : nat.
Variable R : state -> state -> Prop.
Hypothesis R_refl : forall st, R st st.
Hypothesis R_trans : forall a b c, R a b -> R b c -> R a c.
Hypothesis R_time : forall st, R st (time_time E st).2.
Hypothesis R_running : forall st, R st (read_is_running E st).2.
Hypothesis R_sleep_rate : forall d st, R st (time_sleep RateLimit d st).2.
Hypothesis R_sleep_poll :
  forall st, R st (time_sleep PollInterval (inject_Z poll_interval) st).2.
Hypothesis R_sleep_backoff :
  forall a st, (a < max_retries - 1)%nat ->
    R st (time_sleep Backoff (inject_Z (2 ^ Z.of_nat a)) st).2.
Hypothesis R_set_last : forall t st, R st (set_last_api_call_time t st).2.
Hypothesis R_set_files : forall fs st, R st (set_files fs st).2.
Hypothesis R_submit : forall p st, R st (post_sora_video E p st).2.
Hypothesis R_poll : forall i st, R st (post_draw_result E i st).2.
Hypothesis R_get_video : forall u st, R st (get_video E u st).2.
Hypothesis R_store : forall w r st, R st (store w idx r st).2.

Lemma mono_ret {A} (a : A) : mono R (ret a).
Proof. intros st. apply R_refl. Qed.

Lemma mono_bind {A B} (m : M A) (f : A -> M B) :
  mono R m -> (forall a, mono R (f a)) -> mono R (bind m f).
Proof.
  intros Hm Hf st. unfold bind. specialize (Hm st).
  destruct (m st) as [a st']. simpl in Hm. eapply R_trans; [exact Hm|apply Hf].
Qed.

Lemma mono_get : mono R get.
Proof. intros st. apply R_refl. Qed.

Lemma mono_lookup i : mono R (lookup_task i).
Proof. intros st. apply R_refl. Qed.

Lemma mono_time : mono R (time_time E).
Proof. exact R_time. Qed.
Lemma mono_running : mono R (read_is_running E).
Proof. exact R_running. Qed.
Lemma mono_sleep_rate d : mono R (time_sleep RateLimit d).
Proof. exact (R_sleep_rate d). Qed.
Lemma mono_sleep_poll : mono R (time_sleep PollInterval (inject_Z poll_interval)).
Proof. exact R_sleep_poll. Qed.
Lemma mono_set_last t : mono R (set_last_api_call_time t).
Proof. exact (R_set_last t). Qed.
Lemma mono_set_files fs : mono R (set_files fs).
Proof. exact (R_set_files fs). Qed.
Lemma mono_submit p : mono R (post_sora_video E p).
Proof. exact (R_submit p). Qed.
Lemma mono_poll i : mono R (post_draw_result E i).
Proof. exact (R_poll i). Qed.
Lemma mono_get_video u : mono R (get_video E u).
Proof. exact (R_get_video u). Qed.
Lemma mono_store w r : mono R (store w idx r).
Proof. exact (R_store w r). Qed.

Ltac mono_tac :=
  repeat match goal with
    | |- mono _ (ret _) => apply mono_ret
    | |- mono _ get => apply mono_get
    | |- mono _ (lookup_task _) => apply mono_lookup
    | |- mono _ (time_time _) => apply mono_time
    | |- mono _ (read_is_running _) => apply mono_running
    | |- mono _ (time_sleep RateLimit _) => apply mono_sleep_rate
    | |- mono _ (time_sleep PollInterval _) => apply mono_sleep_poll
    | |- mono _ (set_last_api_call_time _) => apply mono_set_last
    | |- mono _ (set_files _) => apply mono_set_files
    | |- mono _ (post_sora_video _ _) => apply mono_submit
    | |- mono _ (post_draw_result _ _) => apply mono_poll
    | |- mono _ (get_video _ _) => apply mono_get_video
    | |- mono _ (store _ _ _) => apply mono_store
    | |- mono _ (bind _ _) => apply mono_bind; [ | intros ? ]
    | |- mono _ (if ?b then _ else _) => destruct b
    | |- mono _ (match ?x with _ => _ end) => destruct x
    | H : _ |- mono _ _ => solve [ apply H ]
    end.

Lemma mono_current_status : mono R (current_status idx).
Proof. unfold current_status. mono_tac. Qed.

Lemma mono_locked_update w f : mono R (locked_update E w idx f).
Proof. unfold locked_update. mono_tac. Qed.

Lemma mono_rate_limit : mono R (rate_limit_api_call E).
Proof. unfold rate_limit_api_call. mono_tac. Qed.

Lemma mono_download u f d : mono R (download_video E u f d).
Proof. unfold download_video. mono_tac. Qed.

Lemma mono_poll_rounds i n : mono R (poll_rounds E n idx i).
Proof.
  induction n as [|n IH]; cbn [poll_rounds].
  - apply mono_locked_update.
  - pose proof mono_locked_update. pose proof mono_rate_limit. pose proof mono_download.
    mono_tac.
Qed.

Lemma mono_poll_for_result i : mono R (poll_for_result E idx i).
Proof. apply mono_poll_rounds. Qed.

Lemma mono_handle_response response : mono R (handle_response E idx response).
Proof.
  unfold handle_response, submit_failed.
  pose proof mono_locked_update. pose proof mono_poll_for_result.
  pose proof mono_current_status.
  mono_tac.
Qed.

Lemma mono_attempt_body p a : mono R (attempt_body E idx p a).
Proof.
  unfold attempt_body.
  pose proof mono_locked_update. pose proof mono_rate_limit.
  pose proof mono_handle_response.
  mono_tac.
Qed.

Lemma mono_retry_decision a again :
  mono R again -> mono R (retry_decision E idx a again).
Proof.
  intros Hagain. unfold retry_decision.
  pose proof mono_locked_update. pose proof mono_current_status.
  destruct (Nat.ltb_spec a (max_retries - 1)) as [Ha|Ha]; [|apply mono_ret].
  assert (Hs : mono R (time_sleep Backoff (inject_Z (2 ^ Z.of_nat a))))
    by exact (fun st => R_sleep_backoff a st Ha).
  mono_tac.
Qed.

Lemma mono_retry_loop p fuel : forall a, mono R (retry_loop E fuel a idx p).
Proof.
  induction fuel as [|fuel IH]; intros a; cbn [retry_loop].
  - apply mono_ret.
  - pose proof mono_attempt_body.
    apply mono_bind; [apply mono_running|]. intros running.
    destruct (negb running); [apply mono_ret|].
    apply mono_bind; [apply mono_attempt_body|]. intros fl.
    destruct fl; [apply mono_ret|apply IH|apply mono_retry_decision; apply IH].
Qed.

Lemma mono_finish : mono R (finish E idx).
Proof. unfold finish. pose proof mono_current_status. mono_tac. Qed.

Lemma mono_run_attempts p : mono R (run_attempts E idx p).
Proof.
  unfold run_attempts. pose proof mono_retry_loop. pose proof mono_finish. mono_tac.
Qed.

Lemma mono_init_task prompt_ : mono R (init_task E idx prompt_).
Proof. unfold init_task. mono_tac. Qed.

Lemma mono_generate_video_task prompt_ image_url aspect_ratio duration :
  mono R (generate_video_task E idx prompt_ image_url aspect_ratio duration).
Proof.
  unfold generate_video_task.
  pose proof mono_run_attempts. pose proof mono_init_task. pose proof mono_locked_update.
  apply mono_bind; [exact R_running|]. intros running. destruct (negb running); [apply mono_ret|].
  apply mono_bind; [apply mono_get|]. intros st0.
  destruct (length (tasks st0) <=? idx)%nat; [apply mono_ret|].
  apply mono_bind; [apply mono_init_task|]. intros _. cbv zeta.
  destruct (image_given image_url); [|apply mono_run_attempts].
  destruct (Url.validate_url _); [apply mono_run_attempts|].
  apply mono_bind; [apply mono_locked_update|]. intros _. apply mono_ret.
Qed.
End Monotone.

Lemma extends_refl st : extends st st.
Proof. exists []. reflexivity. Qed.

Lemma extends_trans a b c : extends a b -> extends b c -> extends a c.
Proof. intros [l1 H1] [l2 H2]. exists (l2 ++ l1)%list. rewrite H2, H1, app_assoc. reflexivity. Qed.

Lemma extends_same st st' : trace st' = trace st -> extends st st'.
Proof. intros H. exists []. exact H. Qed.

Lemma extends_cons e st st' : trace st' = e :: trace st -> extends st st'.
Proof. intros H. exists [e]. exact H. Qed.

Ltac extends_prims :=
  first [ exact extends_refl | exact extends_trans
        | intros; apply extends_same; reflexivity
        | intros; eapply extends_cons; reflexivity ].

Lemma extends_handle_response E idx response st :
  extends st (handle_response E idx response st).2.
Proof. apply mono_handle_response; extends_prims. Qed.

Lemma extends_retry_loop E idx p fuel a st :
  extends st (retry_loop E fuel a idx p st).2.
Proof. apply mono_retry_loop; extends_prims. Qed.

Lemma extends_retry_decision E idx a again st :
  mono extends again -> extends st (retry_decision E idx a again st).2.
Proof. intros H. apply mono_retry_decision; try extends_prims. exact H. Qed.

Lemma extends_finish E idx st : extends st (finish E idx st).2.
Proof. apply mono_finish; extends_prims. Qed.

Lemma extends_generate_video_task E idx prompt_ image_url aspect_ratio duration st :
  extends st (generate_video_task E idx prompt_ image_url aspect_ratio duration st).2.
Proof. apply mono_generate_video_task; extends_prims. Qed.

(** ** The reference image                                              *)

Lemma chain_invalid_url E image_url ws r :
  chain E image_url ws ->
  In (WInvalidUrl, r) ws ->
  image_given image_url = true /\
  Url.validate_url (Some (Url.strip (default "" image_url))) = false.
Proof.
  induction ws as [|[w2 r2] ws IH]; intros Hc Hin; [destruct Hin|].
  destruct Hin as [Heq|Hin].
  - inversion Heq; subst. destruct ws as [|[w1 r1] ws].
    + destruct Hc as [Hc _]. discriminate.
    + destruct Hc as [Hs _]. inversion Hs; subst. auto.
  - apply IH; [eapply chain_tail; exact Hc|exact Hin].
Qed.

Lemma image_given_some image_url :
  image_given image_url = true ->
  exists u, image_url = Some u /\ u <> "" /\ Url.strip (default "" image_url) = Url.strip u.
Proof.
  destruct image_url as [u|]; [|discriminate]. intros H. exists u.
  split; [reflexivity|]. split; [|reflexivity].
  intros ->. discriminate.
Qed.

Lemma submits_of_rev tr : submits_of (List.rev tr) = List.rev (submits_of tr).
Proof.
  unfold submits_of. induction tr as [|e tr IH]; [reflexivity|].
  simpl List.rev. rewrite omap_app, IH. simpl.
  destruct e; simpl; try (rewrite app_nil_r; reflexivity). reflexivity.
Qed.

Lemma submits_of_app a b : submits_of (a ++ b) = (submits_of a ++ submits_of b)%list.
Proof. apply omap_app. Qed.

Lemma submits_of_rate E st : submits_of (rate_events E st) = [].
Proof. unfold rate_events. destruct (Qlt_le_dec _ 1); reflexivity. Qed.

(** The first attempt reaches the submit call. *)
Lemma retry_loop_submits E idx p fuel st r :
  task_at idx st = Some r ->
  is_running E (n_running st) = true ->
  exists st3,
    extends st3 (retry_loop E (S fuel) 0 idx p st).2 /\
    submits_of (trace st3) = p :: submits_of (trace st).
Proof.
  intros Hr Hrun. cbn [retry_loop].
  unfold bind at 1. unfold read_is_running at 1. rewrite Hrun. cbn [negb].
  set (st0 := State _ _ _ _ _ _ _ _ _).
  assert (Hr0 : task_at idx st0 = Some r) by exact Hr.
  unfold attempt_body.
  unfold bind at 1. unfold bind at 1. rewrite (locked_update_eq E idx _ _ _ _ Hr0).
  unfold bind at 1. rewrite rate_limit_eq.
  unfold bind at 1. unfold post_sora_video at 1.
  cbn [tasks files trace n_clock n_running n_submit n_poll n_download last_api_call_time].
  set (st3 := State _ _ _ _ _ _ _ _ _).
  exists st3. split.
  - unfold bind.
    match goal with |- context [handle_response E idx ?resp st3] =>
      pose proof (extends_handle_response E idx resp st3) as H1;
      destruct (handle_response E idx resp st3) as [fl st4]
    end.
    cbn [snd] in H1. eapply extends_trans; [exact H1|].
    destruct fl.
    + apply extends_refl.
    + apply extends_retry_loop.
    + apply extends_retry_decision. intros s. apply extends_retry_loop.
  - subst st3. cbn [trace].
    change (submits_of (EvSubmit p :: ?l)) with (p :: submits_of l).
    rewrite submits_of_app, submits_of_rate. reflexivity.
Qed.

Lemma run_attempts_submits E idx p st r :
  task_at idx st = Some r ->
  is_running E (n_running st) = true ->
  submits_of (trace st) = [] ->
  exists tail, submits_of (history (run_attempts E idx p st).2) = p :: tail.
Proof.
  intros Hr Hrun Hnone.
  destruct (retry_loop_submits E idx p 4 st r Hr Hrun) as (st3 & Hext & Hs3).
  assert (Hall : extends st3 (run_attempts E idx p st).2).
  { unfold run_attempts, bind. change max_retries with 5%nat.
    destruct (retry_loop E 5 0 idx p st) as [[b|] st4]; cbn [snd] in *; [exact Hext|].
    eapply extends_trans; [exact Hext|apply extends_finish]. }
  destruct Hall as [l Hl].
  unfold history. rewrite submits_of_rev, Hl, submits_of_app, Hs3, Hnone, rev_app_distr.
  cbn [List.rev app]. eexists. reflexivity.
Qed.

Lemma run_job_rejected E ts idx prompt_ image_url aspect_ratio duration :
  is_running E 0 = true ->
  (idx < length ts)%nat ->
  image_rejected image_url = true ->
  run_job E ts idx prompt_ image_url aspect_ratio duration =
  (false,
   State (<[idx := Some (upd_invalid_url (clock E 2) (init_record E ts idx prompt_))]> ts)
         ∅ 0%Q
         [EvWrite WInvalidUrl idx (upd_invalid_url (clock E 2) (init_record E ts idx prompt_));
          EvWrite WInit idx (init_record E ts idx prompt_)]
         1 3 0 0 0).
Proof.
  intros Hrun Hlt Himg. unfold run_job, generate_video_task.
  unfold image_rejected in Himg. apply andb_true_iff in Himg. destruct Himg as [Hg Hv].
  apply negb_true_iff in Hv.
  unfold bind at 1. unfold read_is_running at 1. cbn [n_running initial_state].
  rewrite Hrun. cbn [negb].
  unfold bind at 1. unfold get at 1.
  cbn [initial_state tasks files trace n_clock n_running n_submit n_poll n_download
       last_api_call_time].
  replace (length ts <=? idx)%nat with false by (symmetry; apply Nat.leb_gt; exact Hlt).
  unfold bind at 1. cbv beta iota.
  change (init_task E idx prompt_ _) with (tt, init_state E ts idx prompt_).
  cbv zeta. rewrite Hg, Hv. unfold bind.
  rewrite (locked_update_eq E idx _ _ _ _ (task_at_init_state E ts idx prompt_ Hlt)).
  unfold init_state, ret.
  cbn [tasks files trace n_clock n_running n_submit n_poll n_download last_api_call_time].
  rewrite list_insert_insert_eq. reflexivity.
Qed.

(** Claim C7, amended.  A job started while the process runs, whose
    image URL is non-empty after stripping and fails [validate_url] in
    its stripped form, returns [False] after exactly two writes, the
    initialisation and the failure; the record is "failed" with the
    validation message and [end_time] set, and no submit, poll or
    download call has been made. *)
Theorem rejected_image_fails_without_network
    E ts idx prompt_ image_url aspect_ratio duration :
  is_running E 0 = true ->
  (idx < length ts)%nat ->
  image_rejected image_url = true ->
  let out := run_job E ts idx prompt_ image_url aspect_ratio duration in
  out.1 = false /\
  (exists r0 r1,
     history out.2 = [EvWrite WInit idx r0; EvWrite WInvalidUrl idx r1] /\
     task_at idx out.2 = Some r1 /\
     status r1 = "failed" /\ error r1 = invalid_image_message /\
     end_time r1 = Some (clock E 2)) /\
  n_submit out.2 = 0%nat /\ n_poll out.2 = 0%nat /\ n_download out.2 = 0%nat.
Proof.
  intros Hrun Hlt Himg. cbv zeta.
  rewrite (run_job_rejected _ _ _ _ _ _ _ Hrun Hlt Himg).
  split; [reflexivity|]. split; [|repeat split].
  eexists. eexists. split; [reflexivity|]. split; [|repeat split].
  apply task_at_insert. exact Hlt.
Qed.

(** Claim C10.  For an absent or empty image URL [validate_url] answers
    [True], the payload has no [url] field, the job reaches the submit
    call with that payload, and no validation failure is written; and
    whatever the image URL, a validation failure is written only for a
    non-empty URL whose stripped form fails [validate_url]. *)
Theorem empty_image_url_is_accepted
    E ts idx prompt_ image_url aspect_ratio duration :
  image_url = None \/ image_url = Some "" ->
  is_running E 0 = true ->
  is_running E 1 = true ->
  (idx < length ts)%nat ->
  let out := run_job E ts idx prompt_ image_url aspect_ratio duration in
  let p := job_payload prompt_ image_url aspect_ratio duration in
  Url.validate_url image_url = true /\
  p_url p = None /\
  (exists tail, submits_of (history out.2) = p :: tail) /\
  (forall r, ~ In (WInvalidUrl, r) (writes_of idx (history out.2))) /\
  (forall image_url' r,
     In (WInvalidUrl, r)
        (writes_of idx
           (history (run_job E ts idx prompt_ image_url' aspect_ratio duration).2)) ->
     exists u, image_url' = Some u /\ u <> "" /\
               Url.validate_url (Some (Url.strip u)) = false).
Proof.
  intros Himg Hrun0 Hrun1 Hlt. cbv zeta.
  assert (Honly : forall image_url' r,
     In (WInvalidUrl, r)
        (writes_of idx
           (history (run_job E ts idx prompt_ image_url' aspect_ratio duration).2)) ->
     image_given image_url' = true /\
     Url.validate_url (Some (Url.strip (default "" image_url'))) = false).
  { intros image_url' r Hin. unfold history in Hin. rewrite writes_of_rev in Hin.
    apply in_rev in Hin. eapply chain_invalid_url; [apply run_job_chain|exact Hin]. }
  assert (Hg : image_given image_url = false) by (destruct Himg as [-> | ->]; reflexivity).
  assert (Hrej : image_rejected image_url = false)
    by (unfold image_rejected; rewrite Hg; reflexivity).
  split; [destruct Himg as [-> | ->]; reflexivity|].
  split; [unfold job_payload; rewrite Hg; reflexivity|].
  split; [|split].
  - rewrite (run_job_accepted _ _ _ _ _ _ _ Hrun0 Hlt Hrej).
    eapply run_attempts_submits; [apply task_at_init_state; exact Hlt|exact Hrun1|reflexivity].
  - intros r Hin. destruct (Honly _ _ Hin) as [Hg' _]. congruence.
  - intros image_url' r Hin. destruct (Honly _ _ Hin) as [Hg' Hv].
    destruct (image_given_some _ Hg') as (u & -> & Hne & Hstrip).
    exists u. split; [reflexivity|]. split; [exact Hne|]. exact Hv.
Qed.

(** ** Polling that never ends                                          *)

Section PollTimeout.
Variable E : env.
Variable idx : nat.



Ltac proj :=
  cbn [tasks files trace n_clock n_running n_submit n_poll n_download
       last_api_call_time].




End PollTimeout.

(** ** Truncated downloads                                              *)

Section Download.
Variable E : env.
Variable idx : nat.

Ltac proj :=
  cbn [tasks files trace n_clock n_running n_submit n_poll n_download
       last_api_call_time].

Lemma download_video_truncated url filename dir st L chunks :
  Url.validate_url (Some url) = true ->
  download_response E (n_download st) = DownloadResponse 200 (Some L) chunks None ->
  (0 < L)%Z ->
  (received chunks < L)%Z ->
  download_video E url filename dir st =
  ((false, incomplete_message (received chunks) L),
   State (tasks st) (delete (dir ++ "/" ++ filename) (files st))
         (last_api_call_time st) (EvDownload url :: trace st)
         (n_running st) (n_clock st) (n_submit st) (n_poll st) (S (n_download st))).
Proof.
  intros Hv Hresp HL HM. unfold download_video. rewrite Hv. cbn [negb].
  unfold bind at 1. unfold get_video at 1. rewrite Hresp.
  change (200 =? 200)%Z with true. cbv iota. cbn [default from_option id].
  unfold received in *.
  destruct (write_chunks chunks [] 0%Z) as [content size]. cbn [snd] in HM.
  unfold bind, get, set_files, ret. proj.
  replace (0 <? L)%Z with true by (symmetry; apply Z.ltb_lt; exact HL).
  replace (size <? L)%Z with true by (symmetry; apply Z.ltb_lt; exact HM).
  cbn [andb]. proj. rewrite delete_insert_eq. reflexivity.
Qed.

(** Claim C3, amended.  A poll round that finds the video ready and
    downloads a body which ends normally after fewer bytes than the
    [L > 0] declared leaves the record "download_failed" with the
    message naming both sizes, and no file at the path it wrote. *)
Theorem truncated_download_is_discarded i n st r d url rest L chunks :
  task_at idx st = Some r ->
  is_running E (n_running st) = true ->
  poll_response E (n_poll st) = PollResponse 200 (PollCodeZero d) ->
  pd_status d = Some "succeeded" ->
  pd_results d = Some url :: rest ->
  url <> "" ->
  Url.validate_url (Some url) = true ->
  download_response E (n_download st) = DownloadResponse 200 (Some L) chunks None ->
  (0 < L)%Z ->
  (received chunks < L)%Z ->
  let path := video_path idx (clock E (n_clock st + 3)) in
  exists st' r',
    poll_rounds E (S n) idx i st = (tt, st') /\
    task_at idx st' = Some r' /\
    status r' = "download_failed" /\
    error r' = incomplete_message (received chunks) L /\
    files st' = delete path (files st) /\
    files st' !! path = None.
Proof.
  intros Hr Hrun Hresp Hstatus Hres Hne Hv Hdl HL HM path.
  pose proof (task_at_length idx _ _ Hr) as Hlen.
  cbn [poll_rounds].
  unfold bind at 1. unfold read_is_running at 1. rewrite Hrun. cbn [negb].
  unfold bind at 1. rewrite rate_limit_eq. proj.
  unfold bind at 1. unfold post_draw_result at 1. proj. rewrite Hresp.
  change (200 =? 200)%Z with true. cbv iota.
  rewrite Hstatus, Hres. cbn [default from_option id].
  change ("succeeded" =? "succeeded") with true. cbv iota.
  replace (nonempty url) with true by (destruct url; [contradiction|reflexivity]).
  set (st2 := State _ _ _ _ _ _ _ _ _).
  assert (Hr2 : task_at idx st2 = Some r) by exact Hr.
  unfold bind at 1. rewrite (locked_update_eq E idx _ _ _ _ Hr2). subst st2. proj.
  unfold bind at 1. unfold time_time at 1. proj.
  unfold bind at 1.
  erewrite download_video_truncated; [|exact Hv|exact Hdl|exact HL|exact HM].
  proj.
  erewrite locked_update_eq by (apply task_at_insert; exact Hlen). proj.
  eexists. eexists. split; [reflexivity|].
  rewrite list_insert_insert_eq.
  split; [apply task_at_insert; exact Hlen|].
  split; [reflexivity|]. split; [reflexivity|].
  subst path. unfold video_path.
  replace (n_clock st + 3)%nat with (S (S (S (n_clock st)))) by lia.
  split; [reflexivity|]. proj. apply lookup_delete_eq.
Qed.
End Download.

(** ** The scenarios, run                                               *)


(** Claim C2, at the failing input.  The remote fails the first attempt:
    [end_time] is written, and stays set while the second attempt is
    "generating"; it is written again when the job completes. *)
Lemma end_time_survives_retry :
  map (fun x => (x.1, status x.2, retry_count x.2, ended x.2))
      (writes_of 0 (history (Scenario.run Scenario.fails_once None).2)) =
  [(WInit, "pending", 0%nat, false);
   (WAttemptStart, "generating", 0%nat, false);
   (WPollStatus, "failed", 0%nat, false);
   (WRemoteFailed, "failed", 0%nat, true);
   (WAttemptStart, "generating", 1%nat, true);
   (WPollStatus, "succeeded", 1%nat, true);
   (WCompleted, "completed", 1%nat, true)].
Proof. vm_compute. reflexivity. Qed.

(** Claim C3, counterexample.  1000 bytes declared, 1500 received: the
    download succeeds, the file is kept and the job completes. *)
Lemma oversized_download_is_kept :
  let out := Scenario.run Scenario.oversized None in
  received [repeat Byte.x00 1500] = 1500%Z /\
  out.1 = true /\
  statuses_of 0 (history out.2) =
    ["pending"; "generating"; "succeeded"; "completed"] /\
  length <$> (files out.2 !! "download/video_0_1160.mp4") = Some 1500%nat.
Proof. vm_compute. repeat split. Qed.

(** Claim C4, counterexample.  Five refused submits are separated by the
    four waits 1, 2, 4, 8; there is no wait of 16 seconds. *)
Lemma backoff_waits_are_four :
  let h := history (Scenario.run Scenario.all_refused None).2 in
  length (submits_of h) = 5%nat /\
  backoffs_of h = map inject_Z [1; 2; 4; 8]%Z /\
  backoffs_of h <> map inject_Z [1; 2; 4; 8; 16]%Z.
Proof. vm_compute. repeat split. discriminate. Qed.

(** A download that breaks off.  The record takes the status
    "succeeded", which is not in the enumeration, and goes from
    "download_failed" straight to "generating". *)
Lemma statuses_leave_the_enum :
  let ss := statuses_of 0 (history (Scenario.run Scenario.truncated None).2) in
  ss !! 2%nat = Some "succeeded" /\ spec_status "succeeded" = false /\
  ss !! 3%nat = Some "download_failed" /\ ss !! 4%nat = Some "generating" /\
  spec_edge "download_failed" "generating" = false.
Proof. vm_compute. repeat split. Qed.


(** Claim C7, counterexample.  The image URL " " is not empty and fails
    [validate_url], yet the job is submitted (without a [url] field) and
    completes. *)
Lemma blank_image_url_is_submitted :
  let out := Scenario.run Scenario.smooth (Some " ") in
  Url.validate_url (Some " ") = false /\
  out.1 = true /\
  submits_of (history out.2) = [base_payload "a cat" "16:9" 15] /\
  statuses_of 0 (history out.2) = ["pending"; "generating"; "succeeded"; "completed"].
Proof. vm_compute. repeat split. Qed.

(** Claim C8, at the failing input.  Two threads enter
    [rate_limit_api_call] before either has written the time stamp: both
    are granted at time 10. *)
Lemma concurrent_grants_too_close :
  exists c, RateLimiter.exec racing_schedule two_threads = Some c /\
            RateLimiter.grants c.1 = [10%Q; 10%Q] /\
            c.2 = [RateLimiter.Done; RateLimiter.Done] /\
            ~ RateLimiter.spaced (RateLimiter.grants c.1).
Proof.
  eexists. split; [vm_compute; reflexivity|]. split; [reflexivity|].
  split; [reflexivity|]. cbn. intros [H _]. revert H. unfold Qle. cbn. lia.
Qed.


Lemma truncated_download_is_discarded_witness :
  let st := init_state Scenario.truncated Scenario.table 0 "a cat" in
  (received [repeat Byte.x00 500] < 1000)%Z /\
  exists st' r',
    poll_rounds Scenario.truncated 120 0 "task-1" st = (tt, st') /\
    status r' = "download_failed" /\
    error r' = incomplete_message 500 1000 /\
    files st' = delete (video_path 0 (Scenario.clock 5)) (files st).
Proof.
  cbv zeta. split; [reflexivity|].
  destruct (truncated_download_is_discarded Scenario.truncated 0 "task-1" 119
              (init_state Scenario.truncated Scenario.table 0 "a cat")
              (init_record Scenario.truncated Scenario.table 0 "a cat")
              (PollData (Some 100%Z) (Some "succeeded") [Some Scenario.video] None None)
              Scenario.video [] 1000 [repeat Byte.x00 500])
    as (st' & r' & H1 & H2 & H3 & H4 & H5 & H6).
  - reflexivity.
  - reflexivity.
  - reflexivity.
  - reflexivity.
  - reflexivity.
  - discriminate.
  - vm_compute. reflexivity.
  - reflexivity.
  - reflexivity.
  - vm_compute. reflexivity.
  - exists st', r'. split; [exact H1|]. split; [exact H3|]. split; [exact H4|]. exact H5.
Defined.

Lemma api_errors_exhaust_retries_witness :
  (forall n, api_error_reply (submit_response Scenario.all_refused n) = true) /\
  (Scenario.run Scenario.all_refused None).1 = false /\
  exists r, task_at 0 (Scenario.run Scenario.all_refused None).2 = Some r /\
            status r = "failed" /\ error r = "API错误: quota" /\ end_time r <> None.
Proof.
  split; [intros n; reflexivity|].
  destruct (api_errors_exhaust_retries Scenario.all_refused Scenario.table 0 "a cat"
              None "16:9" 15) as (H1 & H2 & H3).
  - intros n. reflexivity.
  - intros n. reflexivity.
  - simpl. lia.
  - reflexivity.
  - split; [exact H1|exact H3].
Defined.

Lemma status_edges_witness :
  remote_statuses_known Scenario.truncated /\
  Forall (fun x => known_status (status x.2) = true)
    (writes_of 0 (history (Scenario.run Scenario.truncated None).2)) /\
  adjacent status_step (writes_of 0 (history (Scenario.run Scenario.truncated None).2)).
Proof.
  assert (H : remote_statuses_known Scenario.truncated).
  { intros n d Hd. injection Hd as <-. right. left. reflexivity. }
  split; [exact H|].
  exact (status_edges Scenario.truncated Scenario.table 0 "a cat" None "16:9" 15 H).
Defined.

Lemma rejected_image_fails_without_network_witness :
  image_rejected (Some "not a url") = true /\
  (Scenario.run Scenario.smooth (Some "not a url")).1 = false /\
  n_submit (Scenario.run Scenario.smooth (Some "not a url")).2 = 0%nat.
Proof.
  split; [vm_compute; reflexivity|].
  destruct (rejected_image_fails_without_network Scenario.smooth Scenario.table 0 "a cat"
              (Some "not a url") "16:9" 15) as (H1 & H2 & H3 & H4).
  - reflexivity.
  - simpl. lia.
  - vm_compute. reflexivity.
  - split; [exact H1|exact H3].
Defined.

Lemma empty_image_url_is_accepted_witness :
  Url.validate_url (Some "") = true /\
  p_url (job_payload "a cat" (Some "") "16:9" 15) = None /\
  exists tail,
    submits_of (history (Scenario.run Scenario.smooth (Some "")).2) =
    job_payload "a cat" (Some "") "16:9" 15 :: tail.
Proof.
  destruct (empty_image_url_is_accepted Scenario.smooth Scenario.table 0 "a cat"
              (Some "") "16:9" 15) as (H1 & H2 & H3 & H4).
  - right. reflexivity.
  - reflexivity.
  - reflexivity.
  - simpl. lia.
  - split; [exact H1|]. split; [exact H2|exact H3].
Defined.

(** ** How many calls a job can make                                    *)

Section Budget.
Variable E : env.
Variable idx : nat.
Variable c : state -> nat.
Variables w_submit w_poll w_download w_backoff : nat.
Hypothesis c_time : forall st, c (time_time E st).2 = c st.
Hypothesis c_running : forall st, c (read_is_running E st).2 = c st.
Hypothesis c_sleep_rate : forall d st, c (time_sleep RateLimit d st).2 = c st.
Hypothesis c_sleep_poll : forall d st, c (time_sleep PollInterval d st).2 = c st.
Hypothesis c_sleep_backoff :
  forall d st, (c (time_sleep Backoff d st).2 <= c st + w_backoff)%nat.
Hypothesis c_set_last : forall t st, c (set_last_api_call_time t st).2 = c st.
Hypothesis c_set_files : forall fs st, c (set_files fs st).2 = c st.
Hypothesis c_store : forall w r st, c (store w idx r st).2 = c st.
Hypothesis c_submit : forall p st, (c (post_sora_video E p st).2 <= c st + w_submit)%nat.
Hypothesis c_poll : forall i st, (c (post_draw_result E i st).2 <= c st + w_poll)%nat.
Hypothesis c_get_video : forall u st, (c (get_video E u st).2 <= c st + w_download)%nat.

Lemma within_ret {A} (a : A) k : within c k (ret a).
Proof. intros st. simpl. lia. Qed.

Lemma within_bind {A B} (m : M A) (f : A -> M B) a b k :
  within c a m -> (forall x, within c b (f x)) -> (a + b <= k)%nat ->
  within c k (bind m f).
Proof.
  intros Hm Hf Hk st. unfold bind. specialize (Hm st).
  destruct (m st) as [x st']. specialize (Hf x st'). simpl in *. lia.
Qed.

Lemma within_le {A} (m : M A) a k : within c a m -> (a <= k)%nat -> within c k m.
Proof. intros H Hk st. specialize (H st). lia. Qed.

Lemma within_eq {A} (m : M A) : (forall st, c (m st).2 = c st) -> within c 0 m.
Proof. intros H st. rewrite H. lia. Qed.

Lemma within_get : within c 0 get.
Proof. apply within_eq. reflexivity. Qed.

Lemma within_lookup i : within c 0 (lookup_task i).
Proof. apply within_eq. reflexivity. Qed.

(** Free steps in front of a computation. *)
Lemma within_free {A B} (m : M A) (f : A -> M B) k :
  within c 0 m -> (forall x, within c k (f x)) -> within c k (bind m f).
Proof. intros Hm Hf. eapply within_bind; [exact Hm|exact Hf|lia]. Qed.

Ltac free_tac :=
  repeat match goal with
    | |- within _ _ (ret _) => apply within_ret
    | |- within _ 0 get => apply within_get
    | |- within _ 0 (lookup_task _) => apply within_lookup
    | |- within _ 0 (time_time _) => apply within_eq; exact c_time
    | |- within _ 0 (read_is_running _) => apply within_eq; exact c_running
    | |- within _ 0 (time_sleep RateLimit _) => apply within_eq; apply c_sleep_rate
    | |- within _ 0 (time_sleep PollInterval _) => apply within_eq; apply c_sleep_poll
    | |- within _ 0 (set_last_api_call_time _) => apply within_eq; apply c_set_last
    | |- within _ 0 (set_files _) => apply within_eq; apply c_set_files
    | |- within _ 0 (store _ _ _) => apply within_eq; apply c_store
    | |- within _ _ (bind _ _) => apply within_free; [ | intros ? ]
    | |- within _ _ (if ?b then _ else _) => destruct b
    | |- within _ _ (match ?x with _ => _ end) => destruct x
    | H : _ |- within _ _ _ => solve [ apply H ]
    end.

Lemma within_current_status : within c 0 (current_status idx).
Proof. unfold current_status. free_tac. Qed.

Lemma within_locked_update w f : within c 0 (locked_update E w idx f).
Proof. unfold locked_update. free_tac. Qed.

Lemma within_rate_limit : within c 0 (rate_limit_api_call E).
Proof. unfold rate_limit_api_call. free_tac. Qed.

Lemma within_download u f d : within c w_download (download_video E u f d).
Proof.
  unfold download_video.
  destruct (negb (Url.validate_url (Some u))); [apply within_ret|].
  apply (within_bind _ _ w_download 0); [exact (c_get_video u)| |lia].
  intros response. free_tac.
Qed.

Lemma within_poll_rounds i n :
  within c (n * w_poll + w_download) (poll_rounds E n idx i).
Proof.
  pose proof within_locked_update as Hup. pose proof within_rate_limit as Hrate.
  induction n as [|n IH]; cbn [poll_rounds].
  - eapply within_le; [apply within_locked_update|lia].
  - assert (IH' : within c (n * w_poll + w_download)
                    (bind (time_sleep PollInterval (inject_Z poll_interval))
                       (fun _ => poll_rounds E n idx i))).
    { apply within_free; [apply within_eq; apply c_sleep_poll|intros _; exact IH]. }
    apply within_free; [apply within_eq; exact c_running|]. intros running.
    destruct (negb running); [apply within_ret|].
    apply within_free; [apply within_rate_limit|]. intros _.
    apply (within_bind _ _ w_poll (n * w_poll + w_download)); [exact (c_poll i)| |lia].
    intros response. destruct response as [e|code body].
    + apply within_free; [apply Hup|]. intros _. exact IH'.
    + destruct (code =? 200)%Z; [|exact IH'].
      destruct body as [d|msg].
      2:{ apply within_free; [apply Hup|]. intros _. exact IH'. }
      apply within_free; [apply Hup|]. intros _.
      destruct (default "" (pd_status d) =? "succeeded").
      * match goal with |- within _ _ (if ?b then _ else _) => destruct b end;
          [|exact IH'].
        apply within_free; [apply within_eq; exact c_time|]. intros t.
        apply (within_bind _ _ w_download 0); [apply within_download| |lia].
        intros [success result]. destruct success; apply Hup.
      * destruct (default "" (pd_status d) =? "failed"); [|exact IH'].
        eapply within_le; [apply Hup|lia].
Qed.

Lemma within_handle_response response :
  within c (max_poll_attempts * w_poll + w_download) (handle_response E idx response).
Proof.
  pose proof within_locked_update as Hup.
  assert (Hfail : forall msg k, within c k (bind (submit_failed E idx msg)
                                              (fun _ => ret Next))).
  { intros msg k. apply within_free; [apply Hup|]. intros _. apply within_ret. }
  unfold handle_response.
  destruct response as [e|code text json]; [apply Hfail|].
  destruct (code =? 200)%Z; [|apply Hfail].
  destruct json as [data|m]; [|apply Hfail].
  destruct (code_is_zero data); [|apply Hfail].
  destruct (sj_id data) as [i|m]; [|apply Hfail].
  apply (within_bind _ _ (max_poll_attempts * w_poll + w_download) 0);
    [apply within_poll_rounds| |lia].
  intros _. apply within_free; [apply within_current_status|]. intros s.
  destruct (s =? "completed"); apply within_ret.
Qed.

Lemma within_attempt_body p a :
  within c (attempt_budget w_submit w_poll w_download) (attempt_body E idx p a).
Proof.
  unfold attempt_body, attempt_budget.
  apply within_free; [apply within_locked_update|]. intros _.
  apply within_free; [apply within_rate_limit|]. intros _.
  apply (within_bind _ _ w_submit (max_poll_attempts * w_poll + w_download));
    [exact (c_submit p)| |lia].
  intros response. apply within_handle_response.
Qed.

Lemma within_retry_loop p fuel : forall a,
  (fuel + a = max_retries)%nat ->
  within c (loop_budget w_submit w_poll w_download w_backoff fuel)
    (retry_loop E fuel a idx p).
Proof.
  induction fuel as [|fuel IH]; intros a Hfa; cbn [retry_loop].
  - apply within_ret.
  - apply within_free; [apply within_eq; exact c_running|]. intros running.
    destruct (negb running); [apply within_ret|].
    set (A := attempt_budget w_submit w_poll w_download).
    apply (within_bind _ _ A (fuel * A + fuel * w_backoff));
      [apply within_attempt_body| |unfold loop_budget; fold A; nia].
    intros fl.
    destruct fl as [b| |].
    + apply within_ret.
    + eapply within_le; [apply (IH (S a)); lia|]. unfold loop_budget. fold A. nia.
    + unfold retry_decision.
      destruct (Nat.ltb_spec a (max_retries - 1)) as [Hlt|Hge]; [|apply within_ret].
      apply within_free; [apply within_current_status|]. intros s.
      destruct (s =? "failed"); [|apply within_ret].
      apply within_free; [apply within_eq; exact c_running|]. intros running'.
      destruct running'; [|apply within_ret].
      apply (within_bind _ _ w_backoff
               (loop_budget w_submit w_poll w_download w_backoff fuel));
        [exact (c_sleep_backoff _)| |].
      * intros _. apply within_free; [apply within_locked_update|]. intros _.
        apply IH. lia.
      * unfold loop_budget. fold A. unfold max_retries in *.
        assert (1 <= fuel)%nat by lia. nia.
Qed.

Lemma within_finish : within c 0 (finish E idx).
Proof.
  unfold finish. apply within_free; [apply within_current_status|]. intros s.
  apply within_free; [apply within_lookup|]. intros o.
  apply within_free; [|intros _; apply within_ret].
  destruct o as [r|]; [|apply within_ret].
  destruct (end_time_unset r); [|apply within_ret].
  apply within_free; [apply within_eq; exact c_time|]. intros now.
  apply within_eq. apply c_store.
Qed.

Lemma within_generate_video_task prompt_ image_url aspect_ratio duration :
  within c (loop_budget w_submit w_poll w_download w_backoff max_retries)
    (generate_video_task E idx prompt_ image_url aspect_ratio duration).
Proof.
  set (B := loop_budget w_submit w_poll w_download w_backoff max_retries).
  assert (Hrun : forall p, within c B (run_attempts E idx p)).
  { intros p. unfold run_attempts.
    apply (within_bind _ _ B 0); [apply within_retry_loop; lia| |lia].
    intros [b|]; [apply within_ret|apply within_finish]. }
  unfold generate_video_task.
  apply within_free; [apply within_eq; exact c_running|]. intros running.
  destruct (negb running); [apply within_ret|].
  apply within_free; [apply within_get|]. intros st0.
  destruct (length (tasks st0) <=? idx)%nat; [apply within_ret|].
  apply within_free.
  { unfold init_task. apply within_free; [apply within_lookup|]. intros o.
    apply within_free; [apply within_eq; exact c_time|]. intros t1.
    apply within_free; [apply within_eq; exact c_time|]. intros t2.
    apply within_eq. apply c_store. }
  intros _. cbv zeta.
  destruct (image_given image_url); [|apply Hrun].
  destruct (Url.validate_url _); [apply Hrun|].
  apply within_free; [apply within_locked_update|]. intros _. apply within_ret.
Qed.
End Budget.

Lemma count_events_rev kind tr : count_events kind (List.rev tr) = count_events kind tr.
Proof.
  unfold count_events. induction tr as [|e tr IH]; [reflexivity|].
  simpl. rewrite List.filter_app, length_app, IH. simpl.
  destruct (kind e); simpl; lia.
Qed.

Lemma count_budget E idx kind ws wp wd wb prompt_ image_url aspect_ratio duration st :
  (forall p, kind (EvSubmit p) = true -> (1 <= ws)%nat) ->
  (forall i, kind (EvPoll i) = true -> (1 <= wp)%nat) ->
  (forall u, kind (EvDownload u) = true -> (1 <= wd)%nat) ->
  (forall d, kind (EvSleep Backoff d) = true -> (1 <= wb)%nat) ->
  (forall w i r, kind (EvWrite w i r) = false) ->
  (forall d, kind (EvSleep RateLimit d) = false) ->
  (forall d, kind (EvSleep PollInterval d) = false) ->
  (count_events kind
     (trace (generate_video_task E idx prompt_ image_url aspect_ratio duration st).2)
   <= count_events kind (trace st) + loop_budget ws wp wd wb max_retries)%nat.
Proof.
  intros Hs Hp Hd Hb Hw Hr Hi.
  apply (within_generate_video_task E idx (fun s => count_events kind (trace s)));
    intros; unfold count_events; cbn [trace snd time_time read_is_running time_sleep emit
      set_last_api_call_time set_files store post_sora_video post_draw_result get_video
      List.filter];
    rewrite ?Hw, ?Hr, ?Hi; try reflexivity.
  - destruct (kind (EvSleep Backoff d)) eqn:Hk; simpl; [specialize (Hb _ Hk)|]; lia.
  - destruct (kind (EvSubmit p)) eqn:Hk; simpl; [specialize (Hs _ Hk)|]; lia.
  - destruct (kind (EvPoll i)) eqn:Hk; simpl; [specialize (Hp _ Hk)|]; lia.
  - destruct (kind (EvDownload u)) eqn:Hk; simpl; [specialize (Hd _ Hk)|]; lia.
Qed.

(** The calls of one job.  Whatever the services answer, a job adds to
    the history at most [max_retries] submit calls, at most
    [max_retries * max_poll_attempts] poll calls, at most [max_retries]
    downloads and at most [max_retries - 1] backoff waits. *)
Theorem job_call_budget E idx prompt_ image_url aspect_ratio duration st :
  let st' := (generate_video_task E idx prompt_ image_url aspect_ratio duration st).2 in
  (count_events is_submit (history st')
     <= count_events is_submit (history st) + max_retries)%nat /\
  (count_events is_poll (history st')
     <= count_events is_poll (history st) + max_retries * max_poll_attempts)%nat /\
  (count_events is_download (history st')
     <= count_events is_download (history st) + max_retries)%nat /\
  (count_events is_backoff (history st')
     <= count_events is_backoff (history st) + (max_retries - 1))%nat.
Proof.
  cbv zeta. unfold history. rewrite !count_events_rev.
  repeat split.
  - apply (count_budget E idx is_submit 1 0 0 0); try (intros; reflexivity);
      intros; try discriminate; lia.
  - apply (count_budget E idx is_poll 0 1 0 0); try (intros; reflexivity);
      intros; try discriminate; lia.
  - apply (count_budget E idx is_download 0 0 1 0); try (intros; reflexivity);
      intros; try discriminate; lia.
  - apply (count_budget E idx is_backoff 0 0 0 1); try (intros; reflexivity);
      intros; try discriminate; lia.
Qed.

(** ** What a job leaves alone                                          *)

Lemma same_others_refl idx st : same_others idx st st.
Proof. split; [reflexivity|]. intros; reflexivity. Qed.

Lemma same_others_trans idx a b c :
  same_others idx a b -> same_others idx b c -> same_others idx a c.
Proof.
  intros [H1 H2] [H3 H4]. split; [congruence|].
  intros j Hj. rewrite (H4 j Hj). apply H2. exact Hj.
Qed.

Lemma same_others_tasks idx st st' : tasks st' = tasks st -> same_others idx st st'.
Proof. intros H. unfold same_others. rewrite H. split; [reflexivity|]. intros; reflexivity. Qed.

Lemma same_others_store idx w r st : same_others idx st (store w idx r st).2.
Proof.
  unfold same_others, store. cbn [snd tasks]. split.
  - apply length_insert.
  - intros j Hj. apply list_lookup_insert_ne. congruence.
Qed.

Lemma generate_video_task_same_others E idx prompt_ image_url aspect_ratio duration st :
  same_others idx st
    (generate_video_task E idx prompt_ image_url aspect_ratio duration st).2.
Proof.
  apply mono_generate_video_task;
    first [ exact (same_others_refl idx) | exact (same_others_trans idx)
          | intros; apply same_others_store
          | intros; apply same_others_tasks; reflexivity ].
Qed.

(** The records of the other jobs.  A job writes only the record at its
    own index: the table keeps its length and every other entry. *)
Theorem other_jobs_untouched E idx prompt_ image_url aspect_ratio duration st :
  length (tasks (generate_video_task E idx prompt_ image_url aspect_ratio duration st).2)
    = length (tasks st) /\
  forall j, j <> idx ->
    tasks (generate_video_task E idx prompt_ image_url aspect_ratio duration st).2 !! j
      = tasks st !! j.
Proof.
  destruct (generate_video_task_same_others E idx prompt_ image_url aspect_ratio duration st)
    as [Hlen Hsame].
  split; [exact Hlen|exact Hsame].
Qed.

(** ** The backoff waits                                                *)

Lemma bind_snd {A B} (m : M A) (f : A -> M B) st :
  (bind m f st).2 = (f (m st).1 (m st).2).2.
Proof. unfold bind. destruct (m st). reflexivity. Qed.

Lemma bind_fst {A B} (m : M A) (f : A -> M B) st :
  (bind m f st).1 = (f (m st).1 (m st).2).1.
Proof. unfold bind. destruct (m st). reflexivity. Qed.

Lemma same_backoffs_refl st : same_backoffs st st.
Proof. reflexivity. Qed.

Lemma same_backoffs_trans a b c :
  same_backoffs a b -> same_backoffs b c -> same_backoffs a c.
Proof. unfold same_backoffs. congruence. Qed.

Ltac same_backoffs_prims :=
  first [ exact same_backoffs_refl | exact same_backoffs_trans
        | intros; reflexivity ].

Lemma same_backoffs_attempt_body E idx p a st :
  same_backoffs st (attempt_body E idx p a st).2.
Proof. apply mono_attempt_body; same_backoffs_prims. Qed.

Lemma same_backoffs_locked_update E idx w f st :
  same_backoffs st (locked_update E w idx f st).2.
Proof. apply mono_locked_update; same_backoffs_prims. Qed.

Lemma same_backoffs_finish E idx st : same_backoffs st (finish E idx st).2.
Proof. apply mono_finish; same_backoffs_prims. Qed.

Lemma same_backoffs_init_task E idx prompt_ st :
  same_backoffs st (init_task E idx prompt_ st).2.
Proof. apply mono_init_task; same_backoffs_prims. Qed.

Lemma adds_backoffs_same ws st st' : same_backoffs st st' -> adds_backoffs ws st st'.
Proof. intros H. exists []. split; [exact H|]. apply sublist_nil_l. Qed.

Lemma adds_backoffs_after ws a b c :
  same_backoffs a b -> adds_backoffs ws b c -> adds_backoffs ws a c.
Proof. intros H (l & Hl & Hs). exists l. rewrite Hl, H. split; [reflexivity|exact Hs]. Qed.

Lemma adds_backoffs_skip w ws st st' :
  adds_backoffs ws st st' -> adds_backoffs (w :: ws) st st'.
Proof. intros (l & Hl & Hs). exists l. split; [exact Hl|]. apply sublist_cons. exact Hs. Qed.

Lemma adds_backoffs_wait w ws a b c :
  backoffs_of (trace b) = w :: backoffs_of (trace a) ->
  adds_backoffs ws b c -> adds_backoffs (w :: ws) a c.
Proof.
  intros H (l & Hl & Hs). exists (l ++ [w])%list. split.
  - rewrite Hl, H, <- app_assoc. reflexivity.
  - rewrite rev_app_distr. cbn [List.rev app]. apply sublist_skip. exact Hs.
Qed.

Lemma waits_S a n : waits a (S n) = inject_Z (2 ^ Z.of_nat a) :: waits (S a) n.
Proof. reflexivity. Qed.

Lemma retry_loop_backoffs E idx p fuel : forall a st,
  (fuel + a = max_retries)%nat ->
  adds_backoffs (waits a (fuel - 1)) st (retry_loop E fuel a idx p st).2.
Proof.
  induction fuel as [|fuel IH]; intros a st Hfa; cbn [retry_loop].
  - apply adds_backoffs_same. reflexivity.
  - rewrite bind_snd.
    set (st1 := (read_is_running E st).2).
    assert (H1 : same_backoffs st st1) by reflexivity.
    destruct (negb _); [apply adds_backoffs_same; exact H1|].
    rewrite bind_snd.
    pose proof (same_backoffs_attempt_body E idx p a st1) as H2.
    set (st2 := (attempt_body E idx p a st1).2) in *.
    pose proof (same_backoffs_trans _ _ _ H1 H2) as H12.
    assert (Hcont : adds_backoffs (waits a (S fuel - 1)) st
                      (retry_loop E fuel (S a) idx p st2).2).
    { apply (adds_backoffs_after _ st st2); [exact H12|].
      replace (S fuel - 1)%nat with fuel by lia.
      destruct fuel as [|f].
      - apply adds_backoffs_same. reflexivity.
      - rewrite waits_S. apply adds_backoffs_skip.
        replace f with (S f - 1)%nat at 1 by lia. apply IH. lia. }
    destruct (attempt_body E idx p a st1).1.
    + apply adds_backoffs_same. exact H12.
    + exact Hcont.
    + unfold retry_decision.
      destruct (Nat.ltb_spec a (max_retries - 1)) as [Ha|Ha];
        [|apply adds_backoffs_same; exact H12].
      rewrite bind_snd.
      change ((current_status idx st2).2) with st2.
      destruct (_ =? "failed"); [|apply adds_backoffs_same; exact H12].
      rewrite bind_snd.
      set (st3 := (read_is_running E st2).2).
      assert (H3 : same_backoffs st st3) by exact H12.
      destruct (read_is_running E st2).1; [|apply adds_backoffs_same; exact H3].
      cbv zeta. rewrite bind_snd.
      set (st4 := (time_sleep Backoff (inject_Z (2 ^ Z.of_nat a)) st3).2).
      assert (H4 : backoffs_of (trace st4) =
                   inject_Z (2 ^ Z.of_nat a) :: backoffs_of (trace st)).
      { subst st4. cbn [time_sleep emit snd trace backoffs_of omap]. 
        change (backoffs_of (trace st3)) with (backoffs_of (trace st2)).
        f_equal. symmetry. rewrite <- H12. reflexivity. }
      rewrite bind_snd.
      pose proof (same_backoffs_locked_update E idx WBackoffReset upd_backoff_reset st4) as H5.
      set (st5 := (locked_update E WBackoffReset idx upd_backoff_reset st4).2) in *.
      unfold max_retries in Hfa, Ha.
      destruct fuel as [|f]; [lia|].
      replace (S (S f) - 1)%nat with (S f) by lia. rewrite waits_S.
      apply (adds_backoffs_wait _ _ st st5).
      * rewrite H5. exact H4.
      * replace f with (S f - 1)%nat at 1 by lia. apply IH. unfold max_retries. lia.
Qed.

(** The backoff waits of one job.  Whatever the services answer, the
    waits a job makes between its attempts are, in the order they are
    made, picked in order from 1, 2, 4, 8 seconds: each at most once,
    and never a shorter wait after a longer one. *)
Theorem backoff_waits_follow_schedule E idx prompt_ image_url aspect_ratio duration st :
  exists added,
    backoffs_of (history
      (generate_video_task E idx prompt_ image_url aspect_ratio duration st).2)
    = (backoffs_of (history st) ++ added)%list /\
    sublist added backoff_schedule.
Proof.
  assert (H : adds_backoffs backoff_schedule st
                (generate_video_task E idx prompt_ image_url aspect_ratio duration st).2).
  { assert (Hrun : forall p st0, adds_backoffs backoff_schedule st0
                                   (run_attempts E idx p st0).2).
    { intros p st0. unfold run_attempts. rewrite bind_snd.
      pose proof (retry_loop_backoffs E idx p max_retries 0 st0 ltac:(lia)) as (l & Hl & Hs).
      destruct (retry_loop E max_retries 0 idx p st0).1.
      - exists l. split; [exact Hl|exact Hs].
      - exists l. split; [|exact Hs]. rewrite same_backoffs_finish. exact Hl. }
    unfold generate_video_task. rewrite bind_snd.
    set (st1 := (read_is_running E st).2).
    assert (H1 : same_backoffs st st1) by reflexivity.
    destruct (negb _); [apply adds_backoffs_same; exact H1|].
    rewrite bind_snd. change ((get st1).2) with st1. change ((get st1).1) with st1.
    destruct (length (tasks st1) <=? idx)%nat; [apply adds_backoffs_same; exact H1|].
    rewrite bind_snd.
    pose proof (same_backoffs_init_task E idx prompt_ st1) as H2.
    set (st2 := (init_task E idx prompt_ st1).2) in *.
    apply (adds_backoffs_after _ st st2); [exact (same_backoffs_trans _ _ _ H1 H2)|].
    cbv zeta.
    destruct (image_given image_url); [|apply Hrun].
    destruct (Url.validate_url _); [apply Hrun|].
    rewrite bind_snd. apply adds_backoffs_same.
    apply same_backoffs_locked_update. }
  destruct H as (l & Hl & Hs). exists (List.rev l). split; [|exact Hs].
  unfold history.
  assert (Hrev : forall tr, backoffs_of (List.rev tr) = List.rev (backoffs_of tr)).
  { induction tr as [|e tr IH]; [reflexivity|].
    cbn [List.rev]. unfold backoffs_of in *. rewrite omap_app, IH.
    destruct e as [| | | |[] d]; cbn [omap]; rewrite ?app_nil_r; reflexivity. }
  rewrite !Hrev, Hl, rev_app_distr. reflexivity.
Qed.

(** ** Stopping                                                         *)

Lemma poll_rounds_stopped E idx i n st :
  is_running E (n_running st) = false ->
  poll_rounds E (S n) idx i st = (tt, (read_is_running E st).2).
Proof.
  intros H. cbn [poll_rounds]. unfold bind at 1. unfold read_is_running at 1.
  rewrite H. reflexivity.
Qed.

Lemma poll_for_result_stopped E idx i st :
  is_running E (n_running st) = false ->
  poll_for_result E idx i st = (tt, (read_is_running E st).2).
Proof.
  intros H. unfold poll_for_result. change max_poll_attempts with (S 119).
  apply poll_rounds_stopped. exact H.
Qed.

Lemma retry_loop_stopped E idx p fuel a st :
  is_running E (n_running st) = false ->
  retry_loop E (S fuel) a idx p st = (Some false, (read_is_running E st).2).
Proof.
  intros H. cbn [retry_loop]. unfold bind at 1. unfold read_is_running at 1.
  rewrite H. reflexivity.
Qed.

Lemma retry_loop_step E idx p fuel a st :
  is_running E (n_running st) = true ->
  retry_loop E (S fuel) a idx p st =
  let out := attempt_body E idx p a (read_is_running E st).2 in
  match out.1 with
  | Return b => (Some b, out.2)
  | Continue => retry_loop E fuel (S a) idx p out.2
  | Next => retry_decision E idx a (retry_loop E fuel (S a) idx p) out.2
  end.
Proof.
  intros H. cbn [retry_loop]. unfold bind at 1. unfold read_is_running at 1.
  rewrite H. cbn [negb]. unfold bind at 1. cbv zeta.
  change (read_is_running E st).2
    with (State (tasks st) (files st) (last_api_call_time st) (trace st)
            (S (n_running st)) (n_clock st) (n_submit st) (n_poll st) (n_download st)).
  destruct (attempt_body E idx p a _) as [[b| |] st']; reflexivity.
Qed.

(** A stopped process.  When [is_running] is false at its next read, a
    job that is about to start, a retry loop at the head of an attempt
    and a poll loop at the head of a round all return at once: no
    record, file or time stamp is written and no call or wait is made;
    the job and the retry loop answer [False]. *)
Theorem stopped_worker_does_nothing
    E idx prompt_ image_url aspect_ratio duration p fuel a i st :
  is_running E (n_running st) = false ->
  generate_video_task E idx prompt_ image_url aspect_ratio duration st
    = (false, (read_is_running E st).2) /\
  retry_loop E (S fuel) a idx p st = (Some false, (read_is_running E st).2) /\
  poll_for_result E idx i st = (tt, (read_is_running E st).2) /\
  untouched st (read_is_running E st).2.
Proof.
  intros H. split; [|split; [|split]].
  - unfold generate_video_task, bind at 1. unfold read_is_running at 1.
    rewrite H. reflexivity.
  - apply retry_loop_stopped. exact H.
  - apply poll_for_result_stopped. exact H.
  - repeat split.
Qed.

(** An index outside the job table.  The job returns [False] at once,
    whatever [is_running] says, and changes nothing. *)
Theorem job_outside_table_does_nothing E idx prompt_ image_url aspect_ratio duration st :
  (length (tasks st) <= idx)%nat ->
  let out := generate_video_task E idx prompt_ image_url aspect_ratio duration st in
  out.1 = false /\ untouched st out.2.
Proof.
  intros H. cbv zeta.
  assert (Heq : generate_video_task E idx prompt_ image_url aspect_ratio duration st
                = (false, (read_is_running E st).2)).
  { unfold generate_video_task, bind at 1.
    unfold read_is_running at 1. destruct (is_running E (n_running st)); cbn [negb].
    - unfold bind at 1. unfold get at 1. cbn [tasks].
      replace (_ <=? _)%nat with true by (symmetry; apply Nat.leb_le; exact H).
      reflexivity.
    - reflexivity. }
  rewrite Heq. repeat split.
Qed.

Ltac projs :=
  cbn [tasks files trace n_clock n_running n_submit n_poll n_download
       last_api_call_time].

Lemma finish_not_completed E idx st r :
  task_at idx st = Some r ->
  (status r =? "completed") = false ->
  finish E idx st =
  (false,
   if end_time_unset r
   then State (<[idx := Some (upd_final (clock E (n_clock st)) r)]> (tasks st)) (files st)
          (last_api_call_time st)
          (EvWrite WFinal idx (upd_final (clock E (n_clock st)) r) :: trace st)
          (n_running st) (S (n_clock st)) (n_submit st) (n_poll st) (n_download st)
   else st).
Proof.
  intros Hr Hs. unfold finish.
  unfold bind at 1. unfold current_status, lookup_task. unfold bind at 1.
  rewrite Hr. unfold ret at 1. rewrite Hs.
  unfold bind at 1. unfold bind at 1. rewrite Hr.
  destruct (end_time_unset r); reflexivity.
Qed.

(** A stop while the request is being made.  When the submit of an
    attempt is accepted and [is_running] is false from then on, the
    poll loop makes no call and the record stays "generating" with the
    retry count of the attempt; the attempt has made one submit and no
    backoff wait.  If attempts are left, the retry loop answers
    [False] at the head of the next one and [end_time] is as it was.
    If it was the last attempt, the loop runs out, and the statements
    after it answer [False] and leave the record "generating" with
    [end_time] set: they stamp it when it had none. *)
Theorem stop_after_submit_leaves_generating E idx p fuel a i st r :
  task_at idx st = Some r ->
  is_running E (n_running st) = true ->
  accepted_id (submit_response E (n_submit st)) = Some i ->
  is_running E (S (n_running st)) = false ->
  (fuel <> 0%nat -> is_running E (S (S (n_running st))) = false) ->
  exists st' r',
    retry_loop E (S fuel) a idx p st
      = (match fuel with O => None | S _ => Some false end, st') /\
    task_at idx st' = Some r' /\
    status r' = "generating" /\ retry_count r' = a /\ end_time r' = end_time r /\
    count_events is_submit (trace st') = S (count_events is_submit (trace st)) /\
    count_events is_poll (trace st') = count_events is_poll (trace st) /\
    count_events is_backoff (trace st') = count_events is_backoff (trace st) /\
    (fuel = 0%nat ->
     exists st'' r'',
       finish E idx st' = (false, st'') /\
       task_at idx st'' = Some r'' /\
       status r'' = "generating" /\ retry_count r'' = a /\
       end_time r'' <> None /\
       (end_time r = None -> end_time r'' = Some (clock E (n_clock st')))).
Proof.
  intros Hr Hrun Hid Hs1 Hs2. pose proof (task_at_length idx _ _ Hr) as Hlen.
  rewrite (retry_loop_step E idx p fuel a st Hrun). cbv zeta.
  set (st0 := (read_is_running E st).2).
  assert (Hr0 : task_at idx st0 = Some r) by exact Hr.
  set (r1 := upd_attempt_start a (clock E (n_clock st)) r).
  assert (Hbody : exists st4,
            attempt_body E idx p a st0 = (Continue, st4) /\
            task_at idx st4 = Some r1 /\
            n_running st4 = S (S (n_running st)) /\
            count_events is_submit (trace st4) = S (count_events is_submit (trace st)) /\
            count_events is_poll (trace st4) = count_events is_poll (trace st) /\
            count_events is_backoff (trace st4) = count_events is_backoff (trace st)).
  { unfold attempt_body.
    unfold bind at 1. rewrite (locked_update_eq E idx _ _ _ _ Hr0).
    unfold bind at 1. rewrite rate_limit_eq.
    unfold bind at 1. unfold post_sora_video at 1. subst st0. projs.
    cbn [read_is_running snd]. projs.
    unfold handle_response.
    destruct (submit_response E (n_submit st)) as [e|code text [data|m]];
      try discriminate Hid.
    cbn [accepted_id] in Hid.
    destruct (code =? 200)%Z; [|discriminate Hid]. cbn [andb] in Hid.
    destruct (code_is_zero data); [|discriminate Hid].
    destruct (sj_id data) as [i'|m]; [|discriminate Hid].
    inversion Hid; subst i'. clear Hid.
    unfold bind at 1.
    set (st3 := State _ _ _ _ _ _ _ _ _).
    assert (Hs3 : is_running E (n_running st3) = false) by (subst st3; projs; exact Hs1).
    rewrite (poll_for_result_stopped E idx i st3 Hs3).
    assert (Hr3 : task_at idx (read_is_running E st3).2 = Some r1).
    { subst st3. unfold read_is_running. cbn [snd]. apply task_at_insert. exact Hlen. }
    unfold bind at 1. unfold current_status, lookup_task. unfold bind at 1. rewrite Hr3.
    unfold ret.
    change (status r1 =? "completed") with false. cbv iota.
    eexists. split; [reflexivity|]. split; [exact Hr3|].
    split; [reflexivity|].
    unfold count_events, read_is_running. subst st3. cbn [snd]. projs.
    cbn [List.filter is_submit is_poll is_backoff].
    unfold rate_events. destruct (Qlt_le_dec _ 1); repeat split. }
  destruct Hbody as (st4 & -> & Hr4 & Hn4 & Hc1 & Hc2 & Hc3). cbn [fst snd].
  destruct fuel as [|fuel].
  - cbn [retry_loop]. unfold ret.
    exists st4, r1. split; [reflexivity|].
    split; [exact Hr4|]. repeat (split; [reflexivity|]).
    split; [exact Hc1|]. split; [exact Hc2|]. split; [exact Hc3|]. intros _.
    rewrite (finish_not_completed E idx st4 r1 Hr4 eq_refl).
    destruct (end_time_unset r1) eqn:Hu.
    + eexists. eexists. split; [reflexivity|].
      split; [apply task_at_insert; eapply task_at_length; exact Hr4|].
      repeat (split; [reflexivity|]). split; [discriminate|]. intros _. reflexivity.
    + exists st4, r1. split; [reflexivity|]. split; [exact Hr4|].
      repeat (split; [reflexivity|]). unfold end_time_unset in Hu.
      change (end_time r1) with (end_time r) in *. split.
      * destruct (end_time r); discriminate.
      * intros Hn. rewrite Hn in Hu. discriminate.
  - rewrite (retry_loop_stopped E idx p fuel (S a) st4)
      by (rewrite Hn4; apply Hs2; discriminate).
    exists (read_is_running E st4).2, r1. split; [reflexivity|].
    split; [exact Hr4|]. repeat (split; [reflexivity|]).
    split; [exact Hc1|]. split; [exact Hc2|]. split; [exact Hc3|]. intros [=].
Qed.

Lemma stopped_worker_does_nothing_witness :
  (generate_video_task Cases.stopped 0 "a cat" None "16:9" 15
     (initial_state Scenario.table)).1 = false /\
  trace (poll_for_result Cases.stopped 0 "task-1" (initial_state Scenario.table)).2 = [].
Proof.
  destruct (stopped_worker_does_nothing Cases.stopped 0 "a cat" None "16:9" 15
              (base_payload "a cat" "16:9" 15) 4 0 "task-1"
              (initial_state Scenario.table) eq_refl) as (H1 & _ & H3 & _).
  rewrite H1, H3. split; reflexivity.
Defined.

Lemma job_outside_table_does_nothing_witness :
  (generate_video_task Scenario.smooth 5 "a cat" None "16:9" 15
     (initial_state Scenario.table)).1 = false /\
  trace (generate_video_task Scenario.smooth 5 "a cat" None "16:9" 15
           (initial_state Scenario.table)).2 = [].
Proof.
  destruct (job_outside_table_does_nothing Scenario.smooth 5 "a cat" None "16:9" 15
              (initial_state Scenario.table)) as (H1 & _ & _ & H2 & _).
  - cbn. lia.
  - split; [exact H1|exact H2].
Defined.

Lemma stop_after_submit_leaves_generating_witness :
  (exists st' r',
     retry_loop Cases.stops_early 5 0 0 (base_payload "a cat" "16:9" 15)
       (init_state Cases.stops_early Scenario.table 0 "a cat") = (Some false, st') /\
     task_at 0 st' = Some r' /\ status r' = "generating" /\ end_time r' = None) /\
  (exists st' st'' r'',
     retry_loop Cases.stops_early 1 4 0 (base_payload "a cat" "16:9" 15)
       (init_state Cases.stops_early Scenario.table 0 "a cat") = (None, st') /\
     finish Cases.stops_early 0 st' = (false, st'') /\
     task_at 0 st'' = Some r'' /\ status r'' = "generating" /\ end_time r'' <> None).
Proof.
  split.
  - destruct (stop_after_submit_leaves_generating Cases.stops_early 0
                (base_payload "a cat" "16:9" 15) 4 0 "task-1"
                (init_state Cases.stops_early Scenario.table 0 "a cat")
                (init_record Cases.stops_early Scenario.table 0 "a cat")
                eq_refl eq_refl eq_refl eq_refl (fun _ => eq_refl))
      as (st' & r' & H1 & H2 & H3 & _ & H5 & _).
    exists st', r'. split; [exact H1|]. split; [exact H2|]. split; [exact H3|exact H5].
  - destruct (stop_after_submit_leaves_generating Cases.stops_early 0
                (base_payload "a cat" "16:9" 15) 0 4 "task-1"
                (init_state Cases.stops_early Scenario.table 0 "a cat")
                (init_record Cases.stops_early Scenario.table 0 "a cat")
                eq_refl eq_refl eq_refl eq_refl
                (fun H => False_ind _ (H eq_refl)))
      as (st' & r' & H1 & _ & _ & _ & _ & _ & _ & _ & Hlast).
    destruct (Hlast eq_refl) as (st'' & r'' & F1 & F2 & F3 & _ & F5 & _).
    exists st', st'', r''. split; [exact H1|]. split; [exact F1|].
    split; [exact F2|]. split; [exact F3|exact F5].
Defined.

(** ** Downloads                                                        *)

Lemma write_chunks_spec chunks : forall content size,
  write_chunks chunks content size =
  ((content ++ stream_body chunks)%list,
   (size + Z.of_nat (length (stream_body chunks)))%Z).
Proof.
  unfold stream_body.
  induction chunks as [|chunk rest IH]; intros content size; cbn [write_chunks concat].
  - rewrite app_nil_r, Z.add_0_r. reflexivity.
  - destruct chunk as [|b chunk].
    + rewrite IH. reflexivity.
    + rewrite IH. rewrite length_app, <- app_assoc. f_equal. lia.
Qed.

Lemma received_length chunks : received chunks = Z.of_nat (length (stream_body chunks)).
Proof. unfold received. rewrite write_chunks_spec. reflexivity. Qed.


(** [download_video], case by case. *)
Lemma download_video_eq E url filename dir st :
  let reply := download_response E (n_download st) in
  let path := dir ++ "/" ++ filename in
  let asked fs := State (tasks st) fs (last_api_call_time st)
                    (EvDownload url :: trace st)
                    (n_running st) (n_clock st) (n_submit st) (n_poll st)
                    (S (n_download st)) in
  download_video E url filename dir st =
  if negb (Url.validate_url (Some url)) then ((false, "视频URL格式无效"), st)
  else
    match reply with
    | DownloadRaises e => ((false, download_error e), asked (files st))
    | DownloadResponse status_code content_length chunks ending =>
        if (status_code =? 200)%Z then
          match ending with
          | Some e =>
              ((false, download_error e),
               asked (<[path := stream_body chunks]> (files st)))
          | None =>
              if complete_reply reply then
                ((true, path), asked (<[path := stream_body chunks]> (files st)))
              else
                ((false,
                  if (0 <? default 0%Z content_length)%Z &&
                     (received chunks <? default 0%Z content_length)%Z
                  then incomplete_message (received chunks) (default 0%Z content_length)
                  else "下载的文件为空"),
                 asked (delete path (files st)))
          end
        else ((false, "下载失败: HTTP " ++ str_of_Z status_code), asked (files st))
    end.
Proof.
  cbv zeta. unfold download_video.
  destruct (negb (Url.validate_url (Some url))); [reflexivity|].
  unfold bind at 1. unfold get_video at 1.
  destruct (download_response E (n_download st)) as [e|code cl chunks ending];
    [reflexivity|].
  cbn [complete_reply].
  destruct (code =? 200)%Z; [|reflexivity].
  cbv zeta. rewrite received_length. rewrite write_chunks_spec. cbn [app andb].
  rewrite Z.add_0_l.
  unfold bind at 1. unfold get at 1. unfold bind at 1. unfold set_files at 1. projs.
  destruct ending as [e|]; [reflexivity|].
  set (L := default 0%Z cl). set (n := Z.of_nat (length (stream_body chunks))).
  destruct ((0 <? L)%Z && (n <? L)%Z) eqn:Hshort.
  - rewrite andb_false_r.
    unfold bind, get, set_files, ret. projs. rewrite delete_insert_eq. reflexivity.
  - cbn [negb]. rewrite andb_true_r.
    unfold bind at 1. unfold get at 1. projs. rewrite lookup_insert_eq.
    subst n. destruct (stream_body chunks) as [|b body] eqn:Hbody.
    + cbn [length Nat.eqb Z.of_nat Z.ltb Z.compare].
      unfold bind, set_files, ret. projs. rewrite delete_insert_eq. reflexivity.
    + cbn [length Nat.eqb]. 
      replace (0 <? Z.of_nat (S (length body)))%Z with true
        by (symmetry; apply Z.ltb_lt; lia).
      reflexivity.
Qed.

(** When a download succeeds.  [download_video] answers [True] exactly
    when the URL passes [validate_url], the reply has status 200, the
    stream ends without an exception, at least one byte was received,
    and a declared positive content length is not larger than the
    number of bytes received. *)
Theorem download_succeeds_iff E url filename dir st :
  ((download_video E url filename dir st).1).1 = true <->
  (Url.validate_url (Some url) = true /\
   exists content_length chunks,
     download_response E (n_download st)
       = DownloadResponse 200 content_length chunks None /\
     stream_body chunks <> [] /\
     (forall L, content_length = Some L -> (0 < L)%Z ->
                (L <= Z.of_nat (length (stream_body chunks)))%Z)).
Proof.
  rewrite download_video_eq. cbv zeta.
  destruct (Url.validate_url (Some url)); cbn [negb].
  2:{ split; [discriminate|]. intros [H _]. discriminate. }
  destruct (download_response E (n_download st)) as [e|code cl chunks ending].
  { split; [discriminate|]. intros (_ & cl & chunks & H & _). discriminate. }
  destruct (Z.eqb_spec code 200) as [->|Hcode].
  2:{ split; [discriminate|]. intros (_ & cl' & chunks' & H & _).
      inversion H. congruence. }
  destruct ending as [e|].
  { split; [discriminate|]. intros (_ & cl' & chunks' & H & _). discriminate. }
  destruct (complete_reply _) eqn:Hc; cbn [fst snd]; cbn [complete_reply] in Hc.
  - split; [|reflexivity]. intros _. split; [reflexivity|].
    exists cl, chunks. split; [reflexivity|].
    change (200 =? 200)%Z with true in Hc. cbn [andb] in Hc.
    apply andb_true_iff in Hc. destruct Hc as [Hpos Hlen].
    apply Z.ltb_lt in Hpos. apply negb_true_iff in Hlen. split.
    + intros Hnil. rewrite Hnil in Hpos. cbn in Hpos. lia.
    + intros L -> HL. cbn [default from_option id] in Hlen.
      apply andb_false_iff in Hlen. destruct Hlen as [H|H].
      * apply Z.ltb_ge in H. lia.
      * apply Z.ltb_ge in H. exact H.
  - split; [discriminate|]. intros (_ & cl' & chunks' & H & Hne & Hlen).
    inversion H; subst cl' chunks'. exfalso.
    change (200 =? 200)%Z with true in Hc. cbn [andb] in Hc.
    apply andb_false_iff in Hc. destruct Hc as [Hc|Hc].
    + apply Z.ltb_ge in Hc. destruct (stream_body chunks); [congruence|cbn in Hc; lia].
    + apply negb_false_iff, andb_true_iff in Hc. destruct Hc as [H1 H2].
      apply Z.ltb_lt in H1, H2.
      destruct cl as [L|]; cbn [default from_option id] in *; [|lia].
      specialize (Hlen L eq_refl H1). lia.
Qed.

(** What a successful download leaves.  The answer names the path
    [download_dir/filename], and the file there holds the chunks of the
    stream in the order received, whatever was at the path before. *)
Theorem downloaded_file_is_the_body E url filename dir st path :
  (download_video E url filename dir st).1 = (true, path) ->
  path = dir ++ "/" ++ filename /\
  exists content_length chunks,
    download_response E (n_download st)
      = DownloadResponse 200 content_length chunks None /\
    files (download_video E url filename dir st).2
      = <[path := stream_body chunks]> (files st) /\
    received chunks = Z.of_nat (length (stream_body chunks)).
Proof.
  rewrite download_video_eq. cbv zeta.
  destruct (negb _); [discriminate|].
  destruct (download_response E (n_download st)) as [e|code cl chunks ending];
    [discriminate|].
  destruct (Z.eqb_spec code 200) as [->|Hcode]; [|discriminate].
  destruct ending as [e|]; [discriminate|].
  destruct (complete_reply _); [|discriminate].
  cbn [fst snd]. intros H. inversion H. split; [reflexivity|].
  exists cl, chunks. split; [reflexivity|]. split; [reflexivity|].
  apply received_length.
Qed.

(** A stream that breaks.  When the reply has status 200 and the stream
    raises after some chunks, the download fails with the message of
    the exception and the part received stays in the file: unlike a
    short stream that ends normally, it is not removed. *)
Theorem broken_stream_leaves_partial_file
    E url filename dir st content_length chunks e :
  Url.validate_url (Some url) = true ->
  download_response E (n_download st)
    = DownloadResponse 200 content_length chunks (Some e) ->
  let out := download_video E url filename dir st in
  out.1 = (false, download_error e) /\
  files out.2 !! (dir ++ "/" ++ filename) = Some (stream_body chunks).
Proof.
  intros Hv Hr. cbv zeta. rewrite download_video_eq. cbv zeta.
  rewrite Hv, Hr. cbn [negb]. change (200 =? 200)%Z with true. cbv iota.
  cbn [fst snd files]. split; [reflexivity|]. apply lookup_insert_eq.
Qed.

(** A failed download whose stream ended.  When the stream of a 200
    reply ends without an exception and the download fails, no file is
    left at the path. *)
Theorem rejected_body_is_removed E url filename dir st content_length chunks :
  Url.validate_url (Some url) = true ->
  download_response E (n_download st)
    = DownloadResponse 200 content_length chunks None ->
  let out := download_video E url filename dir st in
  (out.1).1 = false ->
  files out.2 !! (dir ++ "/" ++ filename) = None /\
  (stream_body chunks = [] \/
   exists L, content_length = Some L /\ (0 < L)%Z /\
             (Z.of_nat (length (stream_body chunks)) < L)%Z).
Proof.
  intros Hv Hr. cbv zeta. rewrite download_video_eq. cbv zeta.
  rewrite Hv, Hr. cbn [negb]. change (200 =? 200)%Z with true. cbv iota.
  destruct (complete_reply _) eqn:Hc; [discriminate|]. intros _.
  cbn [fst snd files]. split; [apply lookup_delete_eq|].
  cbn [complete_reply] in Hc. change (200 =? 200)%Z with true in Hc. cbn [andb] in Hc.
  apply andb_false_iff in Hc. destruct Hc as [Hc|Hc].
  - left. apply Z.ltb_ge in Hc. destruct (stream_body chunks); [reflexivity|cbn in Hc; lia].
  - right. apply negb_false_iff, andb_true_iff in Hc. destruct Hc as [H1 H2].
    apply Z.ltb_lt in H1, H2.
    destruct content_length as [L|]; cbn [default from_option id] in *; [|lia].
    exists L. split; [reflexivity|]. split; assumption.
Qed.

(** What a download leaves alone.  Whatever the reply, [download_video]
    changes no job record and no file other than the one at
    [download_dir/filename], makes at most one request, and makes none
    when the URL fails [validate_url]. *)
Theorem download_touches_one_path E url filename dir st :
  let out := download_video E url filename dir st in
  tasks out.2 = tasks st /\
  (forall p, p <> dir ++ "/" ++ filename -> files out.2 !! p = files st !! p) /\
  (n_download out.2 <= S (n_download st))%nat /\
  (Url.validate_url (Some url) = false -> out = ((false, "视频URL格式无效"), st)).
Proof.
  cbv zeta. rewrite download_video_eq. cbv zeta.
  destruct (Url.validate_url (Some url)); cbn [negb].
  2:{ repeat split. cbn [snd]. lia. }
  split; [|split; [|split; [|discriminate]]].
  - destruct (download_response E (n_download st)) as [e|code cl chunks [e|]];
      [reflexivity| |]; destruct (code =? 200)%Z; try reflexivity;
      destruct (complete_reply _); reflexivity.
  - intros p Hp.
    destruct (download_response E (n_download st)) as [e|code cl chunks [e|]];
      [reflexivity| |]; destruct (code =? 200)%Z; try reflexivity;
      try destruct (complete_reply _); cbn [snd files];
      first [ apply lookup_insert_ne; congruence | apply lookup_delete_ne; congruence ].
  - destruct (download_response E (n_download st)) as [e|code cl chunks [e|]];
      [cbn; lia| |]; destruct (code =? 200)%Z; try (cbn; lia);
      destruct (complete_reply _); cbn; lia.
Qed.

Lemma broken_stream_leaves_partial_file_witness :
  let st := init_state Cases.broken_stream Scenario.table 0 "a cat" in
  let out := download_video Cases.broken_stream Scenario.video "v.mp4" "download" st in
  Url.validate_url (Some Scenario.video) = true /\
  out.1 = (false, "下载连接错误") /\
  files out.2 !! "download/v.mp4" = Some (repeat Byte.x00 4).
Proof.
  cbv zeta. split; [vm_compute; reflexivity|].
  exact (broken_stream_leaves_partial_file Cases.broken_stream Scenario.video "v.mp4"
           "download" (init_state Cases.broken_stream Scenario.table 0 "a cat")
           (Some 10%Z) [repeat Byte.x00 4] ConnectionError
           ltac:(vm_compute; reflexivity) eq_refl).
Defined.

Lemma rejected_body_is_removed_witness :
  let st := init_state Scenario.truncated Scenario.table 0 "a cat" in
  let out := download_video Scenario.truncated Scenario.video "v.mp4" "download" st in
  (out.1).1 = false /\ files out.2 !! "download/v.mp4" = None.
Proof.
  cbv zeta. split; [vm_compute; reflexivity|].
  exact (proj1 (rejected_body_is_removed Scenario.truncated Scenario.video "v.mp4"
           "download" (init_state Scenario.truncated Scenario.table 0 "a cat")
           (Some 1000%Z) [repeat Byte.x00 500]
           ltac:(vm_compute; reflexivity) eq_refl ltac:(vm_compute; reflexivity))).
Defined.

Lemma downloaded_file_is_the_body_witness :
  let st := init_state Scenario.smooth Scenario.table 0 "a cat" in
  let out := download_video Scenario.smooth Scenario.video "v.mp4" "download" st in
  out.1 = (true, "download/v.mp4") /\
  exists content_length chunks,
    download_response Scenario.smooth (n_download st)
      = DownloadResponse 200 content_length chunks None /\
    files out.2 = <["download/v.mp4" := stream_body chunks]> (files st) /\
    received chunks = Z.of_nat (length (stream_body chunks)).
Proof.
  cbv zeta. split; [vm_compute; reflexivity|].
  exact (proj2 (downloaded_file_is_the_body Scenario.smooth Scenario.video "v.mp4"
           "download" (init_state Scenario.smooth Scenario.table 0 "a cat")
           "download/v.mp4" ltac:(vm_compute; reflexivity))).
Defined.

(** ** How a job ends                                                   *)

Lemma download_video_on_disk E url filename dir st :
  let out := download_video E url filename dir st in
  tasks out.2 = tasks st /\
  ((out.1).1 = true ->
   exists body, files out.2 !! (out.1).2 = Some body /\ body <> []).
Proof.
  cbv zeta. rewrite download_video_eq. cbv zeta.
  destruct (negb _); [split; [reflexivity|discriminate]|].
  destruct (download_response E (n_download st)) as [e|code cl chunks [e|]];
    [split; [reflexivity|discriminate]| |].
  - destruct (code =? 200)%Z; split; try reflexivity; discriminate.
  - destruct (code =? 200)%Z eqn:Hcode; [|split; [reflexivity|discriminate]].
    destruct (complete_reply _) eqn:Hc; [|split; [reflexivity|discriminate]].
    split; [reflexivity|]. intros _. cbn [fst snd files].
    exists (stream_body chunks). split; [apply lookup_insert_eq|].
    cbn [complete_reply] in Hc. rewrite Hcode in Hc. cbn [andb] in Hc.
    apply andb_true_iff in Hc. destruct Hc as [Hpos _]. apply Z.ltb_lt in Hpos.
    intros Hnil. rewrite Hnil in Hpos. cbn in Hpos. lia.
Qed.

Section Verdict.
Variable E : env.
Variable idx : nat.
Hypothesis Hrun : forall n, is_running E n = true.


Lemma settled_failed st r :
  task_at idx st = Some r -> end_time r <> None -> failed_record r -> settled idx st.
Proof. intros H1 H2 H3. exists r. split; [exact H1|]. split; [exact H2|]. right. exact H3. Qed.

Lemma poll_rounds_settled i n : forall st r,
  task_at idx st = Some r -> settled idx (poll_rounds E n idx i st).2.
Proof.
  induction n as [|n IH]; intros st r Hr; pose proof (task_at_length idx _ _ Hr) as Hlen.
  - cbn [poll_rounds]. rewrite (locked_update_eq E idx _ _ _ _ Hr). cbn [snd].
    eapply settled_failed; [apply task_at_insert; exact Hlen|discriminate|left; reflexivity].
  - cbn [poll_rounds].
    unfold bind at 1. unfold read_is_running at 1. rewrite Hrun. cbn [negb].
    unfold bind at 1. rewrite rate_limit_eq. projs.
    unfold bind at 1. unfold post_draw_result at 1. projs.
    set (st2 := State _ _ _ _ _ _ _ _ _).
    assert (Hr2 : task_at idx st2 = Some r) by exact Hr.
    destruct (poll_response E (n_poll st)) as [e|code body].
    { unfold bind at 1. rewrite (locked_update_eq E idx _ _ _ _ Hr2).
      unfold bind at 1. unfold time_sleep, emit. subst st2. projs.
      eapply IH. apply task_at_insert. exact Hlen. }
    destruct (code =? 200)%Z.
    2:{ unfold bind at 1. unfold time_sleep, emit. eapply IH. exact Hr. }
    destruct body as [d|msg].
    2:{ unfold bind at 1. rewrite (locked_update_eq E idx _ _ _ _ Hr2).
        unfold bind at 1. unfold time_sleep, emit. subst st2. projs.
        eapply IH. apply task_at_insert. exact Hlen. }
    unfold bind at 1. rewrite (locked_update_eq E idx _ _ _ _ Hr2).
    set (r3 := upd_poll_status _ _ _ r).
    set (st3 := State _ _ _ _ _ _ _ _ _).
    assert (Hr3 : task_at idx st3 = Some r3)
      by (subst st3 st2; projs; apply task_at_insert; exact Hlen).
    assert (Hlen3 : (idx < length (tasks st3))%nat)
      by (eapply task_at_length; exact Hr3).
    destruct (default "" (pd_status d) =? "succeeded").
    + destruct (nonempty _).
      * unfold bind at 1. unfold time_time at 1.
        set (st4 := State _ _ _ _ _ _ _ _ _).
        assert (Hr4 : task_at idx st4 = Some r3) by exact Hr3.
        unfold bind at 1.
        match goal with |- context [download_video E ?u ?f ?dd st4] =>
          pose proof (download_video_on_disk E u f dd st4) as Hdisk;
          destruct (download_video E u f dd st4) as [[success result] st5]
        end.
        cbv zeta in Hdisk. cbn [fst snd] in Hdisk. destruct Hdisk as [Htasks Hfile].
        assert (Hr5 : task_at idx st5 = Some r3)
          by (unfold task_at in *; rewrite Htasks; exact Hr4).
        assert (Hlen5 : (idx < length (tasks st5))%nat)
          by (eapply task_at_length; exact Hr5).
        destruct success; rewrite (locked_update_eq E idx _ _ _ _ Hr5); cbn [snd].
        -- eexists. split; [apply task_at_insert; exact Hlen5|].
           split; [discriminate|]. left. split; [reflexivity|].
           destruct (Hfile eq_refl) as (body & Hb & Hne).
           exists result, body. split; [reflexivity|]. split; [exact Hb|exact Hne].
        -- eapply settled_failed;
             [apply task_at_insert; exact Hlen5|discriminate|right; reflexivity].
      * unfold bind at 1. unfold time_sleep, emit. eapply IH. exact Hr3.
    + destruct (default "" (pd_status d) =? "failed").
      * rewrite (locked_update_eq E idx _ _ _ _ Hr3). cbn [snd].
        eapply settled_failed;
          [apply task_at_insert; exact Hlen3|discriminate|left; reflexivity].
      * unfold bind at 1. unfold time_sleep, emit. eapply IH. exact Hr3.
Qed.

Lemma submit_failed_outcome msg st r :
  task_at idx st = Some r ->
  attempt_outcome idx Next (submit_failed E idx msg st).2.
Proof.
  intros Hr. unfold submit_failed. rewrite (locked_update_eq E idx _ _ _ _ Hr). cbn [snd].
  eexists. split; [apply task_at_insert; eapply task_at_length; exact Hr|reflexivity].
Qed.

Lemma handle_response_outcome response st r :
  task_at idx st = Some r ->
  let out := handle_response E idx response st in
  attempt_outcome idx out.1 out.2.
Proof.
  intros Hr. cbv zeta.
  destruct (handle_response E idx response st) as [fl st'] eqn:Heq. cbn [fst snd].
  revert Heq. unfold handle_response.
  assert (Hfail : forall msg,
            (submit_failed E idx msg;; ret Next) st = (fl, st') ->
            attempt_outcome idx fl st').
  { intros msg Heq.
    pose proof (submit_failed_outcome msg st r Hr) as H.
    unfold bind in Heq. destruct (submit_failed E idx msg st) as [[] st1].
    unfold ret in Heq. inversion Heq; subst. exact H. }
  destruct response as [e|code text json]; [apply Hfail|].
  destruct (code =? 200)%Z; [|apply Hfail].
  destruct json as [data|m]; [|apply Hfail].
  destruct (code_is_zero data); [|apply Hfail].
  destruct (sj_id data) as [i|m]; [|apply Hfail].
  unfold bind at 1. unfold poll_for_result.
  pose proof (poll_rounds_settled i max_poll_attempts st r Hr) as Hs.
  destruct (poll_rounds E max_poll_attempts idx i st) as [[] st1]. cbn [snd] in Hs.
  unfold bind at 1. unfold current_status, bind, lookup_task, ret.
  destruct Hs as (r1 & Hr1 & Hend & Hst). rewrite Hr1.
  destruct Hst as [[Hc Hdisk]|Hf].
  - rewrite Hc. cbn [String.eqb Ascii.eqb Bool.eqb].
    intros Heq. inversion Heq; subst. cbn [attempt_outcome].
    split; [reflexivity|]. split.
    + exists r1. split; [exact Hr1|]. split; [exact Hend|]. left. split; assumption.
    + exists r1. split; assumption.
  - assert (Hne : (status r1 =? "completed") = false).
    { destruct Hf as [-> | ->]; reflexivity. }
    rewrite Hne. intros Heq. inversion Heq; subst. cbn [attempt_outcome]. split.
    + exists r1. split; assumption.
    + eapply settled_failed; eassumption.
Qed.

Lemma attempt_body_outcome p a st r :
  task_at idx st = Some r ->
  let out := attempt_body E idx p a st in
  attempt_outcome idx out.1 out.2.
Proof.
  intros Hr. cbv zeta.
  assert (Heq : exists st1 r1 response,
            attempt_body E idx p a st = handle_response E idx response st1 /\
            task_at idx st1 = Some r1).
  { unfold attempt_body.
    unfold bind at 1. rewrite (locked_update_eq E idx _ _ _ _ Hr).
    unfold bind at 1. rewrite rate_limit_eq.
    unfold bind at 1. unfold post_sora_video at 1. projs.
    eexists. eexists. eexists. split; [reflexivity|].
    apply task_at_insert. eapply task_at_length. exact Hr. }
  destruct Heq as (st1 & r1 & response & -> & Hr1).
  exact (handle_response_outcome response st1 r1 Hr1).
Qed.

Lemma retry_loop_outcome p fuel : forall a st r,
  task_at idx st = Some r ->
  (fuel + a = max_retries)%nat ->
  (fuel = 0%nat -> failed_at idx st) ->
  let out := retry_loop E fuel a idx p st in
  loop_outcome idx out.1 out.2.
Proof.
  induction fuel as [|fuel IH]; intros a st r Hr Hfa H0; cbv zeta.
  - exact (H0 eq_refl).
  - destruct (retry_loop E (S fuel) a idx p st) as [res st'] eqn:Heq. cbn [fst snd].
    revert Heq. cbn [retry_loop].
    unfold bind at 1. unfold read_is_running at 1. rewrite Hrun. cbn [negb].
    set (st1 := State _ _ _ _ _ _ _ _ _).
    assert (Hr1 : task_at idx st1 = Some r) by exact Hr.
    pose proof (attempt_body_outcome p a st1 r Hr1) as Ha. cbv zeta in Ha.
    unfold bind at 1.
    destruct (attempt_body E idx p a st1) as [fl st2]. cbn [fst snd] in Ha.
    destruct fl as [b| |]; cbn [attempt_outcome] in Ha.
    + unfold ret. intros Heq. inversion Heq; subst. exact Ha.
    + destruct Ha as [Hf Hs]. destruct Hf as (r2 & Hr2 & Hf2).
      intros Heq.
      pose proof (IH (S a) st2 r2 Hr2 ltac:(lia)
                    (fun _ => ex_intro _ r2 (conj Hr2 Hf2))) as H.
      cbv zeta in H. rewrite Heq in H. exact H.
    + destruct Ha as (r2 & Hr2 & Hs2).
      unfold retry_decision.
      destruct (Nat.ltb_spec a (max_retries - 1)) as [Hlt|Hge].
      2:{ unfold ret. intros Heq. inversion Heq; subst.
          exists r2. split; [exact Hr2|left; exact Hs2]. }
      unfold bind at 1. unfold current_status, lookup_task. unfold bind at 1.
      rewrite Hr2. unfold ret at 1. rewrite Hs2.
      cbn [String.eqb Ascii.eqb Bool.eqb].
      unfold bind at 1. unfold read_is_running at 1. rewrite Hrun.
      cbv zeta. unfold bind at 1. unfold time_sleep, emit.
      set (st3 := State _ _ _ _ _ _ _ _ _).
      assert (Hr3 : task_at idx st3 = Some r2) by exact Hr2.
      unfold bind at 1. rewrite (locked_update_eq E idx _ _ _ _ Hr3).
      intros Heq.
      match type of Heq with retry_loop _ _ _ _ _ ?s = _ =>
        assert (H : loop_outcome idx (retry_loop E fuel (S a) idx p s).1
                                     (retry_loop E fuel (S a) idx p s).2)
      end.
      { eapply IH.
        - apply task_at_insert. eapply task_at_length. exact Hr3.
        - lia.
        - unfold max_retries in *. lia. }
      rewrite Heq in H. exact H.
Qed.

Lemma finish_verdict st :
  failed_at idx st -> verdict idx (finish E idx st).
Proof.
  intros (r & Hr & Hf). unfold finish.
  unfold bind at 1. unfold current_status, lookup_task. unfold bind at 1.
  rewrite Hr. unfold ret at 1.
  assert (Hne : (status r =? "completed") = false).
  { destruct Hf as [-> | ->]; reflexivity. }
  rewrite Hne. unfold bind at 1. unfold bind at 1. rewrite Hr.
  destruct (end_time_unset r) eqn:Hu.
  - unfold bind at 1. unfold time_time at 1. unfold store, ret. cbn [fst snd].
    eexists. split; [apply task_at_insert; eapply task_at_length; exact Hr|].
    split; [discriminate|]. right. split; [reflexivity|exact Hf].
  - unfold ret. cbn [fst snd]. exists r. split; [exact Hr|]. split.
    + unfold end_time_unset in Hu. destruct (end_time r); [discriminate|discriminate].
    + right. split; [reflexivity|exact Hf].
Qed.

Lemma run_attempts_verdict p st r :
  task_at idx st = Some r -> verdict idx (run_attempts E idx p st).
Proof.
  intros Hr. unfold run_attempts.
  pose proof (retry_loop_outcome p max_retries 0 st r Hr ltac:(lia)
                ltac:(unfold max_retries; discriminate)) as Hl.
  cbv zeta in Hl. unfold bind.
  destruct (retry_loop E max_retries 0 idx p st) as [[b|] st1]; cbn [fst snd] in Hl.
  - cbn [loop_outcome] in Hl. destruct Hl as (-> & Hs & r1 & Hr1 & Hc).
    destruct Hs as (r1' & Hr1' & Hend & Hst).
    assert (r1' = r1) by congruence. subst r1'.
    exists r1. cbn [ret fst snd]. split; [exact Hr1|]. split; [exact Hend|].
    left. split; [reflexivity|]. split; [exact Hc|].
    destruct Hst as [[_ Hd]|[Hf|Hf]]; [exact Hd| |]; rewrite Hc in Hf; discriminate.
  - apply finish_verdict. exact Hl.
Qed.

Lemma generate_video_task_verdict prompt_ image_url aspect_ratio duration st :
  (idx < length (tasks st))%nat ->
  verdict idx (generate_video_task E idx prompt_ image_url aspect_ratio duration st).
Proof.
  intros Hlen. unfold generate_video_task.
  unfold bind at 1. unfold read_is_running at 1. rewrite Hrun. cbn [negb].
  unfold bind at 1. unfold get at 1. projs.
  replace (_ <=? _)%nat with false by (symmetry; apply Nat.leb_gt; exact Hlen).
  unfold bind at 1. unfold init_task, lookup_task.
  unfold bind at 1. unfold bind at 1. unfold time_time at 1.
  unfold bind at 1. unfold time_time at 1. projs. unfold store at 1. projs.
  set (r0 := upd_init _ _ _ _ _).
  set (st1 := State _ _ _ _ _ _ _ _ _).
  assert (Hr1 : task_at idx st1 = Some r0) by (apply task_at_insert; exact Hlen).
  cbv zeta.
  destruct (image_given image_url); [|apply (run_attempts_verdict _ st1 r0 Hr1)].
  destruct (Url.validate_url _); [apply (run_attempts_verdict _ st1 r0 Hr1)|].
  unfold bind. rewrite (locked_update_eq E idx _ _ _ _ Hr1). unfold ret.
  eexists. cbn [fst snd].
  split; [apply task_at_insert; eapply task_at_length; exact Hr1|].
  split; [discriminate|]. right. split; [reflexivity|left; reflexivity].
Qed.

(** How a job ends while the process runs.  When [is_running] stays
    true and the index is inside the table, the job leaves its record
    with [end_time] set and "completed", "failed" or "download_failed";
    it answers [True] exactly in the first case, and then the record
    names the path of a file on disk that is not empty. *)
Theorem running_job_reaches_verdict
    prompt_ image_url aspect_ratio duration st :
  (idx < length (tasks st))%nat ->
  let out := generate_video_task E idx prompt_ image_url aspect_ratio duration st in
  exists r,
    task_at idx out.2 = Some r /\ end_time r <> None /\
    (out.1 = true /\ status r = "completed" /\
       (exists path body,
          download_path r = Some path /\ files out.2 !! path = Some body /\ body <> [])
     \/
     out.1 = false /\ (status r = "failed" \/ status r = "download_failed")).
Proof.
  intros Hlen. cbv zeta.
  destruct (generate_video_task_verdict prompt_ image_url aspect_ratio duration st Hlen)
    as (r & Hr & Hend & Hst).
  exists r. split; [exact Hr|]. split; [exact Hend|].
  destruct Hst as [(Hb & Hs & Hd)|(Hb & Hf)].
  - left. split; [exact Hb|]. split; [exact Hs|exact Hd].
  - right. split; [exact Hb|exact Hf].
Qed.
End Verdict.

Lemma running_job_reaches_verdict_witness :
  (forall n, is_running Scenario.smooth n = true) /\
  exists r,
    task_at 0 (Scenario.run Scenario.smooth None).2 = Some r /\ end_time r <> None.
Proof.
  split; [intros n; reflexivity|].
  destruct (running_job_reaches_verdict Scenario.smooth 0 (fun n => eq_refl)
              "a cat" None "16:9" 15 (initial_state Scenario.table))
    as (r & Hr & Hend & _).
  - cbn. lia.
  - exists r. split; [exact Hr|exact Hend].
Defined.

(** ** [rate_limit_api_call] in one thread                              *)

Module RateLimiterFacts.
Import RateLimiter.

Lemma solo_step L G a c c' :
  solo_inv L G c -> step a c = Some c' -> solo_inv L G c'.
Proof.
  destruct c as [s threads]. unfold solo_inv at 1.
  destruct threads as [|p [|q rest]]; try contradiction.
  intros Hinv. destruct a as [d|i]; cbn [step].
  - destruct (Qle_bool 0 d) eqn:Hd; [|discriminate].
    apply Qle_bool_iff in Hd. intros [= <-]. cbn [solo_inv].
    destruct p; cbn [now last_api_call_time grants] in *;
      try (destruct Hinv as (H1 & H2 & H3); repeat split; try assumption; lra).
    destruct Hinv as (g & H1 & H2 & H3 & H4). exists g. repeat split; try assumption. lra.
  - destruct i as [|i]; [|discriminate]. cbn [lookup list_lookup].
    destruct p; cbn [thread_step].
    + destruct Hinv as (H1 & H2 & _). intros [= <-]. cbn. repeat split; try assumption. lra.
    + destruct Hinv as (H1 & H2 & H3). intros [= <-]. cbn. repeat split; try assumption.
      rewrite H1. lra.
    + destruct Hinv as (H1 & H2 & H3).
      destruct (Qlt_le_dec time_since_last_call 1); intros [= <-]; cbn;
        repeat split; try assumption; lra.
    + destruct Hinv as (H1 & H2 & H3).
      destruct (Qle_bool wake (now s)) eqn:Hw; [|discriminate].
      apply Qle_bool_iff in Hw. intros [= <-]. cbn. repeat split; try assumption. lra.
    + destruct Hinv as (H1 & H2 & H3). intros [= <-]. cbn.
      exists (now s). rewrite H2. repeat split; try assumption; lra.
    + discriminate.
Qed.

Lemma solo_exec L G sched : forall c c',
  solo_inv L G c -> exec sched c = Some c' -> solo_inv L G c'.
Proof.
  induction sched as [|a sched IH]; intros c c' Hinv; cbn [exec].
  - intros [= <-]. exact Hinv.
  - destruct (step a c) as [c1|] eqn:Hstep; [|discriminate].
    apply IH. eapply solo_step; eassumption.
Qed.

(** A call that runs alone.  When one thread runs
    [rate_limit_api_call] from its first statement to its return with
    no other thread in between, however the clock advances, it records
    exactly one grant, at least one second after the value the shared
    attribute had; grants that were spaced and not later than that
    value stay spaced. *)
Theorem solo_call_is_spaced sched s s' :
  exec sched (s, [AtReadClock]) = Some (s', [Done]) ->
  recorded s ->
  spaced (grants s) ->
  (exists g, grants s' = g :: grants s /\ last_api_call_time s' = g /\
             (last_api_call_time s + 1 <= g)%Q) /\
  recorded s' /\ spaced (grants s').
Proof.
  intros Hexec Hrec Hsp.
  assert (Hinv : solo_inv (last_api_call_time s) (grants s) (s', [Done])).
  { eapply solo_exec; [|exact Hexec]. cbn. repeat split. }
  cbn [solo_inv] in Hinv. destruct Hinv as (g & Hg & Hl & Hle & _).
  split; [exists g; repeat split; assumption|]. split.
  - unfold recorded. rewrite Hg, Hl. lra.
  - rewrite Hg. unfold recorded in Hrec.
    destruct (grants s) as [|g0 rest] eqn:Hgs; [exact I|].
    cbn [spaced]. split; [lra|exact Hsp].
Qed.

Lemma solo_call_is_spaced_witness :
  exists s',
    exec solo_schedule one_thread = Some (s', [Done]) /\
    grants s' = [11%Q; 10%Q] /\ spaced (grants s').
Proof.
  eexists. split; [vm_compute; reflexivity|]. split; [reflexivity|].
  refine (proj2 (proj2 (solo_call_is_spaced solo_schedule (Shared 10 10 [10%Q]) _ _ _ _))).
  - vm_compute. reflexivity.
  - cbn. lra.
  - exact I.
Defined.

End RateLimiterFacts.

(** ** The counters of the panel and of the wait loop                   *)

Lemma count_status_cons statuses o ts :
  count_status statuses (o :: ts) =
  ((if has_status statuses o then 1 else 0) + count_status statuses ts)%nat.
Proof. unfold count_status. cbn [List.filter]. destruct (has_status statuses o); reflexivity. Qed.

Lemma count_status_le statuses ts : (count_status statuses ts <= length ts)%nat.
Proof.
  induction ts as [|o ts IH]; [unfold count_status; cbn; lia|].
  rewrite count_status_cons. cbn [length]. destruct (has_status statuses o); lia.
Qed.

Lemma count_status_all statuses ts :
  count_status statuses ts = length ts <->
  Forall (fun o => has_status statuses o = true) ts.
Proof.
  induction ts as [|o ts IH].
  - split; [constructor|reflexivity].
  - rewrite count_status_cons. cbn [length].
    pose proof (count_status_le statuses ts) as Hle. split.
    + intros H. destruct (has_status statuses o) eqn:Ho; [|lia].
      constructor; [exact Ho|]. apply IH. lia.
    + intros H. inversion H as [|? ? Ho Hts]; subst. rewrite Ho.
      apply IH in Hts. lia.
Qed.

Lemma slot_columns o :
  ((if has_status ["completed"] o then 1 else 0) +
   (if has_status ["failed"; "download_failed"] o then 1 else 0) +
   (if has_status ["generating"; "pending"] o then 1 else 0)
   = if in_a_column o then 1 else 0)%nat /\
  ((if has_status ["completed"; "failed"; "download_failed"] o then 1 else 0)
   = (if has_status ["completed"] o then 1 else 0) +
     (if has_status ["failed"; "download_failed"] o then 1 else 0))%nat.
Proof.
  destruct o as [r|]; [|split; reflexivity].
  unfold in_a_column, has_status. cbn [existsb].
  destruct (String.eqb_spec (status r) "completed") as [->|H1]; [split; reflexivity|].
  destruct (String.eqb_spec (status r) "failed") as [->|H2]; [split; reflexivity|].
  destruct (String.eqb_spec (status r) "download_failed") as [->|H3]; [split; reflexivity|].
  destruct (String.eqb_spec (status r) "generating") as [->|H4]; [split; reflexivity|].
  destruct (String.eqb_spec (status r) "pending") as [H5|H5]; split; reflexivity.
Qed.

(** The columns of the panel.  The three counters of [display_progress]
    count disjoint slots, so their sum never exceeds the total; the sum
    is the total exactly when every slot holds a record whose status is
    one of the five the panel knows.  A record with any other status,
    such as the "succeeded" a poll reply leaves while the video is
    fetched, is in none of the columns. *)
Theorem panel_columns ts :
  (panel_completed ts + panel_failed ts + panel_running ts
     = count_status ["completed"; "failed"; "download_failed"; "generating"; "pending"] ts)%nat /\
  (panel_completed ts + panel_failed ts + panel_running ts <= panel_total ts)%nat /\
  ((panel_completed ts + panel_failed ts + panel_running ts = panel_total ts)%nat <->
   Forall (fun o => in_a_column o = true) ts).
Proof.
  assert (Hsum : (panel_completed ts + panel_failed ts + panel_running ts
     = count_status ["completed"; "failed"; "download_failed"; "generating"; "pending"] ts)%nat).
  { unfold panel_completed, panel_failed, panel_running.
    induction ts as [|o ts IH]; [reflexivity|].
    rewrite !count_status_cons. pose proof (proj1 (slot_columns o)) as H.
    unfold in_a_column in H. lia. }
  split; [exact Hsum|]. rewrite Hsum. split.
  - apply count_status_le.
  - unfold panel_total. apply count_status_all.
Qed.

(** The wait loop and the panel.  The number [run_generation] compares
    with the length of the table is the sum of the panel's completed
    and failed counters; when the loop ends on it, no slot is counted as
    running, and the failures of the summary, computed as the length
    minus the successes, are the failed counter of the panel. *)
Theorem wait_loop_counts ts :
  completed_count ts = (panel_completed ts + panel_failed ts)%nat /\
  (all_done ts = true ->
   panel_running ts = 0%nat /\ failed_count ts = panel_failed ts /\
   Forall (fun o => has_status ["completed"; "failed"; "download_failed"] o = true) ts).
Proof.
  assert (Hsum : completed_count ts = (panel_completed ts + panel_failed ts)%nat).
  { unfold completed_count, panel_completed, panel_failed.
    induction ts as [|o ts IH]; [reflexivity|].
    rewrite !count_status_cons. pose proof (proj2 (slot_columns o)) as H. lia. }
  split; [exact Hsum|]. intros Hdone. unfold all_done in Hdone.
  apply Nat.eqb_eq in Hdone.
  assert (Hcols : (panel_completed ts + panel_failed ts + panel_running ts
                   <= length ts)%nat).
  { unfold panel_completed, panel_failed, panel_running.
    clear. induction ts as [|o ts IH]; [cbn; lia|].
    rewrite !count_status_cons. cbn [length].
    pose proof (proj1 (slot_columns o)) as H. destruct (in_a_column o); lia. }
  split; [lia|]. split.
  - unfold failed_count, success_count. fold (panel_completed ts). lia.
  - apply count_status_all. exact Hdone.
Qed.

Lemma wait_loop_counts_witness :
  all_done finished_table = true /\ panel_running finished_table = 0%nat.
Proof.
  split; [reflexivity|].
  exact (proj1 (proj2 (wait_loop_counts finished_table) eq_refl)).
Defined.

(** ** The table [run_generation] builds                                *)

Lemma fresh_tasks_S E prompt_ count i st :
  fresh_tasks E i (S count) prompt_ st =
  let st2 := State (tasks st) (files st) (last_api_call_time st) (trace st)
               (n_running st) (S (S (n_clock st))) (n_submit st) (n_poll st)
               (n_download st) in
  (Some (Task i prompt_ "pending" 0 0 "" "" None
           (clock E (n_clock st)) (clock E (S (n_clock st))) None)
     :: (fresh_tasks E (S i) count prompt_ st2).1,
   (fresh_tasks E (S i) count prompt_ st2).2).
Proof.
  cbn [fresh_tasks]. unfold bind, time_time, ret.
  cbn [n_clock tasks files trace last_api_call_time n_running n_submit n_poll n_download].
  cbv zeta. destruct (fresh_tasks E (S i) count prompt_ _). reflexivity.
Qed.

Lemma fresh_tasks_spec E prompt_ count : forall i st,
  let out := fresh_tasks E i count prompt_ st in
  length out.1 = count /\
  (forall k, (k < count)%nat ->
     out.1 !! k =
     Some (Some (Task (i + k) prompt_ "pending" 0 0 "" "" None
                   (clock E (n_clock st + 2 * k))
                   (clock E (n_clock st + 2 * k + 1)) None))) /\
  tasks out.2 = tasks st /\ files out.2 = files st /\ trace out.2 = trace st /\
  n_clock out.2 = (n_clock st + 2 * count)%nat.
Proof.
  induction count as [|count IH]; intros i st; cbv zeta.
  - cbn. repeat split; try lia.
  - rewrite fresh_tasks_S. cbv zeta.
    set (st2 := State _ _ _ _ _ _ _ _ _).
    specialize (IH (S i) st2). cbv zeta in IH.
    destruct (fresh_tasks E (S i) count prompt_ st2) as [rest st3].
    cbn [fst snd] in *. destruct IH as (Hlen & Hk & Ht & Hf & Htr & Hc).
    subst st2. cbn [n_clock tasks files trace] in *.
    split; [cbn [length]; lia|]. split; [|repeat split; try assumption; lia].
    intros [|k] Hlt.
    + cbn [lookup list_lookup]. rewrite Nat.add_0_r, Nat.mul_0_r, Nat.add_0_r.
      replace (n_clock st + 1)%nat with (S (n_clock st)) by lia. reflexivity.
    + change ((Some (Task i prompt_ "pending" 0 0 "" "" None (clock E (n_clock st))
                      (clock E (S (n_clock st))) None) :: rest) !! S k)
        with (rest !! k).
      rewrite (Hk k ltac:(lia)).
      replace (S i + k)%nat with (i + S k)%nat by lia.
      replace (S (S (n_clock st)) + 2 * k)%nat with (n_clock st + 2 * S k)%nat by lia.
      reflexivity.
Qed.

(** The table at the start of a run.  For [video_count] videos
    [run_generation] builds that many records, numbered from 0 in
    order, each "pending" with progress and retry count 0, no error, no
    video URL and no [end_time], and with the two time stamps taken one
    after the other; none of them counts as done, and the panel shows
    all of them as running. *)
Theorem fresh_table_is_pending E video_count prompt_ st :
  let ts := (fresh_tasks E 0 video_count prompt_ st).1 in
  length ts = video_count /\
  (forall k, (k < video_count)%nat ->
     exists r, ts !! k = Some (Some r) /\ task_id r = k /\ prompt r = prompt_ /\
               fresh r /\ download_path r = None /\
               start_time r = clock E (n_clock st + 2 * k) /\
               last_update r = clock E (n_clock st + 2 * k + 1)) /\
  completed_count ts = 0%nat /\ panel_running ts = video_count.
Proof.
  cbv zeta.
  pose proof (fresh_tasks_spec E prompt_ video_count 0 st) as H. cbv zeta in H.
  destruct H as (Hlen & Hk & _).
  set (ts := (fresh_tasks E 0 video_count prompt_ st).1) in *.
  split; [exact Hlen|]. split.
  - intros k Hlt. eexists. split; [apply Hk; exact Hlt|].
    cbn. repeat split.
  - assert (Hall : Forall (fun o => has_status ["generating"; "pending"] o = true) ts).
    { apply Forall_lookup_2. intros k o Ho.
      assert (Hlt : (k < video_count)%nat) by (rewrite <- Hlen; eapply lookup_lt_Some; exact Ho).
      rewrite (Hk k Hlt) in Ho. injection Ho as <-. reflexivity. }
    assert (Hrun : panel_running ts = length ts) by (apply count_status_all; exact Hall).
    split; [|rewrite Hrun; exact Hlen].
    assert (Hnone : Forall (fun o => has_status ["completed"; "failed"; "download_failed"] o
                                     = false) ts).
    { apply Forall_lookup_2. intros k o Ho.
      assert (Hlt : (k < video_count)%nat) by (rewrite <- Hlen; eapply lookup_lt_Some; exact Ho).
      rewrite (Hk k Hlt) in Ho. injection Ho as <-. reflexivity. }
    unfold completed_count. clear Hlen Hk Hall Hrun. revert Hnone.
    generalize ts. intros l Hnone.
    induction Hnone as [|o l Ho _ IH]; [reflexivity|].
    rewrite count_status_cons, Ho, IH. reflexivity.
Qed.

(** ** The jobs of a run, one after the other                           *)

Section OneWorker.
Variable E : env.
Hypothesis Hrun : forall n, is_running E n = true.
Variables (prompt_ : string) (image_url : option string) (aspect_ratio : string)
          (duration : Z).

(** The slot holds a record that counts as done. *)
Local Abbreviation done_at i st :=
  (has_status ["completed"; "failed"; "download_failed"]
     (default None (tasks st !! i)) = true).

Lemma verdict_done i out : verdict i out -> done_at i out.2.
Proof.
  intros (r & Hr & _ & Hst). unfold task_at in Hr.
  destruct (tasks out.2 !! i) as [[r'|]|]; try discriminate.
  injection Hr as ->. cbn [default from_option id has_status existsb].
  destruct Hst as [(_ & -> & _)|(_ & [-> | ->])]; reflexivity.
Qed.

Lemma run_jobs_done order : forall st,
  let st' := (run_jobs E order prompt_ image_url aspect_ratio duration st).2 in
  length (tasks st') = length (tasks st) /\
  forall i, (i < length (tasks st))%nat -> In i order \/ done_at i st -> done_at i st'.
Proof.
  induction order as [|i0 rest IH]; intros st; cbv zeta; cbn [run_jobs].
  - split; [reflexivity|]. intros i _ [[]|H]. exact H.
  - rewrite bind_snd.
    pose proof (generate_video_task_same_others E i0 prompt_ image_url aspect_ratio
                  duration st) as [Hlen Hsame].
    pose proof (generate_video_task_verdict E i0 Hrun prompt_ image_url aspect_ratio
                  duration st) as Hv.
    set (st1 := (generate_video_task E i0 prompt_ image_url aspect_ratio duration st).2) in *.
    specialize (IH st1). cbv zeta in IH. destruct IH as [Hlen' Hdone].
    split; [congruence|]. intros i Hi Hor.
    apply Hdone; [rewrite Hlen; exact Hi|].
    destruct (Nat.eq_dec i i0) as [->|Hne].
    + right. exact (verdict_done _ _ (Hv Hi)).
    + destruct Hor as [[Heq|Hin]|Hd]; [congruence|left; exact Hin|].
      right. rewrite (Hsame i Hne). exact Hd.
Qed.

(** One worker.  When the process keeps running and the jobs of a run
    are executed one after the other, in any order that names every
    index of the table, every record counts as done afterwards: the
    test of the wait loop of [run_generation] succeeds. *)
Theorem one_worker_finishes_every_job order st :
  (forall i, (i < length (tasks st))%nat -> In i order) ->
  all_done (tasks (run_jobs E order prompt_ image_url aspect_ratio duration st).2) = true.
Proof.
  intros Hcover.
  pose proof (run_jobs_done order st) as H. cbv zeta in H. destruct H as [Hlen Hdone].
  unfold all_done. apply Nat.eqb_eq. unfold completed_count. apply count_status_all.
  apply Forall_lookup_2. intros k o Ho.
  assert (Hk : (k < length (tasks st))%nat)
    by (rewrite <- Hlen; eapply lookup_lt_Some; exact Ho).
  specialize (Hdone k Hk (or_introl (Hcover k Hk))).
  rewrite Ho in Hdone. exact Hdone.
Qed.
End OneWorker.

Lemma one_worker_finishes_every_job_witness :
  (forall n, is_running Scenario.smooth n = true) /\
  all_done (tasks (run_jobs Scenario.smooth [0%nat] "a cat" None "16:9" 15
                     (initial_state Scenario.table)).2) = true.
Proof.
  split; [intros n; reflexivity|].
  apply (one_worker_finishes_every_job Scenario.smooth (fun n => eq_refl)).
  intros i Hi. cbn in Hi. left. lia.
Defined.

(** ** [str.strip]                                                      *)

Section Strip.
Import Url.

Lemma string_app_cons c s t : String c s ++ t = String c (s ++ t).
Proof. reflexivity. Qed.

Lemma string_app_nil_r s : s ++ "" = s.
Proof.
  induction s as [|c s IH]; [reflexivity|]. rewrite string_app_cons, IH. reflexivity.
Qed.

Lemma string_app_assoc s t u : (s ++ t) ++ u = s ++ (t ++ u).
Proof.
  induction s as [|c s IH]; [reflexivity|]. rewrite !string_app_cons, IH. reflexivity.
Qed.

Lemma rev_onto_app s : forall acc, rev_onto s acc = Url.rev s ++ acc.
Proof.
  unfold Url.rev. induction s as [|c s IH]; intros acc; cbn [rev_onto].
  - reflexivity.
  - rewrite (IH (String c acc)), (IH (String c "")), string_app_assoc. reflexivity.
Qed.

Lemma rev_cons c s : Url.rev (String c s) = Url.rev s ++ String c "".
Proof. unfold Url.rev at 1. cbn [rev_onto]. apply rev_onto_app. Qed.

Lemma rev_app s t : Url.rev (s ++ t) = Url.rev t ++ Url.rev s.
Proof.
  induction s as [|c s IH].
  - change ("" ++ t) with t. change (Url.rev "") with "".
    rewrite string_app_nil_r. reflexivity.
  - rewrite string_app_cons, !rev_cons, IH, string_app_assoc. reflexivity.
Qed.

Lemma rev_rev s : Url.rev (Url.rev s) = s.
Proof.
  induction s as [|c s IH]; [reflexivity|].
  rewrite rev_cons, rev_app, IH. reflexivity.
Qed.

Lemma lstrip_snoc x c :
  is_space c = false -> lstrip (x ++ String c "") = lstrip x ++ String c "".
Proof.
  intros Hc. induction x as [|d x IH].
  - change ("" ++ String c "") with (String c ""). cbn [lstrip]. rewrite Hc. reflexivity.
  - rewrite string_app_cons. cbn [lstrip].
    destruct (is_space d); [exact IH|reflexivity].
Qed.

Lemma rstrip_cons c s :
  is_space c = false -> rstrip (String c s) = String c (rstrip s).
Proof.
  intros Hc. unfold rstrip. rewrite rev_cons, (lstrip_snoc _ _ Hc), rev_app. reflexivity.
Qed.

Lemma lstrip_trimmed s : trimmed_left (lstrip s).
Proof.
  induction s as [|c s IH]; [exact I|]. cbn [lstrip].
  destruct (is_space c) eqn:Hc; [exact IH|exact Hc].
Qed.

Lemma lstrip_fixed s : trimmed_left s -> lstrip s = s.
Proof. destruct s as [|c s]; [reflexivity|]. cbn. intros ->. reflexivity. Qed.

Lemma rstrip_trimmed s : trimmed_left s -> trimmed_left (rstrip s).
Proof.
  destruct s as [|c s]; [intros _; exact I|]. cbn [trimmed_left]. intros Hc.
  rewrite (rstrip_cons _ _ Hc). exact Hc.
Qed.

Lemma rstrip_idem s : rstrip (rstrip s) = rstrip s.
Proof.
  unfold rstrip. rewrite rev_rev, (lstrip_fixed _ (lstrip_trimmed _)). reflexivity.
Qed.

Lemma strip_idem s : strip (strip s) = strip s.
Proof.
  unfold strip.
  rewrite (lstrip_fixed (rstrip (lstrip s)) (rstrip_trimmed _ (lstrip_trimmed s))).
  apply rstrip_idem.
Qed.

Lemma strip_cons c s :
  is_space c = false -> strip (String c s) = String c (rstrip s).
Proof.
  intros Hc. unfold strip. cbn [lstrip]. rewrite Hc. apply rstrip_cons. exact Hc.
Qed.

End Strip.

(** ** The key, the credits and the questions                           *)

Module StartupFacts.
Import Startup.

Lemma starts_with_sk_strip s :
  starts_with_sk s = true -> starts_with_sk (Url.strip s) = true.
Proof.
  unfold starts_with_sk. destruct s as [|a [|b [|c t]]]; cbn [String.prefix]; try discriminate.
  - destruct (ascii_dec "s" a); discriminate.
  - destruct (ascii_dec "s" a); [|discriminate]. destruct (ascii_dec "k" b); discriminate.
  - destruct (ascii_dec "s" a) as [<-|]; [|discriminate].
    destruct (ascii_dec "k" b) as [<-|]; [|discriminate].
    destruct (ascii_dec "-" c) as [<-|]; [|discriminate]. intros _.
    rewrite (strip_cons "s" _ eq_refl), (rstrip_cons "k" _ eq_refl),
      (rstrip_cons "-" _ eq_refl).
    apply prefix_correct. cbn [String.length substring].
    destruct (Url.rstrip t); reflexivity.
Qed.

(** [validate_api_key].  A key passes exactly when it is a text that
    starts with "sk-" and has at least 10 characters, white space
    included; the key it stores is the text stripped, which still
    starts with "sk-"; a key that fails changes nothing. *)
Theorem api_key_check key a :
  let out := validate_api_key key a in
  ((out.1).1 = true <->
   exists s, key = Some s /\ starts_with_sk s = true /\ (10 <= String.length s)%nat) /\
  ((out.1).1 = true ->
   exists s, key = Some s /\ api_key out.2 = Some (Url.strip s) /\
             starts_with_sk (Url.strip s) = true /\
             credits out.2 = credits a /\ model_status out.2 = model_status a) /\
  ((out.1).1 = false -> out.2 = a).
Proof.
  cbv zeta. unfold validate_api_key.
  destruct key as [[|c s]|].
  - split; [split; [discriminate|]|split; [discriminate|reflexivity]].
    intros (s & [= <-] & _ & H). cbn in H. lia.
  - set (k := String c s).
    destruct (starts_with_sk k) eqn:Hsk; cbn [negb].
    + destruct (Nat.ltb_spec (String.length k) 10) as [Hlt|Hge]; cbn [fst snd].
      * split; [split; [discriminate|]|split; [discriminate|reflexivity]].
        intros (s' & [= <-] & _ & H). lia.
      * split; [split; [|reflexivity]|split; [|discriminate]].
        -- intros _. exists k. repeat split; assumption.
        -- intros _. exists k. cbn [api_key credits model_status].
           repeat split. apply starts_with_sk_strip. exact Hsk.
    + cbn [fst snd]. split; [split; [discriminate|]|split; [discriminate|reflexivity]].
      intros (s' & [= <-] & H & _). congruence.
  - split; [split; [discriminate|]|split; [discriminate|reflexivity]].
    intros (s & [=] & _).
Qed.

(** [load_config].  It succeeds exactly when the file is a JSON object
    whose "api_key" is a text that starts with "sk-" and has at least
    10 characters; the key it leaves in the application is then that
    text as it stands in the file, not the stripped one
    [validate_api_key] stored.  When it fails the key of the
    application is as before, and the sample file has been written
    exactly when there was no file. *)
Theorem loaded_key_is_the_text_of_the_file cfg a :
  let out := load_config cfg a in
  (out.1 = true <->
   exists s, cfg = Config (KeyText s) /\ starts_with_sk s = true /\
             (10 <= String.length s)%nat) /\
  (out.1 = true ->
   exists s, cfg = Config (KeyText s) /\ api_key out.2 = Some s /\
             config_written out.2 = config_written a) /\
  (out.1 = false ->
   api_key out.2 = api_key a /\
   config_written out.2 = (match cfg with NoFile => true | _ => config_written a end)).
Proof.
  cbv zeta. unfold load_config.
  destruct cfg as [| | | |[|s|]];
    try (split; [split; [discriminate|intros (s' & [=] & _)]
                |split; [discriminate|intros _; split; reflexivity]]).
  destruct s as [|c s].
  { split; [split; [discriminate|]|split; [discriminate|intros _; split; reflexivity]].
    intros (s' & [= <-] & _ & H). cbn in H. lia. }
  set (k := String c s).
  unfold validate_api_key. fold k.
  destruct (starts_with_sk k) eqn:Hsk; cbn [negb].
  - destruct (Nat.ltb_spec (String.length k) 10) as [Hlt|Hge]; cbn [negb fst snd].
    + split; [split; [discriminate|]|split; [discriminate|intros _; split; reflexivity]].
      intros (s' & [= <-] & _ & H). lia.
    + split; [split; [|reflexivity]|split; [|discriminate]].
      * intros _. exists k. repeat split; assumption.
      * intros _. exists k. repeat split.
  - cbn [fst snd]. split; [split; [discriminate|]|split; [discriminate|intros _; split; reflexivity]].
    intros (s' & [= <-] & H & _). congruence.
Qed.

(** [get_credits].  Without a key no request is sent.  The credits are
    taken over exactly when the reply has status 200 and code 0 and
    carries them; otherwise the application is unchanged. *)
Theorem credits_need_a_key_and_code_zero reply a :
  let out := get_credits reply a in
  (no_key a = true -> out = (false, a, false)) /\
  ((out.1).1 = true <->
   no_key a = false /\
   exists c, reply = StatusResponse 200 (Some (StatusBody (Some 0%Z) (Some c))) /\
             (out.1).2 = App (api_key a) c (model_status a) (config_written a)) /\
  ((out.1).1 = false -> (out.1).2 = a).
Proof.
  cbv zeta. unfold get_credits. destruct (no_key a).
  { split; [reflexivity|]. split; [|reflexivity]. split; [discriminate|]. intros [H _]. discriminate. }
  split; [discriminate|].
  destruct reply as [|code [[[z|] [c|]]|]]; cbn [fst snd];
    try (split; [split; [discriminate|intros (_ & c' & [=] & _)]|reflexivity]).
  destruct (Z.eqb_spec code 200) as [->|Hc]; cbn [andb].
  - destruct (Z.eqb_spec z 0) as [->|Hz]; cbn [fst snd].
    + split; [|discriminate]. split; [|reflexivity]. intros _. split; [reflexivity|].
      exists c. split; reflexivity.
    + split; [|reflexivity]. split; [discriminate|].
      intros (_ & c' & [= -> ->] & _). congruence.
  - cbn [fst snd]. split; [|reflexivity]. split; [discriminate|].
    intros (_ & c' & [= -> -> ->] & _). congruence.
Qed.

Section Dialogue.
Variable int : string -> option Z.

Lemma reads_one e rest : is_line e = true -> reads (e :: rest) [e] rest.
Proof. intros H. split; [reflexivity|]. split; [discriminate|]. repeat constructor. exact H. Qed.

Lemma reads_more e inputs used rest :
  is_line e = true -> reads inputs used rest -> reads (e :: inputs) (e :: used) rest.
Proof.
  intros H (-> & _ & Hall). split; [reflexivity|]. split; [discriminate|].
  constructor; assumption.
Qed.

Lemma reads_then inputs used1 mid used2 rest :
  reads inputs used1 mid -> reads mid used2 rest ->
  reads inputs (used1 ++ used2) rest.
Proof.
  intros (-> & Hne & H1) (-> & _ & H2). split; [apply app_assoc|].
  split; [destruct used1; [congruence|discriminate]|].
  apply Forall_app. split; assumption.
Qed.

Lemma ask_count_spec inputs n rest :
  ask_count int inputs = Got n rest ->
  (1 <= n <= Z.of_nat max_video_count)%Z /\ exists used, reads inputs used rest.
Proof.
  induction inputs as [|e inputs IH]; cbn [ask_count]; [discriminate|].
  destruct e as [l| |]; try discriminate. cbv zeta.
  assert (Hrec : ask_count int inputs = Got n rest ->
                 (1 <= n <= Z.of_nat max_video_count)%Z /\
                 exists used, reads (Line l :: inputs) used rest).
  { intros H. destruct (IH H) as [Hn [used Hu]]. split; [exact Hn|].
    exists (Line l :: used). apply reads_more; [reflexivity|exact Hu]. }
  destruct (Url.strip l) as [|c s].
  - intros [= <- <-]. split; [unfold max_video_count; lia|].
    exists [Line l]. apply reads_one. reflexivity.
  - destruct (int (String c s)) as [m|]; [|exact Hrec].
    destruct ((1 <=? m)%Z && (m <=? Z.of_nat max_video_count)%Z) eqn:Hm; [|exact Hrec].
    intros [= <- <-]. apply andb_true_iff in Hm. destruct Hm as [H1 H2].
    apply Z.leb_le in H1, H2. split; [lia|].
    exists [Line l]. apply reads_one. reflexivity.
Qed.

Lemma ask_prompt_spec inputs p rest :
  ask_prompt inputs = Got p rest ->
  p <> "" /\ Url.strip p = p /\ exists used, reads inputs used rest.
Proof.
  induction inputs as [|e inputs IH]; cbn [ask_prompt]; [discriminate|].
  destruct e as [l| |]; try discriminate.
  destruct (Url.strip l) as [|c s] eqn:Hs.
  - intros H. destruct (IH H) as (H1 & H2 & used & Hu). split; [exact H1|].
    split; [exact H2|]. exists (Line l :: used). apply reads_more; [reflexivity|exact Hu].
  - intros [= <- <-]. split; [discriminate|]. split.
    + rewrite <- Hs. apply strip_idem.
    + exists [Line l]. apply reads_one. reflexivity.
Qed.

Lemma ask_image_spec inputs u rest :
  ask_image inputs = Got u rest ->
  (u = "" \/ Url.validate_url (Some u) = true) /\ Url.strip u = u /\
  exists used, reads inputs used rest.
Proof.
  induction inputs as [|e inputs IH]; cbn [ask_image]; [discriminate|].
  destruct e as [l| |]; try discriminate. cbv zeta.
  destruct (nonempty (Url.strip l) && negb (Url.validate_url (Some (Url.strip l)))) eqn:Hc.
  - intros H. destruct (IH H) as (H1 & H2 & used & Hu). split; [exact H1|].
    split; [exact H2|]. exists (Line l :: used). apply reads_more; [reflexivity|exact Hu].
  - intros [= <- <-]. split; [|split; [apply strip_idem|]].
    + apply andb_false_iff in Hc. destruct Hc as [Hc|Hc].
      * left. destruct (Url.strip l); [reflexivity|discriminate].
      * right. apply negb_false_iff. exact Hc.
    + exists [Line l]. apply reads_one. reflexivity.
Qed.

Lemma ask_aspect_spec inputs x rest :
  ask_aspect inputs = Got x rest ->
  (x = "16:9" \/ x = "9:16") /\ exists used, reads inputs used rest.
Proof.
  induction inputs as [|e inputs IH]; cbn [ask_aspect]; [discriminate|].
  destruct e as [l| |]; try discriminate. cbv zeta.
  assert (Hone : exists used, reads (Line l :: inputs) used inputs)
    by (exists [Line l]; apply reads_one; reflexivity).
  destruct (negb (nonempty (Url.strip l))).
  { intros [= <- <-]. split; [left; reflexivity|exact Hone]. }
  destruct (Url.strip l =? "0").
  { intros [= <- <-]. split; [left; reflexivity|exact Hone]. }
  destruct (Url.strip l =? "1").
  { intros [= <- <-]. split; [right; reflexivity|exact Hone]. }
  intros H. destruct (IH H) as (H1 & used & Hu). split; [exact H1|].
  exists (Line l :: used). apply reads_more; [reflexivity|exact Hu].
Qed.

Lemma ask_duration_spec inputs d rest :
  ask_duration inputs = Got d rest ->
  (d = 10 \/ d = 15)%Z /\ exists used, reads inputs used rest.
Proof.
  induction inputs as [|e inputs IH]; cbn [ask_duration]; [discriminate|].
  destruct e as [l| |]; try discriminate. cbv zeta.
  assert (Hone : exists used, reads (Line l :: inputs) used inputs)
    by (exists [Line l]; apply reads_one; reflexivity).
  destruct (negb (nonempty (Url.strip l))).
  { intros [= <- <-]. split; [right; reflexivity|exact Hone]. }
  destruct (Url.strip l =? "0").
  { intros [= <- <-]. split; [left; reflexivity|exact Hone]. }
  destruct (Url.strip l =? "1").
  { intros [= <- <-]. split; [right; reflexivity|exact Hone]. }
  intros H. destruct (IH H) as (H1 & used & Hu). split; [exact H1|].
  exists (Line l :: used). apply reads_more; [reflexivity|exact Hu].
Qed.

Lemma confirmed_spec inputs :
  confirmed inputs = true ->
  exists l after, inputs = Line l :: after /\
    (lower (Url.strip l) = "y" \/ lower (Url.strip l) = "yes").
Proof.
  destruct inputs as [|[l| |] after]; try discriminate. cbn [confirmed]. cbv zeta.
  intros H. exists l, after. split; [reflexivity|].
  apply orb_true_iff in H. destruct H as [H|H]; apply String.eqb_eq in H; [left|right]; exact H.
Qed.

(** What [ask_params] answers with. *)
Lemma ask_params_spec a inputs p :
  ask_params int a inputs = Some p ->
  ((1 <= video_count p <= Z.of_nat max_video_count)%Z /\
   (video_count p * 1600 <= credits a)%Z /\
   prompt p <> "" /\ Url.strip (prompt p) = prompt p /\
   (image_url p = "" \/ Url.validate_url (Some (image_url p)) = true) /\
   Url.strip (image_url p) = image_url p /\
   (aspect_ratio p = "16:9" \/ aspect_ratio p = "9:16") /\
   (duration p = 10 \/ duration p = 15)%Z) /\
  exists used l after,
    inputs = (used ++ Line l :: after)%list /\
    Forall (fun e => is_line e = true) used /\ (5 <= length used)%nat /\
    (lower (Url.strip l) = "y" \/ lower (Url.strip l) = "yes").
Proof.
  unfold ask_params.
  destruct (ask_count int inputs) as [n r1|] eqn:H1; [|discriminate]. cbv zeta.
  destruct (credits a <? n * 1600)%Z eqn:Hcr; [discriminate|].
  destruct (ask_prompt r1) as [pr r2|] eqn:H2; [|discriminate].
  destruct (ask_image r2) as [u r3|] eqn:H3; [|discriminate].
  destruct (ask_aspect r3) as [x r4|] eqn:H4; [|discriminate].
  destruct (ask_duration r4) as [d r5|] eqn:H5; [|discriminate].
  destruct (confirmed r5) eqn:H6; [|discriminate].
  intros [= <-]. cbn [video_count prompt image_url aspect_ratio duration].
  apply ask_count_spec in H1. destruct H1 as [Hn [u1 Hu1]].
  apply ask_prompt_spec in H2. destruct H2 as (Hp1 & Hp2 & u2 & Hu2).
  apply ask_image_spec in H3. destruct H3 as (Hi1 & Hi2 & u3 & Hu3).
  apply ask_aspect_spec in H4. destruct H4 as (Ha & u4 & Hu4).
  apply ask_duration_spec in H5. destruct H5 as (Hd & u5 & Hu5).
  apply confirmed_spec in H6. destruct H6 as (l & after & -> & Hyes).
  apply Z.ltb_ge in Hcr.
  split; [repeat split; try assumption; lia|].
  pose proof (reads_then _ _ _ _ _ Hu1
                (reads_then _ _ _ _ _ Hu2
                   (reads_then _ _ _ _ _ Hu3 (reads_then _ _ _ _ _ Hu4 Hu5))))
    as (Heq & _ & Hall).
  exists (u1 ++ u2 ++ u3 ++ u4 ++ u5)%list, l, after.
  split; [exact Heq|]. split; [exact Hall|]. split; [|exact Hyes].
  destruct Hu1 as (_ & N1 & _), Hu2 as (_ & N2 & _), Hu3 as (_ & N3 & _),
    Hu4 as (_ & N4 & _), Hu5 as (_ & N5 & _).
  rewrite !length_app.
  destruct u1; [congruence|]. destruct u2; [congruence|]. destruct u3; [congruence|].
  destruct u4; [congruence|]. destruct u5; [congruence|]. cbn [length]. lia.
Qed.

Lemma get_user_input_spec cfg credits_reply model_reply inputs a p a' :
  get_user_input int cfg credits_reply model_reply inputs a = (Some p, a') ->
  (exists s, cfg = Config (KeyText s) /\ api_key a' = Some s /\
             starts_with_sk s = true /\ (10 <= String.length s)%nat) /\
  (exists c, credits_reply = StatusResponse 200 (Some (StatusBody (Some 0%Z) (Some c))) /\
             credits a' = c) /\
  ask_params int a' inputs = Some p.
Proof.
  unfold get_user_input.
  destruct (load_config cfg a) as [loaded a1] eqn:Hl.
  destruct loaded; cbn [negb]; [|discriminate].
  destruct (get_credits credits_reply a1) as [[ok a2] sent] eqn:Hc.
  destruct ok; cbn [negb]; [|discriminate].
  destruct (check_model_status model_reply a2) as [m a3] eqn:Hm.
  intros [= Hp <-].
  assert (Hkey : exists s, cfg = Config (KeyText s) /\ api_key a1 = Some s /\
                           starts_with_sk s = true /\ (10 <= String.length s)%nat).
  { revert Hl. unfold load_config.
    destruct cfg as [| | | |[|s|]]; try discriminate.
    destruct s as [|c s]; [discriminate|]. set (k := String c s).
    unfold validate_api_key. fold k.
    destruct (starts_with_sk k) eqn:Hsk; cbn [negb]; [|discriminate].
    destruct (Nat.ltb_spec (String.length k) 10); cbn [negb]; [discriminate|].
    intros [= <-]. exists k. repeat split; assumption. }
  assert (Hcred : exists c,
            credits_reply = StatusResponse 200 (Some (StatusBody (Some 0%Z) (Some c))) /\
            a2 = App (api_key a1) c (model_status a1) (config_written a1)).
  { revert Hc. unfold get_credits. destruct (no_key a1); [discriminate|].
    destruct credits_reply as [|code [[[z|] [c|]]|]]; try discriminate.
    destruct (Z.eqb_spec code 200) as [->|]; cbn [andb]; [|discriminate].
    destruct (Z.eqb_spec z 0) as [->|]; [|discriminate].
    intros [= <- _]. exists c. split; reflexivity. }
  assert (Hmod : api_key a3 = api_key a2 /\ credits a3 = credits a2).
  { revert Hm. unfold check_model_status.
    destruct model_reply as [|code [[[z|] [b|]]|]]; try (intros [= _ <-]; split; reflexivity).
    destruct ((code =? 200)%Z && (z =? 0)%Z); intros [= _ <-]; split; reflexivity. }
  destruct Hkey as (s & Hcfg & Hk & Hsk & Hlen).
  destruct Hcred as (c & Hr & ->). destruct Hmod as [Hm1 Hm2]. cbn in Hm1, Hm2.
  split; [exists s; rewrite Hm1; repeat split; assumption|].
  split; [exists c; split; [exact Hr|exact Hm2]|]. exact Hp.
Qed.

(** The parameters of a run.  [get_user_input] hands out parameters
    only with a key loaded from the file, with credits a 200 reply with
    code 0 reported, and with answers that were checked: between 1 and
    [max_video_count] videos that the credits pay at 1600 each, a
    prompt that is not empty, an image URL that is empty or passes
    [validate_url], one of the two aspect ratios and one of the two
    durations, prompt and URL without surrounding white space. *)
Theorem user_input_is_checked cfg credits_reply model_reply inputs a p a' :
  get_user_input int cfg credits_reply model_reply inputs a = (Some p, a') ->
  (exists s, cfg = Config (KeyText s) /\ api_key a' = Some s /\
             starts_with_sk s = true /\ (10 <= String.length s)%nat) /\
  (exists c, credits_reply = StatusResponse 200 (Some (StatusBody (Some 0%Z) (Some c))) /\
             credits a' = c) /\
  (1 <= video_count p <= Z.of_nat max_video_count)%Z /\
  (video_count p * 1600 <= credits a')%Z /\
  prompt p <> "" /\ Url.strip (prompt p) = prompt p /\
  (image_url p = "" \/ Url.validate_url (Some (image_url p)) = true) /\
  Url.strip (image_url p) = image_url p /\
  (aspect_ratio p = "16:9" \/ aspect_ratio p = "9:16") /\
  (duration p = 10 \/ duration p = 15)%Z.
Proof.
  intros H. apply get_user_input_spec in H. destruct H as (Hk & Hc & Hp).
  apply ask_params_spec in Hp. destruct Hp as [(H1 & H2 & H3 & H4 & H5 & H6 & H7 & H8) _].
  repeat (split; [assumption|]). assumption.
Qed.

(** No parameters without a yes.  When [get_user_input] hands out
    parameters, every call of [input] it made returned a line, none
    ended the input or was interrupted; it read at least five lines for
    the five questions, and the line it read last, stripped and in
    lower case, is "y" or "yes". *)
Theorem params_come_with_a_yes cfg credits_reply model_reply inputs a p a' :
  get_user_input int cfg credits_reply model_reply inputs a = (Some p, a') ->
  exists used l after,
    inputs = (used ++ Line l :: after)%list /\
    Forall (fun e => is_line e = true) used /\ (5 <= length used)%nat /\
    (lower (Url.strip l) = "y" \/ lower (Url.strip l) = "yes").
Proof.
  intros H. apply get_user_input_spec in H. destruct H as (_ & _ & Hp).
  apply ask_params_spec in Hp. exact (proj2 Hp).
Qed.

(** From the questions to the jobs.  The image URL [get_user_input]
    hands out is never rejected by [generate_video_task]: the request
    carries it as it is when it is not empty and carries no URL
    otherwise, and no job writes the failure for an invalid image URL.
    The number of workers [run_generation] asks for is at least 1 and
    at most [max_workers]. *)
Theorem user_input_fits_the_jobs cfg credits_reply model_reply inputs a p a' :
  get_user_input int cfg credits_reply model_reply inputs a = (Some p, a') ->
  image_rejected (Some (image_url p)) = false /\
  p_url (job_payload (prompt p) (Some (image_url p)) (aspect_ratio p) (duration p))
    = (if nonempty (image_url p) then Some (image_url p) else None) /\
  (forall E ts idx r,
     ~ In (WInvalidUrl, r)
          (writes_of idx
             (history (run_job E ts idx (prompt p) (Some (image_url p))
                         (aspect_ratio p) (duration p)).2))) /\
  (1 <= worker_count (Z.to_nat (video_count p)) <= max_workers)%nat /\
  (worker_count (Z.to_nat (video_count p)) <= Z.to_nat (video_count p))%nat.
Proof.
  intros H. apply get_user_input_spec in H. destruct H as (_ & _ & Hp).
  apply ask_params_spec in Hp. destruct Hp as [(H1 & _ & _ & _ & H5 & H6 & _) _].
  assert (Hrej : image_rejected (Some (image_url p)) = false).
  { unfold image_rejected, image_given. cbn [default from_option id]. rewrite H6.
    destruct H5 as [-> | ->]; [reflexivity|]. apply andb_false_r. }
  split; [exact Hrej|]. split; [|split].
  - unfold job_payload, image_given. cbn [default from_option id]. rewrite H6.
    destruct (nonempty (image_url p)); reflexivity.
  - intros E ts idx r Hin. unfold history in Hin. rewrite writes_of_rev in Hin.
    apply in_rev in Hin.
    destruct (chain_invalid_url E (Some (image_url p)) _ r
                (run_job_chain E ts idx (prompt p) (Some (image_url p))
                   (aspect_ratio p) (duration p)) Hin) as [Hg Hv].
    unfold image_rejected in Hrej. rewrite Hg, Hv in Hrej. discriminate.
  - unfold worker_count, max_workers, max_video_count in *. lia.
Qed.
End Dialogue.

Lemma user_input_is_checked_witness :
  get_user_input decimal session_config session_credits session_model session new_app
    = (Some (Params 2 "a cat" "" "9:16" 10),
       App (Some "sk-0123456789") 5000 false false) /\
  (exists s, session_config = Config (KeyText s) /\ starts_with_sk s = true) /\
  (2 * 1600 <= 5000)%Z.
Proof.
  split; [vm_compute; reflexivity|].
  destruct (user_input_is_checked decimal session_config session_credits session_model
              session new_app
              (Params 2 "a cat" "" "9:16" 10)
              (App (Some "sk-0123456789") 5000 false false)
              ltac:(vm_compute; reflexivity))
    as ((s & Hs & _ & Hsk & _) & _ & _ & Hc & _).
  split; [exists s; split; [exact Hs|exact Hsk]|exact Hc].
Defined.

Lemma params_come_with_a_yes_witness :
  exists used l after,
    session = (used ++ Line l :: after)%list /\
    (lower (Url.strip l) = "y" \/ lower (Url.strip l) = "yes").
Proof.
  destruct (params_come_with_a_yes decimal session_config session_credits session_model
              session new_app
              (Params 2 "a cat" "" "9:16" 10)
              (App (Some "sk-0123456789") 5000 false false)
              ltac:(vm_compute; reflexivity))
    as (used & l & after & H1 & _ & _ & H2).
  exists used, l, after. split; [exact H1|exact H2].
Defined.

Lemma user_input_fits_the_jobs_witness :
  image_rejected (Some "") = false /\
  (1 <= worker_count 2 <= max_workers)%nat.
Proof.
  destruct (user_input_fits_the_jobs decimal session_config session_credits session_model
              session new_app
              (Params 2 "a cat" "" "9:16" 10)
              (App (Some "sk-0123456789") 5000 false false)
              ltac:(vm_compute; reflexivity))
    as (H1 & _ & _ & H2 & _).
  split; [exact H1|exact H2].
Defined.

End StartupFacts.

(** ** Matching by derivatives                                          *)

Section Regex.
Import Url.

Lemma fullmatch_Void s : fullmatch Void s = false.
Proof. induction s as [|c s IH]; [reflexivity|exact IH]. Qed.

Lemma fullmatch_Eps s : fullmatch Eps s = true <-> s = "".
Proof.
  destruct s as [|c s]; [split; reflexivity|].
  cbn [fullmatch deriv]. rewrite fullmatch_Void. split; discriminate.
Qed.

Lemma fullmatch_Alt s : forall a b,
  fullmatch (Alt a b) s = fullmatch a s || fullmatch b s.
Proof.
  induction s as [|c s IH]; intros a b; [reflexivity|].
  cbn [fullmatch deriv].
  destruct (deriv c a) eqn:Ha; destruct (deriv c b) eqn:Hb; cbn [alt];
    rewrite ?IH, ?fullmatch_Void, ?orb_false_r; reflexivity.
Qed.

Lemma fullmatch_alt a b s : fullmatch (alt a b) s = fullmatch a s || fullmatch b s.
Proof.
  destruct a; destruct b; cbn [alt];
    rewrite ?fullmatch_Alt, ?fullmatch_Void, ?orb_false_r; reflexivity.
Qed.

Lemma cat_Void_r a : cat a Void = Void.
Proof. destruct a; reflexivity. Qed.

Lemma cat_Eps_r a : cat a Eps = a.
Proof. destruct a; reflexivity. Qed.

Lemma alt_Void_r a : alt a Void = a.
Proof. destruct a; reflexivity. Qed.

Lemma fullmatch_Cat_Void_l r s : fullmatch (Cat Void r) s = false.
Proof. destruct s as [|c s]; [reflexivity|]. cbn. apply fullmatch_Void. Qed.

Lemma fullmatch_Cat_Void_r a s : fullmatch (Cat a Void) s = false.
Proof.
  destruct s as [|c s]; [cbn; apply andb_false_r|].
  cbn [fullmatch deriv]. rewrite cat_Void_r.
  destruct (nullable a); cbn [alt]; apply fullmatch_Void.
Qed.

Lemma fullmatch_Cat_Eps_l r s : fullmatch (Cat Eps r) s = fullmatch r s.
Proof. destruct s as [|c s]; reflexivity. Qed.

Lemma fullmatch_Cat_Eps_r a s : fullmatch (Cat a Eps) s = fullmatch a s.
Proof.
  destruct s as [|c s]; [cbn; apply andb_true_r|].
  cbn [fullmatch deriv]. rewrite cat_Eps_r.
  destruct (nullable a); [rewrite alt_Void_r|]; reflexivity.
Qed.

Lemma fullmatch_cat a b s : fullmatch (cat a b) s = fullmatch (Cat a b) s.
Proof.
  destruct a; destruct b; cbn [cat];
    rewrite ?fullmatch_Cat_Void_l, ?fullmatch_Cat_Void_r, ?fullmatch_Cat_Eps_l,
      ?fullmatch_Cat_Eps_r, ?fullmatch_Void;
    reflexivity.
Qed.

(** A word of [Cat a b] is a word of [a] followed by a word of [b]. *)
Lemma fullmatch_Cat b s : forall a,
  fullmatch (Cat a b) s = true <->
  exists s1 s2, s = s1 ++ s2 /\ fullmatch a s1 = true /\ fullmatch b s2 = true.
Proof.
  induction s as [|c s IH]; intros a.
  - cbn [fullmatch nullable]. rewrite andb_true_iff. split.
    + intros [Ha Hb]. exists "", "". repeat split; assumption.
    + intros (s1 & s2 & Heq & Ha & Hb).
      destruct s1; [|discriminate]. destruct s2; [|discriminate]. split; assumption.
  - cbn [fullmatch deriv].
    assert (Hstep : fullmatch (Cat (deriv c a) b) s = true <->
                    exists s1 s2, String c s = String c s1 ++ s2 /\
                                  fullmatch a (String c s1) = true /\
                                  fullmatch b s2 = true).
    { rewrite IH. split; intros (s1 & s2 & Heq & Ha & Hb); exists s1, s2.
      - subst s. repeat split; assumption.
      - rewrite string_app_cons in Heq. injection Heq as ->. repeat split; assumption. }
    destruct (nullable a) eqn:Hn.
    + rewrite fullmatch_alt, fullmatch_cat, orb_true_iff, Hstep. split.
      * intros [(s1 & s2 & Heq & Ha & Hb)|Hb].
        -- exists (String c s1), s2. repeat split; assumption.
        -- exists "", (String c s). repeat split; assumption.
      * intros (s1 & s2 & Heq & Ha & Hb). destruct s1 as [|c1 s1].
        -- right. change ("" ++ s2) with s2 in Heq. subst s2. exact Hb.
        -- left. rewrite string_app_cons in Heq. injection Heq as <- ->.
           exists s1, s2. repeat split; assumption.
    + rewrite fullmatch_cat, Hstep. split.
      * intros (s1 & s2 & Heq & Ha & Hb). exists (String c s1), s2.
        repeat split; assumption.
      * intros (s1 & s2 & Heq & Ha & Hb). destruct s1 as [|c1 s1].
        -- cbn [fullmatch] in Ha. congruence.
        -- rewrite string_app_cons in Heq. injection Heq as <- ->.
           exists s1, s2. repeat split; assumption.
Qed.

Lemma deriv_out P c r :
  classes P r -> P c = false -> deriv c r = Void.
Proof.
  intros Hr Hc. induction r as [| |p|r1 IH1 r2 IH2|r1 IH1 r2 IH2|r1 IH1]; cbn [deriv].
  - reflexivity.
  - reflexivity.
  - destruct (p c) eqn:Hp; [|reflexivity].
    rewrite (Hr c Hp) in Hc. discriminate.
  - destruct Hr as [H1 H2]. rewrite (IH1 H1), (IH2 H2).
    destruct (nullable r1); reflexivity.
  - destruct Hr as [H1 H2]. rewrite (IH1 H1), (IH2 H2). reflexivity.
  - rewrite (IH1 Hr). reflexivity.
Qed.

Lemma classes_cat P a b : classes P a -> classes P b -> classes P (cat a b).
Proof. intros Ha Hb. destruct a; destruct b; cbn [cat]; try exact I; try assumption; split; assumption. Qed.

Lemma classes_alt P a b : classes P a -> classes P b -> classes P (alt a b).
Proof. intros Ha Hb. destruct a; destruct b; cbn [alt]; try exact I; try assumption; split; assumption. Qed.

Lemma classes_deriv P c r : classes P r -> classes P (deriv c r).
Proof.
  induction r as [| |p|r1 IH1 r2 IH2|r1 IH1 r2 IH2|r1 IH1]; cbn [deriv]; intros Hr.
  - exact I.
  - exact I.
  - destruct (p c); exact I.
  - destruct Hr as [H1 H2].
    destruct (nullable r1).
    + apply classes_alt; [apply classes_cat; [apply IH1; exact H1|exact H2]|apply IH2; exact H2].
    + apply classes_cat; [apply IH1; exact H1|exact H2].
  - destruct Hr as [H1 H2]. apply classes_alt; [apply IH1; exact H1|apply IH2; exact H2].
  - apply classes_cat; [apply IH1; exact Hr|exact Hr].
Qed.

(** A word of an expression is made of characters of its classes. *)
Lemma fullmatch_classes P s : forall r,
  classes P r -> fullmatch r s = true -> all_chars P s = true.
Proof.
  induction s as [|c s IH]; intros r Hr Hm; [reflexivity|].
  cbn [fullmatch] in Hm. cbn [all_chars].
  destruct (P c) eqn:Hc.
  - cbn [andb]. apply (IH (deriv c r)); [apply classes_deriv; exact Hr|exact Hm].
  - rewrite (deriv_out P c r Hr Hc), fullmatch_Void in Hm. discriminate.
Qed.

Lemma classes_times P r n : classes P r -> classes P (times n r).
Proof. intros Hr. induction n as [|n IH]; [exact I|split; assumption]. Qed.

Lemma classes_upto P r n : classes P r -> classes P (upto n r).
Proof.
  intros Hr. induction n as [|n IH]; [exact I|].
  cbn [upto]. unfold opt. split; [exact I|split; assumption].
Qed.

Lemma classes_range P r lo hi : classes P r -> classes P (range lo hi r).
Proof. intros Hr. split; [apply classes_times|apply classes_upto]; exact Hr. Qed.

Lemma to_lower_space c : is_space (to_lower c) = is_space c.
Proof. destruct c as [[] [] [] [] [] [] [] []]; reflexivity. Qed.

Lemma classes_chr_ci c : is_space c = false -> classes not_space (chr_ci c).
Proof.
  intros Hc x Hx. cbn in Hx. apply Ascii.eqb_eq in Hx.
  unfold not_space. rewrite <- (to_lower_space x), Hx, to_lower_space, Hc. reflexivity.
Qed.

Lemma classes_chr c : is_space c = false -> classes not_space (chr c).
Proof.
  intros Hc x Hx. cbn in Hx. apply Ascii.eqb_eq in Hx. subst x.
  unfold not_space. rewrite Hc. reflexivity.
Qed.

Lemma classes_lit_ci l : no_space l = true -> classes not_space (lit_ci l).
Proof.
  induction l as [|c l IH]; [intros _; exact I|].
  unfold no_space. cbn [all_chars lit_ci]. intros H. apply andb_true_iff in H.
  destruct H as [Hc Hl]. split; [|apply IH; exact Hl].
  apply classes_chr_ci. apply negb_true_iff. exact Hc.
Qed.

Lemma alnum_dash_not_space c :
  (is_alpha c || is_digit c || Ascii.eqb c "-") = true -> not_space c = true.
Proof. destruct c as [[] [] [] [] [] [] [] []]; intros H; try reflexivity; discriminate H. Qed.

Lemma classes_alnum : classes not_space alnum.
Proof.
  intros c H. apply alnum_dash_not_space. rewrite H. reflexivity.
Qed.

Lemma classes_alnum_dash : classes not_space alnum_dash.
Proof. intros c H. apply alnum_dash_not_space. exact H. Qed.

Lemma classes_alpha : classes not_space alpha.
Proof.
  intros c H. apply alnum_dash_not_space. cbn in H. rewrite H. reflexivity.
Qed.

Lemma classes_digit : classes not_space digit.
Proof.
  intros c H. apply alnum_dash_not_space. cbn in H. rewrite H.
  rewrite orb_true_r. reflexivity.
Qed.

Lemma classes_url_pattern : classes not_space url_pattern.
Proof.
  unfold url_pattern, host, domain, label, ip, octet, port, path, opt, plus, dot, nonspace.
  repeat match goal with
    | |- classes _ (Cat _ _) => split
    | |- classes _ (Alt _ _) => split
    | |- classes ?P (Star ?r) => change (classes P r)
    | |- classes _ Eps => exact I
    | |- classes _ (range _ _ _) => apply classes_range
    | |- classes _ (lit_ci _) => apply classes_lit_ci; reflexivity
    | |- classes _ (chr_ci _) => apply classes_chr_ci; reflexivity
    | |- classes _ (chr _) => apply classes_chr; reflexivity
    | |- classes _ alnum => exact classes_alnum
    | |- classes _ alnum_dash => exact classes_alnum_dash
    | |- classes _ alpha => exact classes_alpha
    | |- classes _ digit => exact classes_digit
    end.
  - cbn [classes]. intros c H. unfold not_space.
    apply orb_true_iff in H. destruct H as [H|H]; apply Ascii.eqb_eq in H; subst c; reflexivity.
  - cbn [classes]. intros c H. exact H.
  - cbn [classes]. intros c H. exact H.
Qed.
End Regex.

(** ** What [validate_url] accepts                                      *)

Section UrlShape.
Import Url.

Lemma lower_app a b : Startup.lower (a ++ b) = Startup.lower a ++ Startup.lower b.
Proof.
  induction a as [|c a IH]; [reflexivity|].
  rewrite string_app_cons. cbn [Startup.lower]. rewrite IH. reflexivity.
Qed.

Lemma all_chars_app P a b : all_chars P (a ++ b) = all_chars P a && all_chars P b.
Proof.
  induction a as [|c a IH]; [reflexivity|].
  rewrite string_app_cons. cbn [all_chars]. rewrite IH, andb_assoc. reflexivity.
Qed.

Lemma fullmatch_chr_ci c s :
  fullmatch (chr_ci c) s = true -> exists x, s = String x "" /\ to_lower x = to_lower c.
Proof.
  destruct s as [|x s]; [discriminate|]. cbn [fullmatch deriv chr_ci].
  destruct (Ascii.eqb (to_lower x) (to_lower c)) eqn:H;
    [|rewrite fullmatch_Void; discriminate].
  intros Hm. apply fullmatch_Eps in Hm. subst s. exists x. split; [reflexivity|].
  apply Ascii.eqb_eq. exact H.
Qed.

Lemma fullmatch_lit_ci l : forall s,
  fullmatch (lit_ci l) s = true -> Startup.lower s = Startup.lower l.
Proof.
  induction l as [|c l IH]; intros s H.
  - apply fullmatch_Eps in H. subst s. reflexivity.
  - cbn [lit_ci] in H. apply fullmatch_Cat in H. destruct H as (s1 & s2 & -> & H1 & H2).
    apply fullmatch_chr_ci in H1. destruct H1 as (x & -> & Hx).
    rewrite string_app_cons. change ("" ++ s2) with s2.
    cbn [Startup.lower]. rewrite Hx, (IH _ H2). reflexivity.
Qed.

Lemma url_pattern_scheme s : fullmatch url_pattern s = true -> has_scheme s.
Proof.
  unfold url_pattern. intros H.
  apply fullmatch_Cat in H. destruct H as (s1 & s2 & -> & H1 & H).
  apply fullmatch_lit_ci in H1.
  apply fullmatch_Cat in H. destruct H as (s3 & s4 & -> & H3 & H).
  apply fullmatch_Cat in H. destruct H as (s5 & s6 & -> & H5 & H6).
  apply fullmatch_lit_ci in H5.
  exists (s1 ++ s3 ++ s5), s6. split; [|split].
  - rewrite !string_app_assoc. reflexivity.
  - intros ->. cbn in H6. discriminate.
  - rewrite !lower_app, H1, H5. unfold opt in H3. rewrite fullmatch_Alt in H3.
    apply orb_true_iff in H3. destruct H3 as [H3|H3].
    + apply fullmatch_Eps in H3. subst s3. left. reflexivity.
    + apply fullmatch_chr_ci in H3. destruct H3 as (x & -> & Hx).
      cbn [Startup.lower]. rewrite Hx. right. reflexivity.
Qed.

Lemma chop_newline_spec s s' : chop_newline s = Some s' -> s = s' ++ newline.
Proof.
  unfold chop_newline. destruct (Url.rev s) as [|c t] eqn:Hr; [discriminate|].
  destruct (Ascii.eqb c "010") eqn:Hc; [|discriminate]. intros [= <-].
  apply Ascii.eqb_eq in Hc. subst c.
  rewrite <- (rev_rev s), Hr, rev_cons. reflexivity.
Qed.

Lemma pattern_match_shape s :
  pattern_match s = true ->
  exists body, (s = body \/ s = body ++ newline) /\
               no_space body = true /\ has_scheme body.
Proof.
  unfold pattern_match. intros H. apply orb_true_iff in H. destruct H as [H|H].
  - exists s. split; [left; reflexivity|]. split.
    + exact (fullmatch_classes not_space s url_pattern classes_url_pattern H).
    + apply url_pattern_scheme. exact H.
  - destruct (chop_newline s) as [s'|] eqn:Hc; [|discriminate].
    exists s'. split; [right; apply chop_newline_spec; exact Hc|]. split.
    + exact (fullmatch_classes not_space s' url_pattern classes_url_pattern H).
    + apply url_pattern_scheme. exact H.
Qed.

Lemma rstrip_end s body c : rstrip s = body ++ String c "" -> is_space c = false.
Proof.
  unfold rstrip. intros H.
  pose proof (lstrip_trimmed (Url.rev s)) as Ht.
  rewrite <- (rev_rev (lstrip (Url.rev s))), H, rev_app in Ht.
  exact Ht.
Qed.

Lemma stripped_pattern_match s :
  pattern_match (strip s) = true -> no_space (strip s) = true /\ has_scheme (strip s).
Proof.
  intros H. destruct (pattern_match_shape _ H) as (body & [Hb|Hb] & Hn & Hs).
  - rewrite Hb. split; assumption.
  - unfold strip in Hb. apply rstrip_end in Hb. discriminate.
Qed.

(** The ASCII URLs that pass.  A non-empty ASCII URL [validate_url]
    accepts is, up to one newline at its very end, a string without
    white space that starts with "http://" or "https://" in any case
    and goes on after it. *)
Theorem accepted_url_shape s :
  is_ascii s = true ->
  validate_url (Some s) = true ->
  s <> "" ->
  exists body, (s = body \/ s = body ++ newline) /\
               no_space body = true /\ has_scheme body.
Proof.
  intros _ H Hne. destruct s as [|c s]; [congruence|].
  apply pattern_match_shape. exact H.
Qed.

(** The URL a job sends.  When the image URL of a job is an ASCII
    string, the request carries a [url] field and the job was not
    stopped by the check of the image URL, the field is the image URL
    stripped; it holds no white space, not even a newline at its end,
    and starts with "http://" or "https://" in any case. *)
Theorem submitted_url_is_clean prompt_ image_url aspect_ratio duration u :
  is_ascii (default "" image_url) = true ->
  p_url (job_payload prompt_ image_url aspect_ratio duration) = Some u ->
  image_rejected image_url = false ->
  u = strip (default "" image_url) /\ no_space u = true /\ has_scheme u.
Proof.
  intros _. unfold job_payload, image_rejected. destruct (image_given image_url) eqn:Hg.
  2:{ cbn. discriminate. }
  cbn [with_url p_url andb]. intros [= <-] Hv. apply negb_false_iff in Hv.
  split; [reflexivity|].
  apply stripped_pattern_match.
  destruct image_url as [x|]; [|discriminate Hg].
  cbn [image_given] in Hg. apply andb_true_iff in Hg. destruct Hg as [_ Hne].
  cbn [default from_option id] in *.
  destruct (strip x) as [|c s] eqn:Hs; [discriminate Hne|]. exact Hv.
Qed.
End UrlShape.

Lemma accepted_url_shape_witness :
  is_ascii Scenario.video = true /\
  Url.validate_url (Some Scenario.video) = true /\
  exists body, (Scenario.video = body \/ Scenario.video = body ++ newline) /\
               no_space body = true.
Proof.
  split; [vm_compute; reflexivity|]. split; [vm_compute; reflexivity|].
  destruct (accepted_url_shape Scenario.video ltac:(vm_compute; reflexivity)
              ltac:(vm_compute; reflexivity) ltac:(discriminate))
    as (body & H1 & H2 & _).
  exists body. split; [exact H1|exact H2].
Defined.

Lemma submitted_url_is_clean_witness :
  is_ascii " https://cdn.example.com/cat.png " = true /\
  p_url (job_payload "a cat" (Some " https://cdn.example.com/cat.png ") "16:9" 15)
    = Some "https://cdn.example.com/cat.png" /\
  no_space "https://cdn.example.com/cat.png" = true.
Proof.
  split; [vm_compute; reflexivity|]. split; [vm_compute; reflexivity|].
  exact (proj1 (proj2 (submitted_url_is_clean "a cat"
                         (Some " https://cdn.example.com/cat.png ") "16:9" 15
                         "https://cdn.example.com/cat.png"
                         ltac:(vm_compute; reflexivity) ltac:(vm_compute; reflexivity)
                         ltac:(vm_compute; reflexivity)))).
Defined.

(** ** The requests of a job                                            *)

Lemma same_submits_refl st : same_submits st st.
Proof. reflexivity. Qed.

Lemma same_submits_trans a b c :
  same_submits a b -> same_submits b c -> same_submits a c.
Proof. unfold same_submits. congruence. Qed.

Ltac same_submits_prims :=
  first [ exact same_submits_refl | exact same_submits_trans
        | intros; reflexivity ].

Lemma same_submits_handle_response E idx response st :
  same_submits st (handle_response E idx response st).2.
Proof. apply mono_handle_response; same_submits_prims. Qed.

Lemma same_submits_locked_update E idx w f st :
  same_submits st (locked_update E w idx f st).2.
Proof. apply mono_locked_update; same_submits_prims. Qed.

Lemma same_submits_rate_limit E st : same_submits st (rate_limit_api_call E st).2.
Proof. apply mono_rate_limit; same_submits_prims. Qed.

Lemma same_submits_finish E idx st : same_submits st (finish E idx st).2.
Proof. apply mono_finish; same_submits_prims. Qed.

Lemma same_submits_init_task E idx prompt_ st :
  same_submits st (init_task E idx prompt_ st).2.
Proof. apply mono_init_task; same_submits_prims. Qed.

Lemma attempt_body_submits E idx p a st :
  submits_of (trace (attempt_body E idx p a st).2) = p :: submits_of (trace st).
Proof.
  unfold attempt_body. rewrite !bind_snd.
  rewrite same_submits_handle_response.
  set (st2 := (rate_limit_api_call E (locked_update E WAttemptStart idx
                 (upd_attempt_start a) st).2).2).
  change (submits_of (trace (post_sora_video E p st2).2))
    with (p :: submits_of (trace st2)).
  f_equal. subst st2.
  rewrite same_submits_rate_limit, same_submits_locked_update. reflexivity.
Qed.

Lemma resends_same p n st st' : same_submits st st' -> resends p n st st'.
Proof. intros H. exists 0%nat. split; [lia|exact H]. Qed.

Lemma resends_after p n a b c :
  same_submits a b -> resends p n b c -> resends p n a c.
Proof. intros H (k & Hk & Hc). exists k. split; [exact Hk|]. rewrite Hc, H. reflexivity. Qed.

Lemma resends_one_more p n a b c :
  submits_of (trace b) = p :: submits_of (trace a) ->
  resends p n b c -> resends p (S n) a c.
Proof.
  intros H (k & Hk & Hc). exists (S k). split; [lia|]. rewrite Hc, H.
  change (p :: submits_of (trace a)) with ([p] ++ submits_of (trace a))%list.
  rewrite app_assoc. f_equal. rewrite <- repeat_cons. reflexivity.
Qed.

Lemma retry_loop_resends E idx p fuel : forall a st,
  resends p fuel st (retry_loop E fuel a idx p st).2.
Proof.
  induction fuel as [|fuel IH]; intros a st; cbn [retry_loop].
  - apply resends_same. reflexivity.
  - rewrite bind_snd.
    set (st1 := (read_is_running E st).2).
    assert (H1 : same_submits st st1) by reflexivity.
    destruct (negb _); [apply resends_same; exact H1|].
    rewrite bind_snd.
    pose proof (attempt_body_submits E idx p a st1) as H2.
    set (st2 := (attempt_body E idx p a st1).2) in *.
    assert (H12 : submits_of (trace st2) = p :: submits_of (trace st))
      by (rewrite H2, H1; reflexivity).
    destruct (attempt_body E idx p a st1).1.
    + apply (resends_one_more p fuel st st2); [exact H12|].
      apply resends_same. reflexivity.
    + apply (resends_one_more p fuel st st2); [exact H12|apply IH].
    + apply (resends_one_more p fuel st st2); [exact H12|].
      unfold retry_decision.
      destruct (a <? max_retries - 1)%nat; [|apply resends_same; reflexivity].
      rewrite bind_snd. change ((current_status idx st2).2) with st2.
      destruct (_ =? "failed"); [|apply resends_same; reflexivity].
      rewrite bind_snd.
      set (st3 := (read_is_running E st2).2).
      destruct (read_is_running E st2).1; [|apply resends_same; reflexivity].
      cbv zeta. rewrite !bind_snd.
      set (st4 := (time_sleep Backoff (inject_Z (2 ^ Z.of_nat a)) st3).2).
      pose proof (same_submits_locked_update E idx WBackoffReset upd_backoff_reset st4) as H5.
      set (st5 := (locked_update E WBackoffReset idx upd_backoff_reset st4).2) in *.
      apply (resends_after p fuel st2 st5); [exact H5|apply IH].
Qed.

Lemma repeat_rev {A} (x : A) k : List.rev (repeat x k) = repeat x k.
Proof.
  induction k as [|k IH]; [reflexivity|].
  cbn [repeat List.rev]. rewrite IH. symmetry. apply repeat_cons.
Qed.

(** The requests of one job.  Every submit call a job makes, at the
    first attempt and at every retry, carries the same request: model
    "sora-2", the prompt, aspect ratio and duration of the job, size
    "small", [shutProgress] false, [webHook] "-1", and the stripped
    image URL exactly when one was given; there are at most
    [max_retries] of them. *)
Theorem every_request_is_the_same E idx prompt_ image_url aspect_ratio duration st :
  let p := job_payload prompt_ image_url aspect_ratio duration in
  (exists k, (k <= max_retries)%nat /\
     submits_of (history
       (generate_video_task E idx prompt_ image_url aspect_ratio duration st).2)
     = (submits_of (history st) ++ repeat p k)%list) /\
  p_model p = "sora-2" /\ p_prompt p = prompt_ /\ p_aspectRatio p = aspect_ratio /\
  p_duration p = duration /\ p_size p = "small" /\ p_shutProgress p = false /\
  p_webHook p = "-1" /\
  p_url p = (if image_given image_url then Some (Url.strip (default "" image_url))
             else None).
Proof.
  cbv zeta. split.
  - assert (H : resends (job_payload prompt_ image_url aspect_ratio duration) max_retries st
                  (generate_video_task E idx prompt_ image_url aspect_ratio duration st).2).
    { assert (Hrun : forall p st0, resends p max_retries st0 (run_attempts E idx p st0).2).
      { intros p st0. unfold run_attempts. rewrite bind_snd.
        pose proof (retry_loop_resends E idx p max_retries 0 st0) as (k & Hk & Hl).
        destruct (retry_loop E max_retries 0 idx p st0).1.
        - exists k. split; [exact Hk|exact Hl].
        - exists k. split; [exact Hk|]. rewrite same_submits_finish. exact Hl. }
      unfold generate_video_task, job_payload. rewrite bind_snd.
      set (st1 := (read_is_running E st).2).
      assert (H1 : same_submits st st1) by reflexivity.
      destruct (negb _); [apply resends_same; exact H1|].
      rewrite bind_snd. change ((get st1).2) with st1. change ((get st1).1) with st1.
      destruct (length (tasks st1) <=? idx)%nat; [apply resends_same; exact H1|].
      rewrite bind_snd.
      pose proof (same_submits_init_task E idx prompt_ st1) as H2.
      set (st2 := (init_task E idx prompt_ st1).2) in *.
      apply (resends_after _ _ st st2); [exact (same_submits_trans _ _ _ H1 H2)|].
      cbv zeta.
      destruct (image_given image_url); [|apply Hrun].
      destruct (Url.validate_url _); [apply Hrun|].
      rewrite bind_snd. apply resends_same. apply same_submits_locked_update. }
    destruct H as (k & Hk & Hl). exists k. split; [exact Hk|].
    unfold history. rewrite !submits_of_rev, Hl, rev_app_distr, repeat_rev. reflexivity.
  - unfold job_payload. destruct (image_given image_url); repeat split.
Qed.

(** ** The wait loop between the attempts of a job                      *)

Section BetweenAttempts.
Variable E : env.
Variable idx : nat.
Hypothesis Hrun : forall n, is_running E n = true.

Lemma failed_at_counts st : failed_at idx st -> counts_as_done idx st = true.
Proof.
  intros (r & Hr & Hf). unfold counts_as_done, task_at in *.
  destruct (tasks st !! idx) as [[r'|]|]; try discriminate.
  injection Hr as ->. cbn [default from_option id has_status existsb].
  destruct Hf as [-> | ->]; reflexivity.
Qed.

Lemma count_submits_extends st st' :
  extends st st' ->
  (count_events is_submit (trace st) <= count_events is_submit (trace st'))%nat.
Proof.
  intros [l Hl]. rewrite Hl. unfold count_events.
  rewrite List.filter_app, length_app. lia.
Qed.

Lemma attempt_body_counts_submit p a st :
  count_events is_submit (trace (attempt_body E idx p a st).2)
  = S (count_events is_submit (trace st)).
Proof.
  pose proof (attempt_body_submits E idx p a st) as H.
  assert (Hc : forall tr, count_events is_submit tr = length (submits_of tr)).
  { induction tr as [|e tr IH]; [reflexivity|].
    unfold count_events, submits_of in *. cbn [List.filter omap].
    destruct e; cbn [is_submit length]; rewrite ?IH; reflexivity. }
  rewrite !Hc, H. reflexivity.
Qed.

(** Between two attempts.  While the process runs, an attempt that
    does not complete the job leaves the record "failed" or
    "download_failed", which the wait loop of [run_generation] counts
    as done; yet when it was not the last attempt the retry loop goes
    on from there and makes another submit call. *)
Theorem unfinished_attempt_counts_as_done p fuel a st r :
  task_at idx st = Some r ->
  (a < max_retries - 1)%nat ->
  let out := attempt_body E idx p a (read_is_running E st).2 in
  out.1 <> Return true ->
  counts_as_done idx out.2 = true /\
  (S (count_events is_submit (trace out.2))
   <= count_events is_submit (trace (retry_loop E (S (S fuel)) a idx p st).2))%nat.
Proof.
  intros Hr Ha. cbv zeta. intros Hfl.
  rewrite (retry_loop_step E idx p (S fuel) a st (Hrun _)). cbv zeta.
  assert (Hr1 : task_at idx (read_is_running E st).2 = Some r) by exact Hr.
  pose proof (attempt_body_outcome E idx Hrun p a _ r Hr1) as Ho. cbv zeta in Ho.
  set (out := attempt_body E idx p a (read_is_running E st).2) in *.
  assert (Hnext : forall st2 r2, task_at idx st2 = Some r2 ->
            (S (count_events is_submit (trace st2))
             <= count_events is_submit (trace (retry_loop E (S fuel) (S a) idx p st2).2))%nat).
  { intros st2 r2 Hr2.
    rewrite (retry_loop_step E idx p fuel (S a) st2 (Hrun _)). cbv zeta.
    pose proof (attempt_body_counts_submit p (S a) (read_is_running E st2).2) as Hs.
    set (o2 := attempt_body E idx p (S a) (read_is_running E st2).2) in *.
    change (trace (read_is_running E st2).2) with (trace st2) in Hs.
    rewrite <- Hs.
    destruct o2.1.
    - cbn [snd]. lia.
    - apply count_submits_extends. apply extends_retry_loop.
    - apply count_submits_extends. apply extends_retry_decision.
      intros s. apply extends_retry_loop. }
  destruct out.1 as [b| |]; cbn [attempt_outcome] in Ho.
  - destruct Ho as [-> _]. congruence.
  - destruct Ho as [Hf _]. split; [apply failed_at_counts; exact Hf|].
    destruct Hf as (r2 & Hr2 & _). exact (Hnext _ r2 Hr2).
  - destruct Ho as (r2 & Hr2 & Hs2). split.
    + apply failed_at_counts. exists r2. split; [exact Hr2|left; exact Hs2].
    + unfold retry_decision.
      replace (a <? max_retries - 1)%nat with true by (symmetry; apply Nat.ltb_lt; exact Ha).
      unfold bind at 1. unfold current_status, lookup_task. unfold bind at 1.
      rewrite Hr2. unfold ret at 1. rewrite Hs2.
      cbn [String.eqb Ascii.eqb Bool.eqb].
      unfold bind at 1. unfold read_is_running at 1. rewrite Hrun.
      cbv zeta. unfold bind at 1. unfold time_sleep, emit.
      set (st3 := State _ _ _ _ _ _ _ _ _).
      assert (Hr3 : task_at idx st3 = Some r2) by exact Hr2.
      unfold bind at 1. rewrite (locked_update_eq E idx _ _ _ _ Hr3).
      set (st4 := State _ _ _ _ _ _ _ _ _).
      assert (Hr4 : exists r4, task_at idx st4 = Some r4).
      { eexists. apply task_at_insert. eapply task_at_length. exact Hr3. }
      destruct Hr4 as [r4 Hr4].
      pose proof (Hnext st4 r4 Hr4) as H.
      assert (Hc : count_events is_submit (trace st4)
                   = count_events is_submit (trace out.2)) by reflexivity.
      rewrite <- Hc. exact H.
Qed.
End BetweenAttempts.

Lemma unfinished_attempt_counts_as_done_witness :
  let st := init_state Scenario.all_refused Scenario.table 0 "a cat" in
  let out := attempt_body Scenario.all_refused 0 (base_payload "a cat" "16:9" 15) 0
               (read_is_running Scenario.all_refused st).2 in
  out.1 = Next /\ counts_as_done 0 out.2 = true.
Proof.
  cbv zeta. split; [vm_compute; reflexivity|].
  refine (proj1 (unfinished_attempt_counts_as_done Scenario.all_refused 0
                   (fun n => eq_refl) (base_payload "a cat" "16:9" 15) 3 0
                   (init_state Scenario.all_refused Scenario.table 0 "a cat")
                   (init_record Scenario.all_refused Scenario.table 0 "a cat")
                   eq_refl _ _)).
  - unfold max_retries. lia.
  - vm_compute. discriminate.
Defined.

(** ** The model status                                                 *)

(** The model status never blocks.  Whatever [check_model_status]
    finds, [get_user_input] asks the same questions and returns the
    same parameters, with the same key and credits; only the
    [model_status] attribute may differ. *)
Theorem model_status_never_blocks int cfg credits_reply m1 m2 inputs a :
  let out1 := Startup.get_user_input int cfg credits_reply m1 inputs a in
  let out2 := Startup.get_user_input int cfg credits_reply m2 inputs a in
  out1.1 = out2.1 /\
  Startup.api_key out1.2 = Startup.api_key out2.2 /\
  Startup.credits out1.2 = Startup.credits out2.2 /\
  Startup.config_written out1.2 = Startup.config_written out2.2.
Proof.
  cbv zeta. unfold Startup.get_user_input.
  destruct (Startup.load_config cfg a) as [loaded a1].
  destruct loaded; cbn [negb]; [|repeat split].
  destruct (Startup.get_credits credits_reply a1) as [[ok a2] sent].
  destruct ok; cbn [negb]; [|repeat split].
  assert (H : forall m,
            Startup.api_key (Startup.check_model_status m a2).2 = Startup.api_key a2 /\
            Startup.credits (Startup.check_model_status m a2).2 = Startup.credits a2 /\
            Startup.config_written (Startup.check_model_status m a2).2
              = Startup.config_written a2).
  { intros m. unfold Startup.check_model_status.
    destruct m as [|code [[[z|] [b|]]|]];
      try destruct ((code =? 200)%Z && (z =? 0)%Z); repeat split. }
  pose proof (H m1) as (K1 & C1 & W1). pose proof (H m2) as (K2 & C2 & W2).
  destruct (Startup.check_model_status m1 a2) as [r1 b1].
  destruct (Startup.check_model_status m2 a2) as [r2 b2].
  cbn [fst snd] in *. split; [|split; [congruence|split; congruence]].
  unfold Startup.ask_params.
  destruct (Startup.ask_count int inputs) as [n rest|]; [|reflexivity].
  cbv zeta. rewrite C1, C2. reflexivity.
Qed.

(* ================================================================== *)
(** ** The remote status in the record                                  *)
(* ================================================================== *)

(** Claim C5, at the failing input.  One job without image URL whose
    submit is accepted, whose first poll reply has the status
    "succeeded" with a result URL and whose download delivers the 10
    bytes it declares.  The job returns [True]; the third write of its
    record, the one [poll_for_result] makes from the poll reply, gives
    it the status "succeeded" of the remote service, which is none of
    the five statuses of the enumeration and which [display_progress]
    counts in none of its columns; the record keeps it, with no
    [end_time], until the download is over. *)
Theorem remote_status_leaks_into_record :
  let out := Scenario.run Scenario.smooth None in
  out.1 = true /\
  statuses_of 0 (history out.2) =
    ["pending"; "generating"; "succeeded"; "completed"] /\
  spec_status "succeeded" = false /\
  exists r,
    writes_of 0 (history out.2) !! 2%nat = Some (WPollStatus, r) /\
    status r = "succeeded" /\ end_time r = None /\
    in_a_column (Some r) = false /\
    panel_completed [Some r] = 0%nat /\ panel_failed [Some r] = 0%nat /\
    panel_running [Some r] = 0%nat /\ panel_total [Some r] = 1%nat.
Proof.
  cbv zeta. split; [vm_compute; reflexivity|].
  split; [vm_compute; reflexivity|].
  split; [reflexivity|].
  destruct (writes_of 0 (history (Scenario.run Scenario.smooth None).2) !! 2%nat)
    as [[w r]|] eqn:Hw; vm_compute in Hw; [|discriminate].
  injection Hw as <- <-. eexists. split; [reflexivity|].
  vm_compute. repeat split.
Qed.
